(** * Resuscope: the scoring and aggregation pipeline

    A shallow embedding of [models/matcher.py], [models/extractor.py],
    [models/rewriter.py] and [app.py].

    Conventions of the embedding:
    - Python values that travel through dictionaries ([model_dump()] results,
      fallback dictionaries, the JSON response) are values of [pyval]; a
      dictionary is an association list in insertion order.
    - A Python float is the rational number it denotes ([Q]).  The
      arithmetic of the request handler (lines 116 and 127 of [app.py]) is
      IEEE 754 binary64 arithmetic, every operation rounding its exact
      result to the nearest double, ties to even ([B64]).  The value of
      [score] is kept as the two-decimal number [round(x, 2)] stands for; the
      float the handler receives is the double nearest to it.  [round] is
      round-half-to-even, as in Python 3.
    - Python [str] is [string]; [len] counts its characters.
    - Effects (the process-wide model handle, standard output, calls to the
      encoder and to the generative model) are threaded through a state and
      exception monad [M].  Exceptions are the instances of Python's
      [Exception] class. *)

From Stdlib Require Import ZArith QArith Qabs Qpower Lqa List String Ascii Bool Lia.
Import ListNotations.

Local Open Scope string_scope.
Local Open Scope Z_scope.

(* ===================================================================== *)
(** ** Numbers *)

Module Num.

(** [round(x)] on a float: nearest integer, ties to the even one. *)
Definition py_round (x : Q) : Z :=
  let n := Qnum x in
  let d := Zpos (Qden x) in
  let fl := n / d in
  let twice := 2 * (n mod d) in
  if twice <? d then fl
  else if d <? twice then fl + 1
  else if Z.even fl then fl else fl + 1.

(** [round(x, 2)]: two decimal places, again a float. *)
Definition py_round2 (x : Q) : Q :=
  inject_Z (py_round (x * 100)) / 100.

(** [max(a, b)] and [min(a, b)] as Python evaluates them: the first
    argument is kept unless the second is strictly better. *)
Definition py_max (a b : Q) : Q := if Qle_bool b a then a else b.
Definition py_min (a b : Q) : Q := if Qle_bool a b then a else b.

End Num.
Import Num.

(* ===================================================================== *)
(** ** Binary64 floating point

    The finite doubles are the rationals [m * 2^e] with [|m| <= 2^53] and
    [e >= -1074].  [round q] is the one nearest to [q], the one with the
    even [m] when two are equally near: the result of every float
    operation of the handler.  The largest exponent is not built in: the
    one place where a value can be too large, the conversion of an
    integer, tests it ([as_float] below). *)

Module B64.

Definition pow2 (e : Z) : Q := (2 ^ e)%Q.

(** The [l] with [2^l <= q < 2^(l+1)], for a positive [q]. *)
Definition ilog2 (q : Q) : Z :=
  let l := Z.log2 (Qnum q) - Z.log2 (Zpos (Qden q)) in
  if Qle_bool (pow2 l) q then l else l - 1.

(** The exponent of the last place of the doubles around [q]: 53
    significant bits, and no spacing finer than [2^-1074]. *)
Definition expo (q : Q) : Z := Z.max (ilog2 q - 52) (-1074).

Definition round_pos (q : Q) : Q :=
  let e := expo q in
  (inject_Z (py_round (q / pow2 e)) * pow2 e)%Q.

Definition round (q : Q) : Q :=
  match Qnum q with
  | Z0 => 0%Q
  | Zpos _ => round_pos q
  | Zneg _ => (- round_pos (- q))%Q
  end.

(** [x + y] and [x * y] on floats. *)
Definition add (x y : Q) : Q := round (x + y).
Definition mul (x y : Q) : Q := round (x * y).

(** [float(z)] raises when the nearest double would be [2^1024] or more
    in magnitude. *)
Definition int_overflows (z : Z) : bool :=
  Qle_bool (pow2 1024) (Qabs (round (inject_Z z))).

End B64.

Declare Scope b64_scope.
Delimit Scope b64_scope with b64.
Arguments B64.round q%_Q.
Arguments B64.add (x y)%_b64.
Arguments B64.mul (x y)%_b64.
Notation "x + y" := (B64.add x y) : b64_scope.
Notation "x * y" := (B64.mul x y) : b64_scope.

(* ===================================================================== *)
(** ** Python values *)

#[local] Unset Elimination Schemes.
Inductive pyval : Type :=
| PNone
| PBool (b : bool)
| PInt (z : Z)
| PFloat (q : Q)
| PStr (s : string)
| PList (l : list pyval)
| PDict (d : list (string * pyval)).
#[local] Set Elimination Schemes.

Definition pydict : Type := list (string * pyval).

(** [d.get(key)] *)
Fixpoint lookup (d : pydict) (key : string) : option pyval :=
  match d with
  | [] => None
  | (k, v) :: rest => if String.eqb k key then Some v else lookup rest key
  end.

(** [d.get(key, default)] *)
Definition get (d : pydict) (key : string) (default : pyval) : pyval :=
  match lookup d key with
  | Some v => v
  | None => default
  end.

(** Truth value of an object, as [if x] / [not x] test it. *)
Definition truthy (v : pyval) : bool :=
  match v with
  | PNone => false
  | PBool b => b
  | PInt z => negb (z =? 0)
  | PFloat q => negb (Qeq_bool q 0)
  | PStr s => negb (String.eqb s EmptyString)
  | PList l => match l with [] => false | _ => true end
  | PDict d => match d with [] => false | _ => true end
  end.

Definition strs (l : list string) : pyval := PList (map PStr l).

(** [v == s] for a string literal [s]: only an equal [str] compares equal. *)
Definition str_eq (v : pyval) (s : string) : bool :=
  match v with
  | PStr t => String.eqb t s
  | _ => false
  end.

(* ===================================================================== *)
(** ** Strings *)

(** [s.endswith(suffix)] *)
Definition endswith (s suffix : string) : bool :=
  let n := String.length s in
  let k := String.length suffix in
  Nat.leb k n && String.eqb (substring (n - k) k s) suffix.

(** White space, as [str.strip()] removes it: of the characters below
    256, the codes 9 to 13, 28 to 32, 133 (next line) and 160 (no-break
    space). *)
Definition is_space (c : ascii) : bool :=
  let n := nat_of_ascii c in
  (Nat.leb 9 n && Nat.leb n 13) || (Nat.leb 28 n && Nat.leb n 32)
  || Nat.eqb n 133 || Nat.eqb n 160.

Fixpoint lstrip (s : string) : string :=
  match s with
  | String c rest => if is_space c then lstrip rest else s
  | EmptyString => EmptyString
  end.

Fixpoint rstrip (s : string) : string :=
  match s with
  | String c rest =>
      match rstrip rest with
      | EmptyString => if is_space c then EmptyString else String c EmptyString
      | rest' => String c rest'
      end
  | EmptyString => EmptyString
  end.

(** [s.strip()] *)
Definition strip (s : string) : string := rstrip (lstrip s).

(* ===================================================================== *)
(** ** Declared output schemas (the pydantic models)

    A field type is what the class annotation says; a dictionary conforms
    to a model when every declared field is present with a value of its
    type (all fields of these models are required; keys that the model
    does not declare are ignored by pydantic's default configuration). *)

#[local] Unset Elimination Schemes.
Inductive ftype : Type :=
| TInt
| TStr
| TBool
| TList (elem : ftype)
| TModel (fields : list (string * ftype)).
#[local] Set Elimination Schemes.

Definition schema : Type := list (string * ftype).

Fixpoint has_type (t : ftype) (v : pyval) {struct t} : bool :=
  match t, v with
  | TInt, PInt _ => true
  | TStr, PStr _ => true
  | TBool, PBool _ => true
  | TList elem, PList l => forallb (has_type elem) l
  | TModel fields, PDict d =>
      (fix all_fields (fs : list (string * ftype)) : bool :=
         match fs with
         | [] => true
         | (name, t') :: rest =>
             match lookup d name with
             | Some v' => has_type t' v'
             | None => false
             end && all_fields rest
         end) fields
  | _, _ => false
  end.

Definition conforms (d : pydict) (s : schema) : bool :=
  has_type (TModel s) (PDict d).

(** Conformance that also refuses undeclared keys. *)
Definition conforms_exactly (d : pydict) (s : schema) : bool :=
  conforms d s
  && forallb (fun kv => existsb (fun f => String.eqb (fst f) (fst kv)) s) d.

Module SkillCategory.
Record t : Type := { category : string; skills : list string }.
Definition schema : schema :=
  [("category", TStr); ("skills", TList TStr)].
Definition model_dump (x : t) : pyval :=
  PDict [("category", PStr (category x)); ("skills", strs (skills x))].
End SkillCategory.

Module CandidateSkills.
Record t : Type := { skill_sets : list SkillCategory.t }.
Definition schema : schema :=
  [("skill_sets", TList (TModel SkillCategory.schema))].
Definition model_dump (x : t) : pydict :=
  [("skill_sets", PList (map SkillCategory.model_dump (skill_sets x)))].
End CandidateSkills.

Module RequiredSkillsResponse.
Record t : Type := {
  technical_skills : list string;
  soft_skills : list string
}.
Definition schema : schema :=
  [("technical_skills", TList TStr); ("soft_skills", TList TStr)].
Definition model_dump (x : t) : pydict :=
  [("technical_skills", strs (technical_skills x));
   ("soft_skills", strs (soft_skills x))].
End RequiredSkillsResponse.

Module ContentScoreResponse.
Record t : Type := {
  score : Z;
  reasoning : string;
  missing_keywords : list string;
  improvement_tips : list string
}.
Definition schema : schema :=
  [("score", TInt); ("reasoning", TStr);
   ("missing_keywords", TList TStr); ("improvement_tips", TList TStr)].
Definition model_dump (x : t) : pydict :=
  [("score", PInt (score x)); ("reasoning", PStr (reasoning x));
   ("missing_keywords", strs (missing_keywords x));
   ("improvement_tips", strs (improvement_tips x))].
End ContentScoreResponse.

Module StructureScoreResponse.
Record t : Type := { score : Z; reasoning : string }.
Definition schema : schema := [("score", TInt); ("reasoning", TStr)].
Definition model_dump (x : t) : pydict :=
  [("score", PInt (score x)); ("reasoning", PStr (reasoning x))].
End StructureScoreResponse.

Module FeedbackResponse.
Record t : Type := { key_points : list string; has_issues : bool }.
Definition schema : schema :=
  [("key_points", TList TStr); ("has_issues", TBool)].
Definition model_dump (x : t) : pydict :=
  [("key_points", strs (key_points x)); ("has_issues", PBool (has_issues x))].
End FeedbackResponse.

Module ProfessionalSummaryResponse.
Record t : Type := { key_points : list string }.
Definition schema : schema := [("key_points", TList TStr)].
Definition model_dump (x : t) : pydict :=
  [("key_points", strs (key_points x))].
End ProfessionalSummaryResponse.

(** What the HTTP layer hands over and gets back. *)
Record UploadFile (blob : Type) : Type := {
  filename : string;
  file : blob
}.
Arguments filename {blob} _.
Arguments file {blob} _.

Record JSONResponse : Type := {
  status_code : Z;
  content : pydict
}.

(* ===================================================================== *)
(** ** Exceptions and the effect monad *)

Inductive exn : Type :=
| RuntimeError (msg : string)
| EnvironmentError (msg : string)
| IndexError (msg : string)
| TypeError (msg : string)
| AttributeError (msg : string)
| OverflowError (msg : string)
| HTTPException (status_code : Z) (detail : string)
| OtherException (msg : string).

(** [str(e)] *)
Definition str (e : exn) : string :=
  match e with
  | RuntimeError m | EnvironmentError m | IndexError m | TypeError m
  | AttributeError m | OverflowError m | OtherException m => m
  | HTTPException _ d => d
  end.

(** A chain [prompt | llm | parser]: [invoke] yields a validated instance
    of the declared model, or raises. *)
Definition Runnable (T : Type) : Type := pydict -> exn + T.

(** A loaded [SentenceTransformer] over embedding vectors [vec]: its
    [encode] maps a batch of inputs to one row per input, or raises. *)
Record SentenceTransformer (vec : Type) : Type := {
  encode : list pyval -> exn + list vec
}.
Arguments encode {vec} _ _.

(** The collaborators outside the repository, as the code calls them. *)
Module Ext.
Record t : Type := {
  (** An embedding vector (a one-dimensional tensor). *)
  vec : Type;
  (** [t.mean(dim=0)] on a two-dimensional tensor, given as its rows. *)
  tensor_mean : list vec -> vec;
  (** [util.cos_sim(u, v).item()] of sentence_transformers. *)
  cos_sim : vec -> vec -> exn + Q;
  (** [torch.cuda.is_available()] and the
      [SentenceTransformer(name, device)] constructor. *)
  cuda_is_available : exn + bool;
  load_SentenceTransformer : string -> string -> exn + SentenceTransformer vec;
  (** The document readers behind [pdfplumber] and [docx]: the text of
      each page ([None] when a page has none), and of each paragraph. *)
  blob : Type;
  pdf_pages : blob -> exn + list (option string);
  docx_paragraphs : blob -> exn + list string;
  (** The chains of the generative-model clients; building one may
      raise as well as invoking it. *)
  skills_chain : exn + Runnable CandidateSkills.t;
  required_skills_chain : exn + Runnable RequiredSkillsResponse.t;
  content_score_chain : exn + Runnable ContentScoreResponse.t;
  structure_score_chain : exn + Runnable StructureScoreResponse.t;
  check_content_chain : exn + Runnable FeedbackResponse.t;
  summary_chain : exn + Runnable ProfessionalSummaryResponse.t
}.
End Ext.

Section Pipeline.

Variable E : Ext.t.

Local Abbreviation vec := (Ext.vec E).
Local Abbreviation tensor_mean := (Ext.tensor_mean E).
Local Abbreviation cos_sim := (Ext.cos_sim E).
Local Abbreviation cuda_is_available := (Ext.cuda_is_available E).
Local Abbreviation load_SentenceTransformer := (Ext.load_SentenceTransformer E).
Local Abbreviation blob := (Ext.blob E).
Local Abbreviation pdf_pages := (Ext.pdf_pages E).
Local Abbreviation docx_paragraphs := (Ext.docx_paragraphs E).
Local Abbreviation skills_chain := (Ext.skills_chain E).
Local Abbreviation required_skills_chain := (Ext.required_skills_chain E).
Local Abbreviation content_score_chain := (Ext.content_score_chain E).
Local Abbreviation structure_score_chain := (Ext.structure_score_chain E).
Local Abbreviation check_content_chain := (Ext.check_content_chain E).
Local Abbreviation summary_chain := (Ext.summary_chain E).

(** The process state the code reads and writes. *)
Record world : Type := mkWorld {
  MODEL_NAME : option string;           (* os.environ.get("MODEL_NAME") *)
  SemanticModel_instance : option string; (* the singleton, by model_name *)
  SemanticModel_model : option (SentenceTransformer vec);
  encode_calls : nat;                   (* invocations of model.encode *)
  oracle_calls : nat;                   (* invocations of the generative model *)
  stdout : list string                  (* lines printed, oldest first *)
}.

Definition M (A : Type) : Type := world -> (exn + A) * world.

Definition ret {A} (a : A) : M A := fun w => (inr a, w).

Definition bind {A B} (m : M A) (k : A -> M B) : M B :=
  fun w =>
    match m w with
    | (inr a, w') => k a w'
    | (inl e, w') => (inl e, w')
    end.

Definition raise {A} (e : exn) : M A := fun w => (inl e, w).

(** [try: m  except Exception as e: h e] *)
Definition try_except {A} (m : M A) (h : exn -> M A) : M A :=
  fun w =>
    match m w with
    | (inr a, w') => (inr a, w')
    | (inl e, w') => h e w'
    end.

(** Lifting the outcome of an external call. *)
Definition lift {A} (r : exn + A) : M A := fun w => (r, w).

Definition print (line : string) : M unit :=
  fun w => (inr tt,
            mkWorld (MODEL_NAME w) (SemanticModel_instance w)
                    (SemanticModel_model w) (encode_calls w)
                    (oracle_calls w) (stdout w ++ [line])).

Definition tick_encode : M unit :=
  fun w => (inr tt,
            mkWorld (MODEL_NAME w) (SemanticModel_instance w)
                    (SemanticModel_model w) (S (encode_calls w))
                    (oracle_calls w) (stdout w)).

Definition tick_oracle : M unit :=
  fun w => (inr tt,
            mkWorld (MODEL_NAME w) (SemanticModel_instance w)
                    (SemanticModel_model w) (encode_calls w)
                    (S (oracle_calls w)) (stdout w)).

Notation "x <- m ;; k" := (bind m (fun x => k))
  (at level 61, m at next level, right associativity).
Notation "m ;;; k" := (bind m (fun _ => k))
  (at level 61, right associativity).

(* =================================================================== *)
(** ** models/matcher.py *)

(** [model.encode(batch, convert_to_tensor=True, show_progress_bar=False)] *)
Definition call_encode (model : SentenceTransformer vec) (batch : list pyval)
  : M (list vec) :=
  tick_encode ;;; lift (encode model batch).

(** [embeddings[i]] *)
Definition row (embeddings : list vec) (i : nat) : M vec :=
  match nth_error embeddings i with
  | Some v => ret v
  | None => raise (IndexError "index out of range")
  end.

(** The last three statements of the [try] block of [score]. *)
Definition rescale (similarity : Q) : Q :=
  let score_value := py_round2 (similarity * 100) in
  py_max 0 (py_min 100 score_value).

Definition score_of (emb1 emb2 : vec) : M Q :=
  similarity <- lift (cos_sim emb1 emb2) ;;
  ret (rescale similarity).

(** The body of the [try] block of [SemanticModel.score]. *)
Definition score_body (job_text resume_text : pyval) : M Q :=
  fun w =>
    match SemanticModel_model w with
    | None => raise (RuntimeError "Semantic Model is not loaded.") w
    | Some model =>
        match job_text, resume_text with
        | PStr _, PStr _ =>
            (embeddings <- call_encode model [job_text; resume_text] ;;
             emb1 <- row embeddings 0 ;;
             emb2 <- row embeddings 1 ;;
             score_of emb1 emb2) w
        | PList jl, PList rl =>
            if negb (truthy job_text) || negb (truthy resume_text)
            then ret 0%Q w
            else
              (e1 <- call_encode model jl ;;
               let emb1 := tensor_mean e1 in
               e2 <- call_encode model rl ;;
               let emb2 := tensor_mean e2 in
               score_of emb1 emb2) w
        | _, _ => ret 0%Q w
        end
    end.

(** [SemanticModel.score]: both handlers print and return [0.0]. *)
Definition score (job_text resume_text : pyval) : M Q :=
  try_except (score_body job_text resume_text)
    (fun e =>
       match e with
       | RuntimeError _ =>
           print ("Semantic Model Internal Error: " ++ str e) ;;; ret 0%Q
       | _ =>
           print ("Scoring Error: " ++ str e) ;;; ret 0%Q
       end).

(* ------------------------------------------------------------------- *)
(** The singleton life cycle. *)

Definition read {A} (f : world -> A) : M A := fun w => (inr (f w), w).

Definition set_model (m : option (SentenceTransformer vec)) : M unit :=
  fun w => (inr tt,
            mkWorld (MODEL_NAME w) (SemanticModel_instance w) m
                    (encode_calls w) (oracle_calls w) (stdout w)).

Definition set_instance (i : option string) : M unit :=
  fun w => (inr tt,
            mkWorld (MODEL_NAME w) i (SemanticModel_model w)
                    (encode_calls w) (oracle_calls w) (stdout w)).

(** [SemanticModel.__init__] *)
Definition SemanticModel_init (model_name : string) : M unit :=
  inst <- read SemanticModel_instance ;;
  match inst with
  | Some _ =>
      raise (OtherException
               "This class is a Singleton! Use SemanticModel.get_instance() instead.")
  | None =>
      print ("Loading Sentence Transformer Model: " ++ model_name ++ "...") ;;;
      try_except
        (cuda <- lift cuda_is_available ;;
         let device := if (cuda : bool) then "cuda" else "cpu" in
         m <- lift (load_SentenceTransformer model_name device) ;;
         set_model (Some m) ;;;
         print ("Model loaded successfully on device: " ++ device))
        (fun e =>
           print ("Error loading model '" ++ model_name ++ "': " ++ str e) ;;;
           raise (RuntimeError
                    "Could not load Sentence Transformer model. Check model name and internet connection."))
  end.

(** [SemanticModel.get_instance] *)
Definition get_instance : M unit :=
  inst <- read SemanticModel_instance ;;
  match inst with
  | None =>
      model_name <- read MODEL_NAME ;;
      match model_name with
      | Some name =>
          if truthy (PStr name)
          then SemanticModel_init name ;;; set_instance (Some name)
          else raise (EnvironmentError
                        "MODEL_NAME environment variable is not set. Cannot initialize the scoring model.")
      | None =>
          raise (EnvironmentError
                   "MODEL_NAME environment variable is not set. Cannot initialize the scoring model.")
      end
  | Some _ => ret tt
  end.

(* =================================================================== *)
(** ** The generative-model clients

    Each client builds its chain (the model handle, the parser, the
    prompt) and invokes it once, all inside its [try] block.  The prompt
    texts are part of the chain and are not reproduced. *)

Definition invoke {T} (chain : Runnable T) (input : pydict) : M T :=
  tick_oracle ;;; lift (chain input).

(* ------------------------------------------------------------------- *)
(** *** models/extractor.py *)

Definition extract_all_skills (text : string) : M pydict :=
  if negb (truthy (PStr text)) || Nat.ltb (String.length text) 50
  then ret [("skill_sets", PList []);
            ("error", PStr "Resume text is too short for skill extraction.")]
  else
    try_except
      (chain <- lift skills_chain ;;
       result <- invoke chain [("text", PStr text)] ;;
       ret (CandidateSkills.model_dump result))
      (fun e =>
         print ("Error during AI skill extraction: " ++ str e) ;;;
         ret [("skill_sets", PList []);
              ("error", PStr ("AI extraction failed: " ++ str e))]).

Definition newline : string := String (ascii_of_nat 10) EmptyString.

Definition extract_text_from_pdf (f : blob) : M string :=
  try_except
    (pages <- lift (pdf_pages f) ;;
     let text :=
       fold_left
         (fun text page_text =>
            match page_text with
            | Some p => if truthy (PStr p) then text ++ p ++ newline else text
            | None => text
            end)
         pages EmptyString in
     ret (strip text))
    (fun e => print ("Error extracting text from PDF: " ++ str e) ;;; ret EmptyString).

Definition extract_text_from_docx (f : blob) : M string :=
  try_except
    (paras <- lift (docx_paragraphs f) ;;
     ret (String.concat newline
            (map strip (filter (fun p => truthy (PStr (strip p))) paras))))
    (fun e => print ("Error extracting text from DOCX: " ++ str e) ;;; ret EmptyString).

(* ------------------------------------------------------------------- *)
(** *** models/rewriter.py *)

Definition get_required_skills (job_description : string) : M pydict :=
  try_except
    (chain <- lift required_skills_chain ;;
     result <- invoke chain [("job_description", PStr job_description)] ;;
     ret (RequiredSkillsResponse.model_dump result))
    (fun e =>
       ret [("technical_skills", PList []); ("soft_skills", PList []);
            ("error", PStr ("Error generating skills: " ++ str e))]).

Definition get_content_score (text job_title : string) : M pydict :=
  try_except
    (chain <- lift content_score_chain ;;
     result <- invoke chain [("job_title", PStr job_title); ("text", PStr text)] ;;
     ret (ContentScoreResponse.model_dump result))
    (fun e =>
       ret [("score", PInt 0);
            ("reasoning", PStr ("Failed to analyze resume: " ++ str e));
            ("missing_keywords", PList []); ("improvement_tips", PList [])]).

Definition get_structure_score (text : string) : M pydict :=
  try_except
    (chain <- lift structure_score_chain ;;
     result <- invoke chain [("text", PStr text)] ;;
     ret (StructureScoreResponse.model_dump result))
    (fun e =>
       ret [("score", PInt 0);
            ("reasoning", PStr ("Error during structure scoring: " ++ str e))]).

Definition check_content (text : string) : M pydict :=
  try_except
    (chain <- lift check_content_chain ;;
     result <- invoke chain [("text", PStr text)] ;;
     ret (FeedbackResponse.model_dump result))
    (fun e =>
       ret [("key_points", PList [PStr ("Error checking content: " ++ str e)]);
            ("has_issues", PBool true)]).

Definition get_professional_summary_suggestions
    (score : pyval) (resume_text job_title : string) : M pydict :=
  try_except
    (chain <- lift summary_chain ;;
     result <- invoke chain [("score", score);
                             ("resume_text", PStr resume_text);
                             ("job_title", PStr job_title)] ;;
     ret (ProfessionalSummaryResponse.model_dump result))
    (fun e =>
       ret [("options", PList []);
            ("error", PStr ("Error generating summary: " ++ str e))]).

(* =================================================================== *)
(** ** app.py *)

Definition process_uploaded_file (upload : UploadFile blob) : M string :=
  if negb (endswith (filename upload) ".pdf" || endswith (filename upload) ".docx")
  then raise (HTTPException 400
                "Unsupported File Format. Please upload .docx or .pdf")
  else
    try_except
      (text <- (if endswith (filename upload) ".pdf"
                then extract_text_from_pdf (file upload)
                else extract_text_from_docx (file upload)) ;;
       if negb (truthy (PStr text)) || Nat.eqb (String.length (strip text)) 0
       then raise (HTTPException 400
                     "Could not extract text from file or file is empty.")
       else ret text)
      (fun e =>
         match e with
         | HTTPException _ _ => raise e
         | _ =>
             print ("File processing error: " ++ str e) ;;;
             raise (HTTPException 500 ("File processing error: " ++ str e))
         end).

(** [[index.get('skills', []) for index in entries
      if index.get('category') == tag]] *)
Fixpoint skills_with_category (tag : string) (entries : list pyval)
  : exn + list pyval :=
  match entries with
  | [] => inr []
  | PDict index :: rest =>
      if str_eq (get index "category" PNone) tag
      then match skills_with_category tag rest with
           | inr l => inr (get index "skills" (PList []) :: l)
           | inl e => inl e
           end
      else skills_with_category tag rest
  | _ :: _ => inl (AttributeError "object has no attribute 'get'")
  end.

(** Iterating over [res_skill.get('skill_sets', [])]. *)
Definition iterate (v : pyval) : exn + list pyval :=
  match v with
  | PList l => inr l
  | _ => inl (TypeError "object is not iterable")
  end.

(** [xs[0] if xs and xs[0] else []] *)
Definition first_or_empty (xs : list pyval) : pyval :=
  match xs with
  | x :: _ => if truthy x then x else PList []
  | [] => PList []
  end.

(** A score as an operand of [* 0.1]: an integer is converted to the
    nearest double, which raises [OverflowError] when there is none. *)
Definition as_float (v : pyval) : exn + Q :=
  match v with
  | PInt z =>
      if B64.int_overflows z
      then inl (OverflowError "int too large to convert to float")
      else inr (B64.round (inject_Z z))
  | PFloat q => inr q
  | PBool b => inr (if b then 1 else 0)%Q
  | _ => inl (TypeError "unsupported operand type(s) for *")
  end.

(** The candidate phrase list for one category tag (lines 106-110). *)
Definition candidate_phrases (tag : string) (res_skill : pydict) : M pyval :=
  entries <- lift (iterate (get res_skill "skill_sets" (PList []))) ;;
  res <- lift (skills_with_category tag entries) ;;
  ret (first_or_empty res).

(** Line 116, on floats. *)
Definition skill_match (tech_score soft_score : Q) : Q :=
  (B64.round 0.75 * tech_score + B64.round 0.25 * soft_score)%b64.

(** Line 127, on floats: the literals are the doubles nearest to 0.5, 0.3
    and 0.1, and the sum is taken from left to right. *)
Definition overall (ats_match_score skill_match_score content_score
                    structure_score : Q) : Z :=
  py_round ((ats_match_score * B64.round 0.5)
            + (skill_match_score * B64.round 0.3)
            + (content_score * B64.round 0.1)
            + (structure_score * B64.round 0.1))%b64.

(** The [try] block of the [/analyze_resume] handler.  The three values
    of [score] enter the arithmetic as the doubles nearest to them. *)
Definition analyze_resume_body (job_description job_title resume_text : string)
  : M JSONResponse :=
  get_instance ;;;
  res_skill <- extract_all_skills resume_text ;;
  req_skill <- get_required_skills job_description ;;
  let req_tech_skill := get req_skill "technical_skills" (PList []) in
  let req_soft_skill := get req_skill "soft_skills" (PList []) in
  tech_input <- candidate_phrases "TECHNICAL" res_skill ;;
  soft_input <- candidate_phrases "SOFT" res_skill ;;
  tech_score <- score req_tech_skill tech_input ;;
  soft_score <- score req_soft_skill soft_input ;;
  let skill_match_score :=
    skill_match (B64.round tech_score) (B64.round soft_score) in
  ats_match_score <- score (PStr job_description) (PStr resume_text) ;;
  content_analysis <- get_content_score resume_text job_title ;;
  structure_analysis <- get_structure_score resume_text ;;
  let content_score := get content_analysis "score" (PInt 0) in
  let structure_score := get structure_analysis "score" (PInt 0) in
  content_value <- lift (as_float content_score) ;;
  structure_value <- lift (as_float structure_score) ;;
  let overall_score :=
    overall (B64.round ats_match_score) skill_match_score
            content_value structure_value in
  improvements <-
    get_professional_summary_suggestions
      (PInt (py_round (inject_Z overall_score))) resume_text job_title ;;
  ret {| status_code := 200;
         content :=
           [("success", PBool true);
            ("overall_score", PInt overall_score);
            ("scores",
             PDict [("ats_compatibility_score",
                     PInt (py_round (B64.round ats_match_score)));
                    ("skill_match_score", PInt (py_round skill_match_score));
                    ("content_quality_score", content_score);
                    ("structure_score", structure_score)]);
            ("improvements_suggestion", PDict improvements)] |}.

(** The handler, with [resume_text] already resolved.  The two
    [isinstance(..., dict)] tests of lines 123-124 always succeed, both
    clients returning dictionaries on every path. *)
Definition analyze_resume (job_description job_title resume_text : string)
  : M JSONResponse :=
  try_except (analyze_resume_body job_description job_title resume_text)
    (fun e =>
       print ("Error in analyze_resume: " ++ str e) ;;;
       raise (HTTPException 500
                ("Internal server error during analysis: " ++ str e))).

(** A request to [POST /analyze_resume]: the framework resolves the
    [Depends(process_uploaded_file)] parameter first and calls the handler
    only when that returned. *)
Definition post_analyze_resume (job_description job_title : string)
                               (upload : UploadFile blob) : M JSONResponse :=
  resume_text <- process_uploaded_file upload ;;
  analyze_resume job_description job_title resume_text.

End Pipeline.

Arguments mkWorld {E} _ _ _ _ _ _.

(* ===================================================================== *)
(** ** A small concrete instance

    One-dimensional embeddings: a text is embedded as its length, a list of
    phrases as the (integer) mean of its rows, and two embeddings are at
    similarity 1 when equal and 1/2 otherwise.  The generative model
    answers with fixed values. *)

Module Sample.

Definition model : SentenceTransformer nat :=
  {| encode := fun batch =>
       inr (map (fun v => match v with
                          | PStr s => String.length s
                          | _ => O
                          end) batch) |}.

(** An encoder that fails on every batch. *)
Definition broken_model : SentenceTransformer nat :=
  {| encode := fun _ => inl (OtherException "CUDA out of memory") |}.

Definition mean (rows : list nat) : nat :=
  Nat.div (fold_right Nat.add O rows) (List.length rows).

Definition resume : string :=
  "Python developer with 5 years experience in backend systems".

Definition env : Ext.t :=
  {| Ext.vec := nat;
     Ext.tensor_mean := mean;
     Ext.cos_sim := fun u v => inr (if Nat.eqb u v then 1 else 1 # 2)%Q;
     Ext.cuda_is_available := inr false;
     Ext.load_SentenceTransformer := fun _ _ => inr model;
     Ext.blob := string;
     Ext.pdf_pages := fun b => inr [Some b];
     Ext.docx_paragraphs := fun b => inr [b];
     Ext.skills_chain :=
       inr (fun _ =>
              inr {| CandidateSkills.skill_sets :=
                       [ {| SkillCategory.category := "TECHNICAL";
                            SkillCategory.skills := ["Python"; "SQL"] |} ] |});
     Ext.required_skills_chain :=
       inr (fun _ =>
              inr {| RequiredSkillsResponse.technical_skills := ["SQL"; "Python"];
                     RequiredSkillsResponse.soft_skills := ["communication"] |});
     Ext.content_score_chain :=
       inr (fun _ =>
              inr {| ContentScoreResponse.score := 80;
                     ContentScoreResponse.reasoning := "clear";
                     ContentScoreResponse.missing_keywords := [];
                     ContentScoreResponse.improvement_tips := [] |});
     Ext.structure_score_chain :=
       inr (fun _ =>
              inr {| StructureScoreResponse.score := 80;
                     StructureScoreResponse.reasoning := "ordered" |});
     Ext.check_content_chain :=
       inr (fun _ =>
              inr {| FeedbackResponse.key_points := [];
                     FeedbackResponse.has_issues := false |});
     Ext.summary_chain :=
       inr (fun _ =>
              inr {| ProfessionalSummaryResponse.key_points := ["Add metrics"] |})
  |}.

(** The same collaborators with a generative model that is unreachable. *)
Definition env_down : Ext.t :=
  {| Ext.vec := nat;
     Ext.tensor_mean := mean;
     Ext.cos_sim := Ext.cos_sim env;
     Ext.cuda_is_available := inr false;
     Ext.load_SentenceTransformer := fun _ _ => inr model;
     Ext.blob := string;
     Ext.pdf_pages := fun b => inr [Some b];
     Ext.docx_paragraphs := fun b => inr [b];
     Ext.skills_chain := inl (OtherException "503 Service Unavailable");
     Ext.required_skills_chain := inl (OtherException "503 Service Unavailable");
     Ext.content_score_chain := inl (OtherException "503 Service Unavailable");
     Ext.structure_score_chain := inl (OtherException "503 Service Unavailable");
     Ext.check_content_chain := inl (OtherException "503 Service Unavailable");
     Ext.summary_chain := inl (OtherException "503 Service Unavailable")
  |}.



(** A process after start-up, and one whose model handle is missing. *)
Definition started : world env :=
  @mkWorld env (Some "all-MiniLM-L6-v2") (Some "all-MiniLM-L6-v2") (Some model)
          O O [].

Definition started_down : world env_down :=
  @mkWorld env_down (Some "all-MiniLM-L6-v2") (Some "all-MiniLM-L6-v2") (Some model)
          O O [].


Definition unloaded : world env :=
  @mkWorld env (Some "all-MiniLM-L6-v2") None None O O [].

Definition broken : world env :=
  @mkWorld env (Some "all-MiniLM-L6-v2") (Some "all-MiniLM-L6-v2")
          (Some broken_model) O O [].

End Sample.

(* ===================================================================== *)
(** ** Reference definitions for the statements *)

(** The phrase list for a category tag in the words of the specification:
    the skills of the first entry whose category is exactly the tag, and
    the empty list when no entry bears it. *)
Fixpoint spec_phrase_list (tag : string) (sets : list SkillCategory.t)
  : list string :=
  match sets with
  | [] => []
  | entry :: rest =>
      if String.eqb (SkillCategory.category entry) tag
      then SkillCategory.skills entry
      else spec_phrase_list tag rest
  end.

(** The local variables of one run of the [/analyze_resume] handler,
    under the names the source gives them. *)
Record locals : Type := {
  tech_input : pyval;
  soft_input : pyval;
  tech_score : Q;
  soft_score : Q;
  ats_match_score : Q;
  content_score : pyval;
  structure_score : pyval
}.

Section Runs.

Variable E : Ext.t.

(** [runs jd jt rt w0 l w7]: started in [w0] (after [get_instance]), the
    handler's calls up to [get_structure_score] return the values [l] and
    leave the process in [w7]. *)
Inductive runs (job_description job_title resume_text : string)
          (w0 : world E) : locals -> world E -> Prop :=
| runs_intro res_skill w1 req_skill w2 t_in s_in tech w3 soft w4 ats w5
             content_analysis w6 structure_analysis w7 :
    extract_all_skills E resume_text w0 = (inr res_skill, w1) ->
    get_required_skills E job_description w1 = (inr req_skill, w2) ->
    candidate_phrases E "TECHNICAL" res_skill w2 = (inr t_in, w2) ->
    candidate_phrases E "SOFT" res_skill w2 = (inr s_in, w2) ->
    score E (get req_skill "technical_skills" (PList [])) t_in w2
      = (inr tech, w3) ->
    score E (get req_skill "soft_skills" (PList [])) s_in w3
      = (inr soft, w4) ->
    score E (PStr job_description) (PStr resume_text) w4 = (inr ats, w5) ->
    get_content_score E resume_text job_title w5
      = (inr content_analysis, w6) ->
    get_structure_score E resume_text w6 = (inr structure_analysis, w7) ->
    runs job_description job_title resume_text w0
         {| tech_input := t_in; soft_input := s_in;
            tech_score := tech; soft_score := soft;
            ats_match_score := ats;
            content_score := get content_analysis "score" (PInt 0);
            structure_score := get structure_analysis "score" (PInt 0) |}
         w7.

End Runs.

(* ===================================================================== *)
(** ** The remaining endpoints and clients *)

Module SkillOptimizationResponse.
Record t : Type := { skills_to_add : list string }.
Definition schema : schema := [("skills_to_add", TList TStr)].
Definition model_dump (x : t) : pydict :=
  [("skills_to_add", strs (skills_to_add x))].
End SkillOptimizationResponse.

Section Service.

Variable E : Ext.t.

Local Notation "x <- m ;; k" := (bind E m (fun x => k))
  (at level 61, m at next level, right associativity).
Local Notation "m ;;; k" := (bind E m (fun _ => k))
  (at level 61, right associativity).

(** [lifespan], up to its [yield]: what runs before the first request. *)
Definition lifespan_startup : M E unit :=
  print E "🚀 App is starting up..." ;;;
  print E "📦 Loading semantic model..." ;;;
  try_except E
    (get_instance E ;;;
     print E "✅ Semantic Model loaded successfully!")
    (fun e =>
       print E ("❌ Failed to load semantic model: " ++ str e) ;;;
       raise E (RuntimeError
                  "Critical startup error: Semantic model failed to load.")).

(** [lifespan], after its [yield]. *)
Definition lifespan_shutdown : M E unit :=
  print E "🛑 App is shutting down...".

(** [GET /] *)
Definition start : pydict :=
  [("message", PStr "AI Resume Analyzer API is running successfully")].

(** [GET /health]; the bare [except:] takes whatever was raised. *)
Definition health_check : M E pydict :=
  model_ready <- try_except E (get_instance E ;;; ret E true)
                              (fun _ => ret E false) ;;
  ret E [("status", PStr "healthy");
         ("model_ready", PBool model_ready);
         ("message", PStr "Service is running")].

(** The handler of [POST /optimize_content_feedback]. *)
Definition get_content_feedback_endpoint (resume_text : string)
  : M E JSONResponse :=
  try_except E
    (feedback <- check_content E resume_text ;;
     ret E {| status_code := 200;
              content := [("success", PBool true);
                          ("content_feedback", PDict feedback)] |})
    (fun e =>
       print E ("Error in optimize_content_feedback: " ++ str e) ;;;
       raise E (HTTPException 500 ("Internal server error: " ++ str e))).

Definition post_optimize_content_feedback (upload : UploadFile (Ext.blob E))
  : M E JSONResponse :=
  resume_text <- process_uploaded_file E upload ;;
  get_content_feedback_endpoint resume_text.

End Service.

(** The chains of the three clients that only the feedback endpoints use. *)
Module FeedbackExt.
Record t : Type := {
  base : Ext.t;
  skill_optimization_chain : exn + Runnable SkillOptimizationResponse.t;
  optimize_structure_chain : exn + Runnable FeedbackResponse.t;
  tone_and_style_chain : exn + Runnable FeedbackResponse.t
}.
End FeedbackExt.

Section Feedback.

Variable F : FeedbackExt.t.

Local Abbreviation E := (FeedbackExt.base F).

Local Notation "x <- m ;; k" := (bind E m (fun x => k))
  (at level 61, m at next level, right associativity).
Local Notation "m ;;; k" := (bind E m (fun _ => k))
  (at level 61, right associativity).

Definition optimize_skills_section (current_skills job_requirements : pydict)
                                   (job_title : string) : M E pydict :=
  try_except E
    (chain <- lift E (FeedbackExt.skill_optimization_chain F) ;;
     result <- invoke E chain [("current_skills", PDict current_skills);
                               ("job_requirements", PDict job_requirements);
                               ("job_title", PStr job_title)] ;;
     ret E (SkillOptimizationResponse.model_dump result))
    (fun e =>
       ret E [("skills_to_add", PList []);
              ("error", PStr ("Error optimizing skills: " ++ str e))]).

Definition optimize_structure (resume_text : string) : M E pydict :=
  try_except E
    (chain <- lift E (FeedbackExt.optimize_structure_chain F) ;;
     result <- invoke E chain [("resume_text", PStr resume_text)] ;;
     ret E (FeedbackResponse.model_dump result))
    (fun e =>
       ret E [("key_points",
               PList [PStr ("Error optimizing structure: " ++ str e)]);
              ("has_issues", PBool true)]).

Definition check_tone_and_style (text : string) : M E pydict :=
  try_except E
    (chain <- lift E (FeedbackExt.tone_and_style_chain F) ;;
     result <- invoke E chain [("text", PStr text)] ;;
     ret E (FeedbackResponse.model_dump result))
    (fun e =>
       ret E [("key_points",
               PList [PStr ("Error checking tone/style: " ++ str e)]);
              ("has_issues", PBool true)]).

(** The handler of [POST /optimize-skills]. *)
Definition optimize_skills_endpoint
    (job_description job_title resume_text : string) : M E JSONResponse :=
  try_except E
    (resume_skills_raw <- extract_all_skills E resume_text ;;
     req_skills_data <- get_required_skills E job_description ;;
     skills_details <-
       optimize_skills_section resume_skills_raw req_skills_data job_title ;;
     ret E {| status_code := 200;
              content := [("success", PBool true);
                          ("skills_optimization", PDict skills_details)] |})
    (fun e =>
       print E ("Error in optimize-skills: " ++ str e) ;;;
       raise E (HTTPException 500 ("Internal server error: " ++ str e))).

(** The handler of [POST /optimize_structure_feedback]. *)
Definition get_structure_feedback_endpoint (resume_text : string)
  : M E JSONResponse :=
  try_except E
    (feedback <- optimize_structure resume_text ;;
     ret E {| status_code := 200;
              content := [("success", PBool true);
                          ("structure_feedback", PDict feedback)] |})
    (fun e =>
       print E ("Error in optimize_structure_feedback: " ++ str e) ;;;
       raise E (HTTPException 500 ("Internal server error: " ++ str e))).

(** The handler of [POST /optimize_tone_style_feedback]. *)
Definition get_tone_style_feedback_endpoint (resume_text : string)
  : M E JSONResponse :=
  try_except E
    (feedback <- check_tone_and_style resume_text ;;
     ret E {| status_code := 200;
              content := [("success", PBool true);
                          ("tone_style_feedback", PDict feedback)] |})
    (fun e =>
       print E ("Error in optimize_tone_style_feedback: " ++ str e) ;;;
       raise E (HTTPException 500 ("Internal server error: " ++ str e))).

(** The three routes with their [Depends(process_uploaded_file)]. *)
Definition post_optimize_skills (job_description job_title : string)
    (upload : UploadFile (Ext.blob E)) : M E JSONResponse :=
  resume_text <- process_uploaded_file E upload ;;
  optimize_skills_endpoint job_description job_title resume_text.

Definition post_optimize_structure_feedback (upload : UploadFile (Ext.blob E))
  : M E JSONResponse :=
  resume_text <- process_uploaded_file E upload ;;
  get_structure_feedback_endpoint resume_text.

Definition post_optimize_tone_style_feedback (upload : UploadFile (Ext.blob E))
  : M E JSONResponse :=
  resume_text <- process_uploaded_file E upload ;;
  get_tone_style_feedback_endpoint resume_text.

End Feedback.

(** The sample instance with the three further chains: one that answers,
    one that cannot be built, one that raises when invoked. *)
Definition sample_feedback : FeedbackExt.t :=
  {| FeedbackExt.base := Sample.env;
     FeedbackExt.skill_optimization_chain :=
       inr (fun _ =>
              inr {| SkillOptimizationResponse.skills_to_add := ["Docker"] |});
     FeedbackExt.optimize_structure_chain :=
       inl (OtherException "API key not valid");
     FeedbackExt.tone_and_style_chain :=
       inr (fun _ => inl (OtherException "deadline exceeded")) |}.

(* ===================================================================== *)
(** ** What a call may change

    [within de dq w w']: from [w] to [w'] the environment and the singleton
    are the same, at most [de] calls went to the encoder and at most [dq]
    to the generative model, and standard output was only appended to. *)

Definition within {E : Ext.t} (de dq : nat) (w w' : world E) : Prop :=
  MODEL_NAME E w' = MODEL_NAME E w
  /\ SemanticModel_instance E w' = SemanticModel_instance E w
  /\ SemanticModel_model E w' = SemanticModel_model E w
  /\ (encode_calls E w <= encode_calls E w' <= encode_calls E w + de)%nat
  /\ (oracle_calls E w <= oracle_calls E w' <= oracle_calls E w + dq)%nat
  /\ exists lines, stdout E w' = (stdout E w ++ lines)%list.

(** [isinstance(v, str)] and [isinstance(v, list)] *)
Definition is_str (v : pyval) : bool :=
  match v with PStr _ => true | _ => false end.

Definition is_list (v : pyval) : bool :=
  match v with PList _ => true | _ => false end.

(** Whether building the chain or invoking it on [input] raises. *)
Definition chain_raises {T} (c : exn + Runnable T) (input : pydict)
  : option exn :=
  match c with
  | inl e => Some e
  | inr chain => match chain input with
                 | inl e => Some e
                 | inr _ => None
                 end
  end.


(* ===================================================================== *)
(** * Properties *)

(** ** Rounding and clamping *)

Section Rounding.

Local Open Scope Z_scope.

Lemma py_round_cases (x : Q) :
  let d := Zpos (Qden x) in
  let n := Qnum x in
  py_round x = n / d \/ py_round x = n / d + 1.
Proof.
  unfold py_round; cbv zeta.
  destruct (2 * (Qnum x mod Zpos (Qden x)) <? Zpos (Qden x)); [now left|].
  destruct (Zpos (Qden x) <? 2 * (Qnum x mod Zpos (Qden x))); [now right|].
  destruct (Z.even (Qnum x / Zpos (Qden x))); [now left|now right].
Qed.

(** An integer below the argument stays below its rounding. *)
Lemma py_round_lower (x : Q) (k : Z) :
  (inject_Z k <= x)%Q -> k <= py_round x.
Proof.
  intros H. unfold Qle in H; simpl in H.
  assert (Hfl : k <= Qnum x / Zpos (Qden x)).
  { apply Z.div_le_lower_bound; lia. }
  destruct (py_round_cases x) as [-> | ->]; lia.
Qed.

(** An integer above the argument stays above its rounding. *)
Lemma py_round_upper (x : Q) (k : Z) :
  (x <= inject_Z k)%Q -> py_round x <= k.
Proof.
  intros H. unfold Qle in H; simpl in H.
  set (d := Zpos (Qden x)) in *. set (n := Qnum x) in *.
  assert (Hd : 0 < d) by (subst d; lia).
  pose proof (Z.div_mod n d ltac:(lia)) as Hdm.
  pose proof (Z.mod_pos_bound n d Hd) as Hr.
  destruct (Z_lt_le_dec (n / d) k) as [Hlt | Hge].
  - destruct (py_round_cases x) as [-> | ->]; fold d n; lia.
  - assert (Hfl : n / d = k) by nia.
    assert (Hr0 : n mod d = 0) by nia.
    unfold py_round; cbv zeta; fold d n.
    rewrite Hr0, Hfl.
    replace (2 * 0 <? d) with true by (symmetry; apply Z.ltb_lt; lia).
    lia.
Qed.

(** Division by the constant 100 as a product, the form [lra] decides. *)
Ltac div100 :=
  unfold Qdiv in *; change (/ 100)%Q with (1 # 100)%Q in *.


Lemma py_round2_upper (x : Q) (k : Z) :
  (x <= inject_Z k / 100)%Q -> (py_round2 x <= inject_Z k / 100)%Q.
Proof.
  intros H. unfold py_round2.
  assert (Hk : py_round (x * 100) <= k) by (apply py_round_upper; div100; lra).
  rewrite Zle_Qle in Hk. div100; lra.
Qed.

Lemma py_min_le_l (a b : Q) : (py_min a b <= a)%Q.
Proof.
  unfold py_min. destruct (Qle_bool a b) eqn:H; [lra|].
  assert (~ (a <= b)%Q) by (rewrite <- Qle_bool_iff; congruence). lra.
Qed.

Lemma py_min_glb (a b c : Q) : (c <= a)%Q -> (c <= b)%Q -> (c <= py_min a b)%Q.
Proof. unfold py_min. now destruct (Qle_bool a b). Qed.

Lemma py_max_ge_l (a b : Q) : (a <= py_max a b)%Q.
Proof.
  unfold py_max. destruct (Qle_bool b a) eqn:H; [lra|].
  assert (~ (b <= a)%Q) by (rewrite <- Qle_bool_iff; congruence). lra.
Qed.

Lemma py_max_ge_r (a b : Q) : (b <= py_max a b)%Q.
Proof.
  unfold py_max. destruct (Qle_bool b a) eqn:H; [|lra].
  now apply Qle_bool_iff.
Qed.

Lemma py_max_lub (a b c : Q) : (a <= c)%Q -> (b <= c)%Q -> (py_max a b <= c)%Q.
Proof. unfold py_max. now destruct (Qle_bool b a). Qed.

Lemma rescale_range (s : Q) : (0 <= rescale s <= 100)%Q.
Proof.
  unfold rescale; cbv zeta. split.
  - apply py_max_ge_l.
  - apply py_max_lub; [lra | apply py_min_le_l].
Qed.

(** A negative similarity is floored at the literal [0.0]. *)
Lemma rescale_negative (s : Q) : (s < 0)%Q -> rescale s = 0%Q.
Proof.
  intros Hs. unfold rescale; cbv zeta.
  assert (H0 : (py_round2 (s * 100) <= inject_Z 0 / 100)%Q).
  { apply py_round2_upper. change (inject_Z 0) with 0%Q. div100. lra. }
  change (inject_Z 0) with 0%Q in H0.
  assert (Hm : (py_min 100 (py_round2 (s * 100)) <= 0)%Q).
  { unfold py_min. destruct (Qle_bool 100 (py_round2 (s * 100))) eqn:Hb.
    - apply Qle_bool_iff in Hb. div100. lra.
    - div100. lra. }
  unfold py_max. apply Qle_bool_iff in Hm. now rewrite Hm.
Qed.


End Rounding.

(** ** Rounding to an integer, continued *)

Section Arithmetic.

Local Open Scope Z_scope.

Lemma py_round_mono (x y : Q) : (x <= y)%Q -> py_round x <= py_round y.
Proof.
  intros H. unfold Qle in H.
  destruct x as [n1 p1], y as [n2 p2]. cbn [Qnum Qden] in H.
  unfold py_round; cbn [Qnum Qden].
  set (d1 := Zpos p1) in *. set (d2 := Zpos p2) in *.
  assert (Hd1 : 0 < d1) by (subst d1; lia).
  assert (Hd2 : 0 < d2) by (subst d2; lia).
  pose proof (Z.div_mod n1 d1 ltac:(lia)) as E1.
  pose proof (Z.div_mod n2 d2 ltac:(lia)) as E2.
  pose proof (Z.mod_pos_bound n1 d1 Hd1) as B1.
  pose proof (Z.mod_pos_bound n2 d2 Hd2) as B2.
  set (f1 := n1 / d1) in *. set (f2 := n2 / d2) in *.
  set (r1 := n1 mod d1) in *. set (r2 := n2 mod d2) in *.
  assert (Hf : f1 <= f2).
  { destruct (Z_lt_le_dec f2 f1) as [Hlt|]; [|assumption]. exfalso.
    assert (H1 : d1 * d2 * (f2 + 1) <= d1 * d2 * f1)
      by (apply Z.mul_le_mono_nonneg_l; nia).
    assert (H2 : r2 * d1 < d2 * d1)
      by (apply Z.mul_lt_mono_pos_r; lia).
    assert (H3 : 0 <= r1 * d2) by nia.
    rewrite E1, E2 in H. lia. }
  destruct (Z.eq_dec f1 f2) as [Heq | Hne].
  - rewrite <- Heq in *.
    assert (Hr : r1 * d2 <= r2 * d1) by (rewrite E1, E2 in H; lia).
    destruct (Z.ltb_spec (2 * r1) d1), (Z.ltb_spec d1 (2 * r1)),
             (Z.ltb_spec (2 * r2) d2), (Z.ltb_spec d2 (2 * r2));
      destruct (Z.even f1); try lia; exfalso; nia.
  - assert (Hlt : f1 + 1 <= f2) by lia.
    destruct (2 * r1 <? d1), (d1 <? 2 * r1), (2 * r2 <? d2), (d2 <? 2 * r2),
             (Z.even f1), (Z.even f2); lia.
Qed.

(** Equal rationals round alike, whatever fraction represents them. *)
Lemma py_round_Qeq (x y : Q) : (x == y)%Q -> py_round x = py_round y.
Proof.
  intros H. apply Z.le_antisymm; apply py_round_mono; rewrite H; apply Qle_refl.
Qed.


(** Rounding an integer again changes nothing (line 128 rounds the
    already rounded overall score once more). *)
Lemma py_round_inject_Z (z : Z) : py_round (inject_Z z) = z.
Proof.
  unfold py_round, inject_Z; cbn [Qnum Qden].
  rewrite Z.mod_1_r, Z.div_1_r. reflexivity.
Qed.

End Arithmetic.

(** ** Binary64 rounding *)

Section Binary64.

Import B64.
Local Open Scope Q_scope.

Lemma pow2_pos e : 0 < pow2 e.
Proof. apply Qpower_0_lt. reflexivity. Qed.

Lemma pow2_le a b : (a <= b)%Z -> pow2 a <= pow2 b.
Proof. intros H. apply Qpower_le_compat_l; [exact H | discriminate]. Qed.

Lemma pow2_lt a b : (a < b)%Z -> pow2 a < pow2 b.
Proof. intros H. apply Qpower_lt_compat_l; [exact H | reflexivity]. Qed.

Lemma pow2_lt_inv a b : pow2 a < pow2 b -> (a < b)%Z.
Proof. intros H. eapply Qpower_lt_compat_l_inv; [exact H | reflexivity]. Qed.

Lemma pow2_plus a b : pow2 (a + b) == pow2 a * pow2 b.
Proof. apply Qpower_plus. discriminate. Qed.

Lemma pow2_Z a : (0 <= a)%Z -> pow2 a == inject_Z (2 ^ a).
Proof. intros H. unfold pow2. now rewrite (Zpower_Qpower 2 a H). Qed.

Lemma Qnum_pos q : 0 < q <-> (0 < Qnum q)%Z.
Proof. unfold Qlt; simpl. lia. Qed.

Lemma ilog2_spec q : 0 < q -> pow2 (ilog2 q) <= q /\ q < pow2 (ilog2 q + 1).
Proof.
  intros Hq. pose proof (proj1 (Qnum_pos q) Hq) as Hn.
  unfold ilog2.
  set (a := Z.log2 (Qnum q)). set (b := Z.log2 (Zpos (Qden q))).
  pose proof (Z.log2_spec (Qnum q) Hn) as [Ha1 Ha2]. fold a in Ha1, Ha2.
  pose proof (Z.log2_spec (Zpos (Qden q)) ltac:(lia)) as [Hb1 Hb2].
  fold b in Hb1, Hb2.
  assert (Ha0 : (0 <= a)%Z) by apply Z.log2_nonneg.
  assert (Hb0 : (0 <= b)%Z) by apply Z.log2_nonneg.
  assert (Hqd : q * inject_Z (Zpos (Qden q)) == inject_Z (Qnum q)).
  { destruct q as [n d]. unfold Qeq, Qmult, inject_Z; simpl. lia. }
  set (D := inject_Z (Zpos (Qden q))) in *. set (N := inject_Z (Qnum q)) in *.
  assert (HD1 : pow2 b <= D).
  { rewrite (pow2_Z b Hb0). unfold D. now rewrite <- Zle_Qle. }
  assert (HD2 : D < pow2 (b + 1)).
  { rewrite (pow2_Z (b + 1) ltac:(lia)). unfold D. rewrite <- Zlt_Qlt.
    replace (b + 1)%Z with (Z.succ b) by lia. exact Hb2. }
  assert (HN1 : pow2 a <= N).
  { rewrite (pow2_Z a Ha0). unfold N. now rewrite <- Zle_Qle. }
  assert (HN2 : N < pow2 (a + 1)).
  { rewrite (pow2_Z (a + 1) ltac:(lia)). unfold N. rewrite <- Zlt_Qlt.
    replace (a + 1)%Z with (Z.succ a) by lia. exact Ha2. }
  assert (HDpos : 0 < D) by (pose proof (pow2_pos b); lra).
  (* q < pow2 (a - b + 1) *)
  assert (Hup : q < pow2 (a - b + 1)).
  { apply (Qmult_lt_r _ _ D HDpos). rewrite Hqd.
    eapply Qlt_le_trans; [exact HN2|].
    replace (a + 1)%Z with ((a - b + 1) + b)%Z by lia.
    rewrite pow2_plus. apply Qmult_le_l; [apply pow2_pos | exact HD1]. }
  assert (Hlo : pow2 (a - b - 1) < q).
  { apply (Qmult_lt_r _ _ D HDpos). rewrite Hqd.
    eapply Qlt_le_trans; [|exact HN1].
    replace a with ((a - b - 1) + (b + 1))%Z at 2 by lia.
    rewrite pow2_plus. apply Qmult_lt_l; [apply pow2_pos | exact HD2]. }
  destruct (Qle_bool (pow2 (a - b)) q) eqn:Ht.
  - apply Qle_bool_iff in Ht. split; assumption.
  - assert (Hnt : ~ pow2 (a - b) <= q)
      by (rewrite <- Qle_bool_iff; congruence).
    split; [apply Qlt_le_weak; exact Hlo|].
    replace (a - b - 1 + 1)%Z with (a - b)%Z by lia. lra.
Qed.

Lemma ilog2_unique q l :
  0 < q -> pow2 l <= q -> q < pow2 (l + 1) -> ilog2 q = l.
Proof.
  intros Hq Hl Hu. destruct (ilog2_spec q Hq) as [Hl' Hu'].
  assert (H1 : (l < ilog2 q + 1)%Z)
    by (apply pow2_lt_inv; lra).
  assert (H2 : (ilog2 q < l + 1)%Z)
    by (apply pow2_lt_inv; lra).
  lia.
Qed.

Lemma ilog2_mono x y : 0 < x -> x <= y -> (ilog2 x <= ilog2 y)%Z.
Proof.
  intros Hx Hxy. assert (Hy : 0 < y) by lra.
  destruct (ilog2_spec x Hx) as [Hl _].
  destruct (ilog2_spec y Hy) as [_ Hu].
  assert (H : (ilog2 x < ilog2 y + 1)%Z) by (apply pow2_lt_inv; lra).
  lia.
Qed.

Lemma expo_ge q : (ilog2 q - 52 <= expo q)%Z.
Proof. unfold expo. lia. Qed.

Lemma expo_mono x y : 0 < x -> x <= y -> (expo x <= expo y)%Z.
Proof.
  intros Hx Hxy. pose proof (ilog2_mono x y Hx Hxy). unfold expo. lia.
Qed.

Lemma scaled_upper q : 0 < q -> q / pow2 (expo q) <= pow2 53.
Proof.
  intros Hq. destruct (ilog2_spec q Hq) as [_ Hu].
  apply Qle_shift_div_r; [apply pow2_pos|].
  rewrite <- pow2_plus.
  apply Qlt_le_weak. eapply Qlt_le_trans; [exact Hu|].
  apply pow2_le. pose proof (expo_ge q). lia.
Qed.

Lemma round_pos_upper q : 0 < q -> round_pos q <= pow2 (expo q + 53).
Proof.
  intros Hq. unfold round_pos; cbv zeta.
  assert (H : (py_round (q / pow2 (expo q)) <= 2 ^ 53)%Z).
  { apply py_round_upper. rewrite <- (pow2_Z 53) by lia.
    now apply scaled_upper. }
  rewrite Zle_Qle in H. rewrite <- (pow2_Z 53) in H by lia.
  rewrite (Z.add_comm (expo q) 53), pow2_plus.
  apply Qmult_le_compat_r; [exact H | apply Qlt_le_weak, pow2_pos].
Qed.

Lemma round_pos_lower q :
  0 < q -> (expo q = ilog2 q - 52)%Z -> pow2 (expo q + 52) <= round_pos q.
Proof.
  intros Hq He. destruct (ilog2_spec q Hq) as [Hl _].
  unfold round_pos; cbv zeta.
  assert (H : (2 ^ 52 <= py_round (q / pow2 (expo q)))%Z).
  { apply py_round_lower. rewrite <- (pow2_Z 52) by lia.
    apply Qle_shift_div_l; [apply pow2_pos|].
    rewrite <- pow2_plus.
    replace (52 + expo q)%Z with (ilog2 q) by lia. exact Hl. }
  rewrite Zle_Qle in H. rewrite <- (pow2_Z 52) in H by lia.
  rewrite (Z.add_comm (expo q) 52), pow2_plus.
  apply Qmult_le_compat_r; [exact H | apply Qlt_le_weak, pow2_pos].
Qed.

Lemma round_pos_nonneg q : 0 <= q -> 0 <= round_pos q.
Proof.
  intros Hq. unfold round_pos; cbv zeta.
  assert (H : (0 <= py_round (q / pow2 (expo q)))%Z).
  { apply py_round_lower. change (inject_Z 0) with 0.
    apply Qle_shift_div_l; [apply pow2_pos|]. lra. }
  rewrite Zle_Qle in H. change (inject_Z 0) with 0 in H.
  pose proof (pow2_pos (expo q)).
  apply Qmult_le_0_compat; lra.
Qed.

Lemma round_pos_mono x y : 0 < x -> x <= y -> round_pos x <= round_pos y.
Proof.
  intros Hx Hxy. assert (Hy : 0 < y) by lra.
  pose proof (expo_mono x y Hx Hxy) as He.
  destruct (Z.eq_dec (expo x) (expo y)) as [Heq | Hne].
  - unfold round_pos; cbv zeta. rewrite Heq.
    apply Qmult_le_compat_r; [|apply Qlt_le_weak, pow2_pos].
    rewrite <- Zle_Qle. apply py_round_mono.
    apply Qle_shift_div_l; [apply pow2_pos|].
    unfold Qdiv. rewrite <- Qmult_assoc, (Qmult_comm (/ _)), Qmult_inv_r, Qmult_1_r;
      [exact Hxy|].
    pose proof (pow2_pos (expo y)). lra.
  - assert (Hn : (expo y = ilog2 y - 52)%Z) by (unfold expo in *; lia).
    eapply Qle_trans; [apply round_pos_upper; exact Hx|].
    eapply Qle_trans; [|apply round_pos_lower; assumption].
    apply pow2_le. lia.
Qed.

Lemma round_mono x y : x <= y -> round x <= round y.
Proof.
  destruct x as [nx dx], y as [ny dy]. intros H.
  unfold round; cbn [Qnum].
  destruct nx as [|px|px], ny as [|py|py];
    try (exfalso; unfold Qle in H; cbn in H; lia).
  - apply Qle_refl.
  - apply round_pos_nonneg. unfold Qle; cbn; lia.
  - now apply round_pos_mono.
  - assert (0 <= round_pos (- (Z.neg px # dx))) by
      (apply round_pos_nonneg; unfold Qle; cbn; lia). lra.
  - assert (0 <= round_pos (- (Z.neg px # dx))) by
      (apply round_pos_nonneg; unfold Qle; cbn; lia).
    assert (0 <= round_pos (Z.pos py # dy)) by
      (apply round_pos_nonneg; unfold Qle; cbn; lia). lra.
  - assert (round_pos (- (Z.neg py # dy)) <= round_pos (- (Z.neg px # dx))).
    { apply round_pos_mono; [reflexivity|]. lra. }
    lra.
Qed.

Lemma round_Qeq x y : x == y -> round x == round y.
Proof.
  intros H. apply Qle_antisym; apply round_mono; rewrite H; apply Qle_refl.
Qed.

Lemma add_mono a a' b b' : a <= a' -> b <= b' -> add a b <= add a' b'.
Proof. intros Ha Hb. apply round_mono. lra. Qed.

Lemma mul_mono_r c x y : 0 <= c -> x <= y -> mul x c <= mul y c.
Proof. intros Hc H. apply round_mono. now apply Qmult_le_compat_r. Qed.

Lemma mul_mono_l c x y : 0 <= c -> x <= y -> mul c x <= mul c y.
Proof.
  intros Hc H. apply round_mono. rewrite !(Qmult_comm c).
  now apply Qmult_le_compat_r.
Qed.

Lemma round_zero q : q == 0 -> round q = 0.
Proof.
  intros H. unfold round.
  assert (Hn : Qnum q = 0%Z) by (unfold Qeq in H; cbn in H; lia).
  now rewrite Hn.
Qed.

Lemma round_pos_multiple q k :
  q == inject_Z k * pow2 (expo q) -> round_pos q == q.
Proof.
  intros H. unfold round_pos; cbv zeta.
  assert (Hk : q / pow2 (expo q) == inject_Z k).
  { rewrite H at 1. apply Qdiv_mult_l.
    pose proof (pow2_pos (expo q)). lra. }
  rewrite (py_round_Qeq _ _ Hk), py_round_inject_Z. now symmetry.
Qed.

Lemma ilog2_scaled m e :
  (0 < m)%Z -> ilog2 (inject_Z m * pow2 e) = (Z.log2 m + e)%Z.
Proof.
  intros Hm. pose proof (Z.log2_spec m Hm) as [H1 H2].
  pose proof (Z.log2_nonneg m) as H0.
  pose proof (pow2_pos e) as Hp.
  assert (Hq1 : pow2 (Z.log2 m) <= inject_Z m)
    by (rewrite (pow2_Z _ H0); now rewrite <- Zle_Qle).
  assert (Hq2 : inject_Z m < pow2 (Z.log2 m + 1)).
  { rewrite (pow2_Z (Z.log2 m + 1)) by lia. rewrite <- Zlt_Qlt.
    replace (Z.log2 m + 1)%Z with (Z.succ (Z.log2 m)) by lia. exact H2. }
  apply ilog2_unique.
  - apply Qmult_lt_0_compat; [|exact Hp].
    change 0 with (inject_Z 0). rewrite <- Zlt_Qlt. exact Hm.
  - rewrite pow2_plus. apply Qmult_le_compat_r; [exact Hq1 | lra].
  - replace (Z.log2 m + e + 1)%Z with ((Z.log2 m + 1) + e)%Z by lia.
    rewrite pow2_plus. apply Qmult_lt_r; assumption.
Qed.

(** A positive multiple [m * 2^e] of a power of two, with [m] of at most
    53 bits and [e] in the exponent range, is a double. *)
Lemma round_pos_exact m e :
  (0 < m <= 2 ^ 53)%Z -> (-1074 <= e)%Z ->
  round_pos (inject_Z m * pow2 e) == inject_Z m * pow2 e.
Proof.
  intros Hm He.
  set (q := inject_Z m * pow2 e).
  assert (Hl : ilog2 q = (Z.log2 m + e)%Z) by (apply ilog2_scaled; lia).
  assert (Hlog : (Z.log2 m <= 53)%Z).
  { change 53%Z with (Z.log2 (2 ^ 53)). apply Z.log2_le_mono. lia. }
  destruct (Z.eq_dec (Z.log2 m) 53) as [H53 | Hlt].
  - assert (Hm53 : m = (2 ^ 53)%Z).
    { pose proof (Z.log2_spec m ltac:(lia)) as [H1 _]. rewrite H53 in H1. lia. }
    apply (round_pos_multiple q (2 ^ 52)).
    assert (Hx : expo q = (e + 1)%Z) by (unfold expo; rewrite Hl; lia).
    rewrite Hx. unfold q. rewrite Hm53.
    rewrite <- (pow2_Z 53), <- (pow2_Z 52) by lia.
    rewrite <- !pow2_plus.
    replace (53 + e)%Z with (52 + (e + 1))%Z by lia. reflexivity.
  - assert (Hx : (expo q <= e)%Z) by (unfold expo; rewrite Hl; lia).
    apply (round_pos_multiple q (m * 2 ^ (e - expo q))).
    rewrite inject_Z_mult, <- (pow2_Z (e - expo q)) by lia.
    rewrite <- Qmult_assoc, <- pow2_plus.
    replace (e - expo q + expo q)%Z with e by lia. reflexivity.
Qed.

Lemma round_exact m e :
  (Z.abs m <= 2 ^ 53)%Z -> (-1074 <= e)%Z ->
  round (inject_Z m * pow2 e) == inject_Z m * pow2 e.
Proof.
  intros Hm He.
  destruct (Z.lt_trichotomy m 0) as [Hneg | [H0 | Hpos]].
  - unfold round.
    assert (Hn : exists p, Qnum (inject_Z m * pow2 e) = Zneg p).
    { pose proof (pow2_pos e) as Hp. apply Qnum_pos in Hp.
      cbn [Qnum Qmult inject_Z].
      destruct m as [|pm|pm]; try lia.
      destruct (Qnum (pow2 e)) as [|pe|pe]; try lia. now eexists. }
    destruct Hn as [p ->].
    assert (Hq : - (inject_Z m * pow2 e) == inject_Z (- m) * pow2 e)
      by (rewrite inject_Z_opp; ring).
    assert (Hr : round_pos (- (inject_Z m * pow2 e))
                 == round_pos (inject_Z (- m) * pow2 e)).
    { apply Qle_antisym; apply round_pos_mono;
        try (rewrite Hq; apply Qle_refl).
      - rewrite Hq. apply Qmult_lt_0_compat; [|apply pow2_pos].
        change 0 with (inject_Z 0). rewrite <- Zlt_Qlt. lia.
      - apply Qmult_lt_0_compat; [|apply pow2_pos].
        change 0 with (inject_Z 0). rewrite <- Zlt_Qlt. lia. }
    rewrite Hr, (round_pos_exact (- m) e) by lia.
    rewrite inject_Z_opp. ring.
  - subst m. rewrite round_zero; [|ring]. ring.
  - unfold round.
    assert (Hn : exists p, Qnum (inject_Z m * pow2 e) = Zpos p).
    { pose proof (pow2_pos e) as Hp. apply Qnum_pos in Hp.
      cbn [Qnum Qmult inject_Z].
      destruct m as [|pm|pm]; try lia.
      destruct (Qnum (pow2 e)) as [|pe|pe]; try lia. now eexists. }
    destruct Hn as [p ->]. apply round_pos_exact; lia.
Qed.

(** The result of a rounding is [m * 2^e] with [m] of at most 53 bits. *)
Lemma round_form q :
  exists m e, (Z.abs m <= 2 ^ 53)%Z /\ (-1074 <= e)%Z
              /\ round q == inject_Z m * pow2 e.
Proof.
  assert (Hpos : forall x, 0 < x ->
            exists m e, (0 <= m <= 2 ^ 53)%Z /\ (-1074 <= e)%Z
                        /\ round_pos x == inject_Z m * pow2 e).
  { intros x Hx. exists (py_round (x / pow2 (expo x))), (expo x).
    split; [split|split].
    - apply py_round_lower. change (inject_Z 0) with 0.
      apply Qle_shift_div_l; [apply pow2_pos|]. lra.
    - apply py_round_upper. rewrite <- (pow2_Z 53) by lia.
      now apply scaled_upper.
    - unfold expo. lia.
    - reflexivity. }
  unfold round. destruct q as [n d]. cbn [Qnum].
  destruct n as [|p|p].
  - exists 0%Z, 0%Z. split; [cbn; lia|]. split; [lia | reflexivity].
  - destruct (Hpos (Z.pos p # d)) as (m & e & Hm & He & Hr); [reflexivity|].
    exists m, e. split; [lia|]. split; assumption.
  - destruct (Hpos (- (Z.neg p # d))) as (m & e & Hm & He & Hr); [reflexivity|].
    exists (- m)%Z, e. split; [lia|]. split; [assumption|].
    rewrite Hr, inject_Z_opp. ring.
Qed.

(** Rounding a double again changes nothing. *)
Lemma round_idem q : round (round q) == round q.
Proof.
  destruct (round_form q) as (m & e & Hm & He & Hr).
  rewrite (round_Qeq _ _ Hr), Hr. now apply round_exact.
Qed.

End Binary64.

(** ** Rounding to an integer: the nearest one *)

Section Nearest.

Local Open Scope Z_scope.

(** [round(n/d)] is within one half of [n/d]. *)
Lemma py_round_between (n : Z) (d : positive) :
  (2 * py_round (n # d) - 1) * Zpos d <= 2 * n
  /\ 2 * n <= (2 * py_round (n # d) + 1) * Zpos d.
Proof.
  unfold py_round; cbn [Qnum Qden].
  pose proof (Z.div_mod n (Zpos d) ltac:(lia)) as E.
  pose proof (Z.mod_pos_bound n (Zpos d) ltac:(lia)) as B.
  set (f := n / Zpos d) in *. set (r := n mod Zpos d) in *.
  destruct (Z.ltb_spec (2 * r) (Zpos d)); [nia|].
  destruct (Z.ltb_spec (Zpos d) (2 * r)); [nia|].
  destruct (Z.even f); nia.
Qed.

(** An integer less than one half away is the rounding. *)
Lemma py_round_unique (y : Q) (k : Z) :
  (inject_Z k - (1 # 2) < y)%Q -> (y < inject_Z k + (1 # 2))%Q ->
  py_round y = k.
Proof.
  destruct y as [n d]. intros Hl Hu.
  unfold Qlt in Hl, Hu. cbn in Hl, Hu.
  pose proof (py_round_between n d) as [H1 H2].
  set (k' := py_round (n # d)) in *.
  assert (Hd : 0 < Zpos d) by lia.
  assert (A : (2 * k - 1) * Zpos d < (2 * k' + 1) * Zpos d) by lia.
  assert (B : (2 * k' - 1) * Zpos d < (2 * k + 1) * Zpos d) by lia.
  apply Z.mul_lt_mono_pos_r in A; [|exact Hd].
  apply Z.mul_lt_mono_pos_r in B; [|exact Hd].
  lia.
Qed.

Lemma py_round_near (x : Q) :
  (inject_Z (py_round x) - (1 # 2) <= x)%Q
  /\ (x <= inject_Z (py_round x) + (1 # 2))%Q.
Proof.
  destruct x as [n d]. pose proof (py_round_between n d) as [H1 H2].
  set (k := py_round (n # d)) in *.
  unfold Qle. cbn. lia.
Qed.

End Nearest.

Section Binary64Error.

Import B64.
Local Open Scope Q_scope.

(** Rounding to a double moves a positive number by at most half the
    spacing of the doubles around it. *)
Lemma round_pos_error q :
  0 < q ->
  q - pow2 (expo q) * (1 # 2) <= round_pos q
  /\ round_pos q <= q + pow2 (expo q) * (1 # 2).
Proof.
  intros Hq. unfold round_pos; cbv zeta.
  pose proof (pow2_pos (expo q)) as Hp.
  pose proof (py_round_near (q / pow2 (expo q))) as [H1 H2].
  set (m := inject_Z (py_round (q / pow2 (expo q)))) in *.
  assert (Hx : q == q / pow2 (expo q) * pow2 (expo q)).
  { unfold Qdiv. rewrite <- Qmult_assoc, (Qmult_comm (/ _)), Qmult_inv_r; lra. }
  set (x := q / pow2 (expo q)) in *.
  split.
  - assert (A : (x - (1 # 2)) * pow2 (expo q) <= m * pow2 (expo q))
      by (apply Qmult_le_compat_r; lra).
    rewrite Hx at 1. lra.
  - assert (A : m * pow2 (expo q) <= (x + (1 # 2)) * pow2 (expo q))
      by (apply Qmult_le_compat_r; lra).
    rewrite Hx at 2. lra.
Qed.

Lemma expo_below q l :
  0 < q -> q < pow2 (l + 1) -> (expo q <= Z.max (l - 52) (-1074))%Z.
Proof.
  intros Hq Hu. destruct (ilog2_spec q Hq) as [Hl _].
  assert (H : (ilog2 q < l + 1)%Z) by (apply pow2_lt_inv; lra).
  unfold expo. lia.
Qed.

(** Below 128 the doubles are [2^-46] apart or closer. *)
Lemma round_error_128 q :
  0 <= q -> q < 128 ->
  q - (1 # 140737488355328) <= round q
  /\ round q <= q + (1 # 140737488355328).
Proof.
  intros H0 H1. unfold round.
  destruct (Qnum q) as [|p|p] eqn:Hn.
  - assert (q == 0) by (unfold Qeq; cbn; lia). lra.
  - assert (Hq : 0 < q) by (apply Qnum_pos; lia).
    destruct (round_pos_error q Hq) as [A B].
    assert (He : (expo q <= -46)%Z).
    { pose proof (expo_below q 6 Hq) as H. cbn in H. apply H. exact H1. }
    pose proof (pow2_le _ _ He) as Hp.
    pose proof (pow2_pos (expo q)) as Hp0.
    change (pow2 (-46)) with (1 # 70368744177664) in Hp.
    lra.
  - exfalso. unfold Qle in H0. cbn in H0. lia.
Qed.

End Binary64Error.

(** ** The arithmetic of lines 116 and 127 *)

(** Closed comparisons of rationals, by evaluation. *)
Ltac qle := apply Qle_bool_iff; vm_compute; reflexivity.
Ltac qeq := apply Qeq_bool_iff; vm_compute; reflexivity.

(** Comparisons of fractions with integer parameters, over the integers. *)
Ltac qz :=
  unfold Qeq, Qle, Qlt, Qminus, Qplus, Qopp, Qmult, inject_Z;
  cbn [Qnum Qden]; lia.

Section HandlerArithmetic.

Local Open Scope Q_scope.

Lemma Qmult_comm_eq (x y : Q) : (x * y)%Q = (y * x)%Q.
Proof.
  unfold Qmult. f_equal; [apply Z.mul_comm | apply Pos.mul_comm].
Qed.

(** Float multiplication is commutative. *)
Lemma mul_comm_eq (x y : Q) : B64.mul x y = B64.mul y x.
Proof. unfold B64.mul. now rewrite Qmult_comm_eq. Qed.

Lemma round_range (q : Q) : 0 <= q <= 100 -> 0 <= B64.round q <= 100.
Proof.
  intros [H0 H1]. split.
  - change 0 with (B64.round 0) at 1. now apply round_mono.
  - eapply Qle_trans; [apply round_mono; exact H1 | qle].
Qed.

Lemma skill_match_le (t t' s s' : Q) :
  t <= t' -> s <= s' -> skill_match t s <= skill_match t' s'.
Proof.
  intros Ht Hs. unfold skill_match.
  apply add_mono; apply mul_mono_l; try assumption; qle.
Qed.

Lemma skill_match_range (t s : Q) :
  0 <= t <= 100 -> 0 <= s <= 100 -> 0 <= skill_match t s <= 100.
Proof.
  intros [Ht0 Ht1] [Hs0 Hs1]. split.
  - eapply Qle_trans; [|apply (skill_match_le 0 t 0 s); assumption]. qle.
  - eapply Qle_trans; [apply (skill_match_le t 100 s 100); assumption|]. qle.
Qed.

Lemma overall_le (a a' k k' c c' s s' : Q) :
  a <= a' -> k <= k' -> c <= c' -> s <= s' ->
  (overall a k c s <= overall a' k' c' s')%Z.
Proof.
  intros Ha Hk Hc Hs. unfold overall. apply py_round_mono.
  repeat apply add_mono; apply mul_mono_r; try assumption; qle.
Qed.

Lemma overall_bounds (ats k c s : Q) :
  0 <= ats <= 100 -> 0 <= k <= 100 ->
  0 <= c <= 100 -> 0 <= s <= 100 ->
  (0 <= overall ats k c s <= 100)%Z.
Proof.
  intros [Ha0 Ha1] [Hk0 Hk1] [Hc0 Hc1] [Hs0 Hs1]. split.
  - change 0%Z with (overall 0 0 0 0). now apply overall_le.
  - replace 100%Z with (overall 100 100 100 100) by (vm_compute; reflexivity).
    now apply overall_le.
Qed.

(** Adding [0.0] to a float gives it back. *)
Lemma add_zero_r (x y : Q) : x == B64.round y -> B64.add x 0 == B64.round y.
Proof.
  intros H. unfold B64.add.
  assert (Hx : x + 0 == B64.round y) by lra.
  rewrite (round_Qeq _ _ Hx). apply round_idem.
Qed.

Lemma mul_zero_r (c : Q) : B64.mul c 0 = 0.
Proof. unfold B64.mul. apply round_zero. ring. Qed.

(** With [soft_score] at [0.0], line 116 gives [0.75 * tech_score]. *)
Lemma skill_match_soft_zero (t : Q) :
  skill_match t 0 == B64.mul (B64.round 0.75) t.
Proof.
  unfold skill_match. rewrite mul_zero_r.
  apply add_zero_r. reflexivity.
Qed.

(** [float(z)] raises exactly from [2^1024 - 2^970] on, the midpoint
    between the largest double and [2^1024]. *)
Lemma int_overflows_iff (z : Z) :
  B64.int_overflows z = true <-> (2 ^ 1024 - 2 ^ 970 <= Z.abs z)%Z.
Proof.
  unfold B64.int_overflows. rewrite Qle_bool_iff.
  assert (Hhi : B64.round (inject_Z (2 ^ 1024 - 2 ^ 970 - 1)) < B64.pow2 1024)
    by (unfold Qlt; vm_compute; reflexivity).
  assert (Hlo : - B64.pow2 1024
                < B64.round (inject_Z (- (2 ^ 1024 - 2 ^ 970 - 1))))
    by (unfold Qlt; vm_compute; reflexivity).
  assert (Hov : B64.pow2 1024 <= B64.round (inject_Z (2 ^ 1024 - 2 ^ 970)))
    by qle.
  assert (Hun : B64.round (inject_Z (- (2 ^ 1024 - 2 ^ 970)))
                <= - B64.pow2 1024) by qle.
  remember (2 ^ 1024 - 2 ^ 970)%Z as T eqn:HT. clear HT.
  remember (B64.pow2 1024) as P eqn:HP. clear HP.
  split.
  - intros H. destruct (Z_lt_le_dec (Z.abs z) T) as [Hlt|]; [exfalso|assumption].
    assert (A : B64.round (inject_Z z) <= B64.round (inject_Z (T - 1)))
      by (apply round_mono; rewrite <- Zle_Qle; lia).
    assert (B : B64.round (inject_Z (- (T - 1))) <= B64.round (inject_Z z))
      by (apply round_mono; rewrite <- Zle_Qle; lia).
    revert H. apply Qabs_case; intros; lra.
  - intros H. destruct (Z_le_gt_dec 0 z) as [Hz | Hz].
    + assert (A : B64.round (inject_Z T) <= B64.round (inject_Z z))
        by (apply round_mono; rewrite <- Zle_Qle; lia).
      eapply Qle_trans; [|apply Qle_Qabs]. lra.
    + assert (A : B64.round (inject_Z z) <= B64.round (inject_Z (- T)))
        by (apply round_mono; rewrite <- Zle_Qle; lia).
      rewrite <- Qabs_opp.
      eapply Qle_trans; [|apply Qle_Qabs]. lra.
Qed.

Lemma int_overflows_small (z : Z) :
  (Z.abs z < 2 ^ 1024 - 2 ^ 970)%Z -> B64.int_overflows z = false.
Proof.
  intros H. destruct (B64.int_overflows z) eqn:Ho; [|reflexivity].
  apply int_overflows_iff in Ho. lia.
Qed.

Lemma int_overflows_percent (z : Z) :
  (0 <= z <= 100)%Z -> B64.int_overflows z = false.
Proof.
  intros H. apply int_overflows_small.
  assert (100 < 2 ^ 1024 - 2 ^ 970)%Z by (vm_compute; reflexivity). lia.
Qed.

(** An integer between 0 and 100 is a double. *)
Lemma round_percent (z : Z) :
  (0 <= z <= 100)%Z -> B64.round (inject_Z z) == inject_Z z.
Proof.
  intros H.
  assert (Hq : inject_Z z == inject_Z z * B64.pow2 0)
    by (change (B64.pow2 0) with 1; ring).
  rewrite (round_Qeq _ _ Hq).
  eapply Qeq_trans; [apply round_exact | symmetry; exact Hq]; [|lia].
  assert (100 < 2 ^ 53)%Z by (vm_compute; reflexivity). lia.
Qed.

(** What [as_float] returns is below [2^1024] in magnitude. *)
Lemma as_float_finite (z : Z) (c : Q) :
  as_float (PInt z) = inr c -> Qabs c < B64.pow2 1024.
Proof.
  unfold as_float, B64.int_overflows.
  destruct (Qle_bool (B64.pow2 1024) (Qabs (B64.round (inject_Z z)))) eqn:Hb;
    [discriminate|].
  intros H. inversion H; subst. apply Qnot_le_lt.
  rewrite <- Qle_bool_iff. congruence.
Qed.

(** No product and no sum of line 127 reaches [2^1024], the two converted
    scores being below it: the arithmetic of [B64], which has no largest
    exponent, is that of the machine here. *)
Lemma overall_stays_finite (a k c s : Q) :
  0 <= a <= 100 -> 0 <= k <= 100 ->
  Qabs c <= B64.pow2 1024 -> Qabs s <= B64.pow2 1024 ->
  Qabs (c * B64.round 0.1)%b64 < B64.pow2 1024
  /\ Qabs (a * B64.round 0.5 + k * B64.round 0.3
           + c * B64.round 0.1)%b64 < B64.pow2 1024
  /\ Qabs (s * B64.round 0.1)%b64 < B64.pow2 1024
  /\ Qabs (a * B64.round 0.5 + k * B64.round 0.3
           + c * B64.round 0.1 + s * B64.round 0.1)%b64 < B64.pow2 1024.
Proof.
  intros [Ha0 Ha1] [Hk0 Hk1] Hc Hs.
  apply Qabs_Qle_condition in Hc. apply Qabs_Qle_condition in Hs.
  destruct Hc as [Hc0 Hc1], Hs as [Hs0 Hs1].
  assert (H1 : 0 <= B64.round 0.1) by qle.
  assert (H3 : 0 <= B64.round 0.3) by qle.
  assert (H5 : 0 <= B64.round 0.5) by qle.
  pose proof (mul_mono_r _ _ _ H1 Hc0) as P3l.
  pose proof (mul_mono_r _ _ _ H1 Hc1) as P3u.
  pose proof (mul_mono_r _ _ _ H1 Hs0) as P4l.
  pose proof (mul_mono_r _ _ _ H1 Hs1) as P4u.
  pose proof (add_mono _ _ _ _ (mul_mono_r _ _ _ H5 Ha0)
                (mul_mono_r _ _ _ H3 Hk0)) as S1l.
  pose proof (add_mono _ _ _ _ (mul_mono_r _ _ _ H5 Ha1)
                (mul_mono_r _ _ _ H3 Hk1)) as S1u.
  pose proof (add_mono _ _ _ _ S1l P3l) as S2l.
  pose proof (add_mono _ _ _ _ S1u P3u) as S2u.
  pose proof (add_mono _ _ _ _ S2l P4l) as S3l.
  pose proof (add_mono _ _ _ _ S2u P4u) as S3u.
  assert (B3l : - B64.pow2 1024 < (- B64.pow2 1024 * B64.round 0.1)%b64)
    by (unfold Qlt; vm_compute; reflexivity).
  assert (B3u : (B64.pow2 1024 * B64.round 0.1)%b64 < B64.pow2 1024)
    by (unfold Qlt; vm_compute; reflexivity).
  assert (B2l : - B64.pow2 1024
                < (0 * B64.round 0.5 + 0 * B64.round 0.3
                   + - B64.pow2 1024 * B64.round 0.1)%b64)
    by (unfold Qlt; vm_compute; reflexivity).
  assert (B2u : (100 * B64.round 0.5 + 100 * B64.round 0.3
                 + B64.pow2 1024 * B64.round 0.1)%b64 < B64.pow2 1024)
    by (unfold Qlt; vm_compute; reflexivity).
  assert (B4l : - B64.pow2 1024
                < (0 * B64.round 0.5 + 0 * B64.round 0.3
                   + - B64.pow2 1024 * B64.round 0.1
                   + - B64.pow2 1024 * B64.round 0.1)%b64)
    by (unfold Qlt; vm_compute; reflexivity).
  assert (B4u : (100 * B64.round 0.5 + 100 * B64.round 0.3
                 + B64.pow2 1024 * B64.round 0.1
                 + B64.pow2 1024 * B64.round 0.1)%b64 < B64.pow2 1024)
    by (unfold Qlt; vm_compute; reflexivity).
  split; [|split; [|split]]; apply Qabs_Qlt_condition; split; lra.
Qed.

(** *** Two-decimal scores in the arithmetic *)

Lemma hundredths_range (q : Q) (z : Z) :
  (0 <= z <= 10000)%Z -> q == inject_Z z / 100 ->
  q == z # 100 /\ 0 <= q <= 100.
Proof.
  intros Hz Hq.
  assert (Hq' : q == z # 100).
  { rewrite Hq, (Qmake_Qdiv z 100). reflexivity. }
  split; [exact Hq'|]. rewrite Hq'. qz.
Qed.

(** The float nearest to a two-decimal score rounds to the same integer
    as the score: [round(ats_match_score)] of line 136. *)
Lemma display_stable (q : Q) (z : Z) :
  (0 <= z <= 10000)%Z -> q == inject_Z z / 100 ->
  py_round (B64.round q) = py_round q.
Proof.
  intros Hz Hq. destruct (hundredths_range q z Hz Hq) as [Hq' [H0 H1]].
  destruct (Z.eq_dec (z mod 100) 50) as [Htie | Hnt].
  - pose proof (Z.div_mod z 100 ltac:(lia)) as Hdm. rewrite Htie in Hdm.
    set (j := (z / 100)%Z) in *.
    assert (Hf : q == inject_Z (2 * j + 1) * B64.pow2 (-1)).
    { rewrite Hq'. change (B64.pow2 (-1)) with (1 # 2).
      qz. }
    apply py_round_Qeq.
    rewrite (round_Qeq _ _ Hf), Hf. apply round_exact; [|lia].
    assert (10000 < 2 ^ 53)%Z by (vm_compute; reflexivity). lia.
  - rewrite (py_round_Qeq q (z # 100) Hq').
    pose proof (py_round_between z 100) as [B1 B2].
    set (k := py_round (z # 100)) in *.
    pose proof (Z.div_mod z 100 ltac:(lia)) as Hdm.
    pose proof (Z.mod_pos_bound z 100 ltac:(lia)) as Hmb.
    assert (Hk : (100 * k - 49 <= z <= 100 * k + 49)%Z) by lia.
    assert (Hlo : inject_Z k - (49 # 100) <= q)
      by (rewrite Hq'; qz).
    assert (Hhi : q <= inject_Z k + (49 # 100))
      by (rewrite Hq'; qz).
    destruct (round_error_128 q H0 ltac:(lra)) as [E1 E2].
    apply py_round_unique; lra.
Qed.

(** Half a two-decimal score, in floats and exactly, round alike. *)
Lemma half_stable (q : Q) (z : Z) :
  (0 <= z <= 10000)%Z -> q == inject_Z z / 100 ->
  py_round (B64.mul (B64.round q) (B64.round 0.5)) = py_round (0.5 * q).
Proof.
  intros Hz Hq. destruct (hundredths_range q z Hz Hq) as [Hq' [H0 H1]].
  assert (Hh : B64.round 0.5 == 1 # 2) by qeq.
  assert (Hhalf : 0.5 * q == z # 200)
    by (rewrite Hq'; qz).
  unfold B64.mul.
  destruct (Z.eq_dec (z mod 200) 100) as [Htie | Hnt].
  - pose proof (Z.div_mod z 200 ltac:(lia)) as Hdm. rewrite Htie in Hdm.
    set (j := (z / 200)%Z) in *.
    assert (Hbig : (10000 < 2 ^ 53)%Z) by (vm_compute; reflexivity).
    assert (Hf : q == inject_Z (2 * j + 1) * B64.pow2 0).
    { rewrite Hq'. change (B64.pow2 0) with 1. qz. }
    assert (Hx : B64.round q == inject_Z (2 * j + 1) * B64.pow2 0).
    { rewrite (round_Qeq _ _ Hf). apply round_exact; lia. }
    assert (Hy : B64.round q * B64.round 0.5
                 == inject_Z (2 * j + 1) * B64.pow2 (-1)).
    { rewrite Hx, Hh. change (B64.pow2 0) with 1.
      change (B64.pow2 (-1)) with (1 # 2). ring. }
    apply py_round_Qeq. rewrite (round_Qeq _ _ Hy).
    rewrite round_exact by lia.
    rewrite Hhalf. change (B64.pow2 (-1)) with (1 # 2).
    qz.
  - rewrite (py_round_Qeq _ _ Hhalf).
    pose proof (py_round_between z 200) as [B1 B2].
    set (k := py_round (z # 200)) in *.
    pose proof (Z.div_mod z 200 ltac:(lia)) as Hdm.
    pose proof (Z.mod_pos_bound z 200 ltac:(lia)) as Hmb.
    assert (Hk : (200 * k - 99 <= z <= 200 * k + 99)%Z) by lia.
    assert (Hlo : inject_Z k - (99 # 200) <= q * (1 # 2))
      by (rewrite Hq'; qz).
    assert (Hhi : q * (1 # 2) <= inject_Z k + (99 # 200))
      by (rewrite Hq'; qz).
    destruct (round_error_128 q H0 ltac:(lra)) as [E1 E2].
    destruct (round_range q (conj H0 H1)) as [R0 R1].
    set (x := B64.round q) in *.
    assert (Hy : x * B64.round 0.5 == x * (1 # 2)) by (now rewrite Hh).
    set (y := x * B64.round 0.5) in *.
    destruct (round_error_128 y ltac:(lra) ltac:(lra)) as [F1 F2].
    apply py_round_unique; lra.
Qed.

(** Line 127 when only the whole-document score is not zero. *)
Lemma overall_degraded (q : Q) (z : Z) :
  (0 <= z <= 10000)%Z -> q == inject_Z z / 100 ->
  overall (B64.round q) 0 0 0 = py_round (0.5 * q).
Proof.
  intros Hz Hq. rewrite <- (half_stable q z Hz Hq).
  unfold overall. apply py_round_Qeq.
  change (B64.mul 0 (B64.round 0.3)) with 0.
  change (B64.mul 0 (B64.round 0.1)) with 0.
  apply add_zero_r, add_zero_r, add_zero_r. reflexivity.
Qed.

End HandlerArithmetic.

(** ** The values of [score] *)

Section Hundredths.

(** Every value of [rescale] is a whole number of hundredths. *)
Lemma rescale_hundredths (s : Q) :
  exists z : Z, (0 <= z <= 10000)%Z /\ (rescale s == inject_Z z / 100)%Q.
Proof.
  pose proof (rescale_range s) as [Hlo Hhi].
  unfold rescale in *; cbv zeta in *. unfold py_max, py_min in *.
  destruct (Qle_bool 100 (py_round2 (s * 100))) eqn:H100.
  - destruct (Qle_bool 100 0) eqn:H0.
    + exists 0%Z. split; [lia | reflexivity].
    + exists 10000%Z. split; [lia | reflexivity].
  - destruct (Qle_bool (py_round2 (s * 100)) 0) eqn:H0.
    + exists 0%Z. split; [lia | reflexivity].
    + exists (py_round (s * 100 * 100)). split; [|reflexivity].
      unfold py_round2 in Hlo, Hhi.
      unfold Qdiv in Hlo, Hhi; change (/ 100)%Q with (1 # 100)%Q in Hlo, Hhi.
      split; rewrite Zle_Qle.
      * change (inject_Z 0) with 0%Q. lra.
      * change (inject_Z 10000) with 10000%Q. lra.
Qed.

End Hundredths.

(** ** The effect monad *)

Section Monad.

Variable E : Ext.t.

Lemma bind_inr {A B} (m : M E A) (k : A -> M E B) w b w' :
  bind E m k w = (inr b, w') ->
  exists a w1, m w = (inr a, w1) /\ k a w1 = (inr b, w').
Proof.
  unfold bind. destruct (m w) as [[e | a] w1]; [discriminate|].
  intros H. now exists a, w1.
Qed.

Lemma bind_run {A B} (m : M E A) (k : A -> M E B) w a w1 :
  m w = (inr a, w1) -> bind E m k w = k a w1.
Proof. unfold bind. now intros ->. Qed.

Lemma try_except_inr {A} (m : M E A) h w a w' :
  m w = (inr a, w') -> try_except E m h w = (inr a, w').
Proof. unfold try_except. now intros ->. Qed.

Lemma try_except_inl {A} (m : M E A) h w e w' :
  m w = (inl e, w') -> try_except E m h w = h e w'.
Proof. unfold try_except. now intros ->. Qed.

End Monad.

(** ** models/matcher.py: [SemanticModel.score] *)

Section Matcher.

Variable E : Ext.t.

(** What is returned inside the [try] block is what [score] returns. *)
Lemma score_returns a b (w : world E) q w' :
  score_body E a b w = (inr q, w') -> score E a b w = (inr q, w').
Proof. intros H. unfold score. now apply try_except_inr. Qed.

(** What is raised inside the [try] block is turned into [0.0], at the
    price of one printed line. *)
Lemma score_recovers a b (w : world E) e w' :
  score_body E a b w = (inl e, w') ->
  exists line,
    score E a b w =
      (inr 0%Q,
       mkWorld (MODEL_NAME E w') (SemanticModel_instance E w')
               (SemanticModel_model E w') (encode_calls E w')
               (oracle_calls E w') (stdout E w' ++ [line])).
Proof.
  intros H. unfold score. rewrite (try_except_inl E _ _ _ _ _ H).
  destruct e; eexists; reflexivity.
Qed.

Lemma score_of_range e1 e2 (w : world E) q w' :
  score_of E e1 e2 w = (inr q, w') -> (0 <= q <= 100)%Q.
Proof.
  unfold score_of, bind, lift, ret.
  destruct (Ext.cos_sim E e1 e2) as [e | sim]; [discriminate|].
  intros H; inversion H; subst. apply rescale_range.
Qed.

Lemma score_body_range a b (w : world E) q w' :
  score_body E a b w = (inr q, w') -> (0 <= q <= 100)%Q.
Proof.
  unfold score_body.
  destruct (SemanticModel_model E w) as [model|]; [|discriminate].
  assert (Hz : forall w0 : world E,
             ret E 0%Q w0 = (inr q, w') -> (0 <= q <= 100)%Q).
  { unfold ret. intros w0 H; inversion H; subst. lra. }
  destruct a, b; try apply Hz.
  - unfold bind, call_encode, tick_encode, lift, row, bind.
    destruct (encode model _) as [e | rows]; [discriminate|].
    destruct (nth_error rows 0) as [e1|]; [|discriminate].
    destruct (nth_error rows 1) as [e2|]; [|discriminate].
    apply score_of_range.
  - destruct (negb (truthy (PList l)) || negb (truthy (PList l0))); [apply Hz|].
    unfold bind, call_encode, tick_encode, lift, bind.
    destruct (encode model l) as [e | r1]; [discriminate|].
    destruct (encode model l0) as [e | r2]; [discriminate|].
    apply score_of_range.
Qed.

(** [score] always returns, and what it returns is a percentage. *)
Lemma score_total a b (w : world E) :
  exists q w', score E a b w = (inr q, w') /\ (0 <= q <= 100)%Q.
Proof.
  destruct (score_body E a b w) as [[e | q] w'] eqn:Hb.
  - destruct (score_recovers _ _ _ _ _ Hb) as [line Hs].
    eexists _, _. split; [exact Hs | lra].
  - exists q, w'. split; [now apply score_returns|].
    eapply score_body_range; eauto.
Qed.

(** The two shapes in which [score] reaches the cosine similarity. *)
Lemma score_of_texts s t (w : world E) model rows e1 e2 sim :
  SemanticModel_model E w = Some model ->
  encode model [PStr s; PStr t] = inr rows ->
  nth_error rows 0 = Some e1 ->
  nth_error rows 1 = Some e2 ->
  Ext.cos_sim E e1 e2 = inr sim ->
  exists w', score E (PStr s) (PStr t) w = (inr (rescale sim), w').
Proof.
  intros Hm He H1 H2 Hc. eexists. apply score_returns.
  unfold score_body. rewrite Hm.
  unfold bind, call_encode, tick_encode, lift, row, bind, score_of, bind, lift, ret.
  rewrite He, H1, H2, Hc. reflexivity.
Qed.

Lemma score_of_phrases j jl r rl (w : world E) model r1 r2 sim :
  SemanticModel_model E w = Some model ->
  encode model (j :: jl) = inr r1 ->
  encode model (r :: rl) = inr r2 ->
  Ext.cos_sim E (Ext.tensor_mean E r1) (Ext.tensor_mean E r2) = inr sim ->
  exists w', score E (PList (j :: jl)) (PList (r :: rl)) w = (inr (rescale sim), w').
Proof.
  intros Hm H1 H2 Hc. eexists. apply score_returns.
  unfold score_body. rewrite Hm. cbn [truthy negb orb].
  unfold bind, call_encode, tick_encode, lift, score_of, bind, lift, ret.
  rewrite H1, H2, Hc. reflexivity.
Qed.

(** An empty list on either side: [0.0], and the call counter is where
    it was. *)
Lemma score_empty_l x (w : world E) :
  exists w', score E (PList []) x w = (inr 0%Q, w')
             /\ encode_calls E w' = encode_calls E w.
Proof.
  destruct (SemanticModel_model E w) as [model|] eqn:Hm.
  - exists w. split; [|reflexivity]. apply score_returns.
    unfold score_body. rewrite Hm. now destruct x.
  - assert (Hb : score_body E (PList []) x w
                 = (inl (RuntimeError "Semantic Model is not loaded."), w)).
    { unfold score_body. now rewrite Hm. }
    destruct (score_recovers _ _ _ _ _ Hb) as [line Hs].
    eexists. split; [exact Hs | reflexivity].
Qed.

Lemma score_empty_r x (w : world E) :
  exists w', score E x (PList []) w = (inr 0%Q, w')
             /\ encode_calls E w' = encode_calls E w.
Proof.
  destruct (SemanticModel_model E w) as [model|] eqn:Hm.
  - exists w. split; [|reflexivity]. apply score_returns.
    unfold score_body. rewrite Hm. destruct x; try reflexivity.
    now destruct l.
  - assert (Hb : score_body E x (PList []) w
                 = (inl (RuntimeError "Semantic Model is not loaded."), w)).
    { unfold score_body. now rewrite Hm. }
    destruct (score_recovers _ _ _ _ _ Hb) as [line Hs].
    eexists. split; [exact Hs | reflexivity].
Qed.

(** What the [try] block returns is [0.0] or a rescaled similarity. *)
Lemma score_body_value a b (w : world E) q w1 :
  score_body E a b w = (inr q, w1) -> q = 0%Q \/ exists sim, q = rescale sim.
Proof.
  unfold score_body.
  destruct (SemanticModel_model E w) as [model|]; [|discriminate].
  assert (Hz : forall w0 : world E, ret E 0%Q w0 = (inr q, w1) ->
                                    q = 0%Q \/ exists sim, q = rescale sim).
  { unfold ret. intros w0 H; inversion H; now left. }
  assert (Hs : forall e1 e2 (w0 : world E),
             score_of E e1 e2 w0 = (inr q, w1) ->
             q = 0%Q \/ exists sim, q = rescale sim).
  { intros e1 e2 w0. unfold score_of, bind, lift, ret.
    destruct (Ext.cos_sim E e1 e2) as [e | sim]; [discriminate|].
    intros H; inversion H. right. now exists sim. }
  destruct a, b; try apply Hz.
  - unfold bind, call_encode, tick_encode, lift, row, bind.
    destruct (encode model _) as [e | rows]; [discriminate|].
    destruct (nth_error rows 0) as [e1|]; [|discriminate].
    destruct (nth_error rows 1) as [e2|]; [|discriminate].
    apply Hs.
  - destruct (negb (truthy (PList l)) || negb (truthy (PList l0))); [apply Hz|].
    unfold bind, call_encode, tick_encode, lift, bind.
    destruct (encode model l) as [e | r1]; [discriminate|].
    destruct (encode model l0) as [e | r2]; [discriminate|].
    apply Hs.
Qed.

(** Every value of [score] is a whole number of hundredths between 0 and
    100. *)
Lemma score_hundredths a b (w : world E) q w' :
  score E a b w = (inr q, w') ->
  exists z : Z, (0 <= z <= 10000)%Z /\ (q == inject_Z z / 100)%Q.
Proof.
  intros H. destruct (score_body E a b w) as [[e | q0] w1] eqn:Hb.
  - destruct (score_recovers _ _ _ _ _ Hb) as [line Hs].
    rewrite Hs in H. inversion H; subst.
    exists 0%Z. split; [lia | reflexivity].
  - rewrite (score_returns _ _ _ _ _ Hb) in H. inversion H; subst.
    destruct (score_body_value _ _ _ _ _ Hb) as [-> | [sim ->]].
    + exists 0%Z. split; [lia | reflexivity].
    + apply rescale_hundredths.
Qed.

(** C3: [score] returns a value between 0.0 and 100.0 for every pair of
    inputs; when it reaches the cosine similarity [sim] of the two
    embeddings (two texts encoded in one batch, or two non-empty phrase
    lists encoded and averaged), the value is
    [max(0, min(100, round(sim * 100, 2)))]; and that expression is 0.0 for
    every negative [sim]. *)
Theorem score_percentage (a b : pyval) (w : world E) :
  (exists q w', score E a b w = (inr q, w') /\ (0 <= q <= 100)%Q)
  /\ (forall s t model rows e1 e2 sim,
         a = PStr s -> b = PStr t ->
         SemanticModel_model E w = Some model ->
         encode model [PStr s; PStr t] = inr rows ->
         nth_error rows 0 = Some e1 -> nth_error rows 1 = Some e2 ->
         Ext.cos_sim E e1 e2 = inr sim ->
         exists w', score E a b w
                    = (inr (py_max 0 (py_min 100 (py_round2 (sim * 100)))), w'))
  /\ (forall j jl r rl model r1 r2 sim,
         a = PList (j :: jl) -> b = PList (r :: rl) ->
         SemanticModel_model E w = Some model ->
         encode model (j :: jl) = inr r1 -> encode model (r :: rl) = inr r2 ->
         Ext.cos_sim E (Ext.tensor_mean E r1) (Ext.tensor_mean E r2) = inr sim ->
         exists w', score E a b w
                    = (inr (py_max 0 (py_min 100 (py_round2 (sim * 100)))), w'))
  /\ (forall sim, (sim < 0)%Q ->
                  py_max 0 (py_min 100 (py_round2 (sim * 100))) = 0%Q).
Proof.
  split; [apply score_total|]. split; [|split].
  - intros s t model rows e1 e2 sim -> -> Hm He H1 H2 Hc.
    exact (score_of_texts _ _ _ _ _ _ _ _ Hm He H1 H2 Hc).
  - intros j jl r rl model r1 r2 sim -> -> Hm H1 H2 Hc.
    exact (score_of_phrases _ _ _ _ _ _ _ _ _ Hm H1 H2 Hc).
  - exact rescale_negative.
Qed.

(** C4: with an empty list as either argument, [score] returns exactly
    0.0 and the encoder is not invoked (the count of [encode] calls is
    unchanged), whatever the other argument is. *)
Theorem score_empty_sequence (x : pyval) (w : world E) :
  (exists w', score E (PList []) x w = (inr 0%Q, w')
              /\ encode_calls E w' = encode_calls E w)
  /\ (exists w', score E x (PList []) w = (inr 0%Q, w')
                 /\ encode_calls E w' = encode_calls E w).
Proof. split; [apply score_empty_l | apply score_empty_r]. Qed.

(** C7: [score] never raises; whenever anything raises inside its [try]
    block the result is 0.0, in particular when the model handle is
    missing and when the encoder raises. *)
Theorem score_absorbs_failures (a b : pyval) (w : world E) :
  (exists q w', score E a b w = (inr q, w'))
  /\ (forall e w1, score_body E a b w = (inl e, w1) ->
                   exists w2, score E a b w = (inr 0%Q, w2))
  /\ (SemanticModel_model E w = None ->
      exists w2, score E a b w = (inr 0%Q, w2))
  /\ (forall model s t e,
         SemanticModel_model E w = Some model ->
         a = PStr s -> b = PStr t ->
         encode model [a; b] = inl e ->
         exists w2, score E a b w = (inr 0%Q, w2))
  /\ (forall model j jl r rl e,
         SemanticModel_model E w = Some model ->
         a = PList (j :: jl) -> b = PList (r :: rl) ->
         encode model (j :: jl) = inl e \/ encode model (r :: rl) = inl e ->
         exists w2, score E a b w = (inr 0%Q, w2)).
Proof.
  assert (Hrec : forall e w1, score_body E a b w = (inl e, w1) ->
                              exists w2, score E a b w = (inr 0%Q, w2)).
  { intros e w1 Hb. destruct (score_recovers _ _ _ _ _ Hb) as [line Hs].
    eexists; exact Hs. }
  split; [|split; [exact Hrec|split; [|split]]].
  - destruct (score_total a b w) as (q & w' & Hs & _). now exists q, w'.
  - intros Hm. eapply Hrec. unfold score_body. rewrite Hm. reflexivity.
  - intros model s t e Hm -> -> He. eapply Hrec.
    unfold score_body. rewrite Hm.
    unfold bind, call_encode, tick_encode, lift, bind. rewrite He. reflexivity.
  - intros model j jl r rl e Hm -> -> He.
    destruct (encode model (j :: jl)) as [e1 | r1] eqn:H1.
    + eapply Hrec. unfold score_body. rewrite Hm. cbn [truthy negb orb].
      unfold bind, call_encode, tick_encode, lift, bind. rewrite H1. reflexivity.
    + destruct He as [He | He]; [discriminate|].
      eapply Hrec. unfold score_body. rewrite Hm. cbn [truthy negb orb].
      unfold bind, call_encode, tick_encode, lift, bind. rewrite H1, He.
      reflexivity.
Qed.


End Matcher.

(** ** The generative-model clients *)

Section Clients.

Variable E : Ext.t.

Lemma strs_has_type (l : list string) : has_type (TList TStr) (strs l) = true.
Proof. unfold strs; cbn. induction l; cbn; auto. Qed.

Lemma skill_category_has_type (c : SkillCategory.t) :
  has_type (TModel SkillCategory.schema) (SkillCategory.model_dump c) = true.
Proof.
  destruct c as [cat sk]. cbn.
  pose proof (strs_has_type sk) as H. cbn in H. now rewrite H.
Qed.

Lemma candidate_skills_conforms (r : CandidateSkills.t) :
  conforms (CandidateSkills.model_dump r) CandidateSkills.schema = true.
Proof.
  destruct r as [sets]. unfold conforms. cbn -[has_type].
  change (has_type (TModel CandidateSkills.schema)
            (PDict [("skill_sets", PList (map SkillCategory.model_dump sets))])
          = true).
  cbn [has_type CandidateSkills.schema lookup String.eqb Ascii.eqb Bool.eqb].
  rewrite andb_true_r.
  induction sets as [|c rest IH]; [reflexivity|].
  cbn [map forallb]. rewrite IH, andb_true_r. apply skill_category_has_type.
Qed.

Lemma required_skills_conforms (r : RequiredSkillsResponse.t) :
  conforms (RequiredSkillsResponse.model_dump r) RequiredSkillsResponse.schema
  = true.
Proof.
  destruct r as [ts ss]. unfold conforms. cbn.
  pose proof (strs_has_type ts) as H1. pose proof (strs_has_type ss) as H2.
  cbn in H1, H2. now rewrite H1, H2.
Qed.

Lemma content_score_conforms (r : ContentScoreResponse.t) :
  conforms (ContentScoreResponse.model_dump r) ContentScoreResponse.schema
  = true.
Proof.
  destruct r as [z why mk tips]. unfold conforms. cbn.
  pose proof (strs_has_type mk) as H1. pose proof (strs_has_type tips) as H2.
  cbn in H1, H2. now rewrite H1, H2.
Qed.

Lemma structure_score_conforms (r : StructureScoreResponse.t) :
  conforms (StructureScoreResponse.model_dump r) StructureScoreResponse.schema
  = true.
Proof. now destruct r. Qed.

Lemma summary_conforms (r : ProfessionalSummaryResponse.t) :
  conforms (ProfessionalSummaryResponse.model_dump r)
           ProfessionalSummaryResponse.schema = true.
Proof.
  destruct r as [kp]. unfold conforms. cbn.
  pose proof (strs_has_type kp) as H. cbn in H. now rewrite H.
Qed.

Ltac run_client :=
  unfold try_except, bind, lift, invoke, bind, tick_oracle, lift, ret, print.

(** Every client returns a dictionary, whatever the generative model
    does; the next lemmas also record what the callers rely on. *)
Lemma extract_all_skills_total text (w : world E) :
  exists d w',
    extract_all_skills E text w = (inr d, w')
    /\ conforms d CandidateSkills.schema = true
    /\ exists sets,
         get d "skill_sets" (PList []) = PList (map SkillCategory.model_dump sets).
Proof.
  unfold extract_all_skills.
  destruct (negb (truthy (PStr text)) || Nat.ltb (String.length text) 50).
  - eexists _, _. split; [reflexivity|]. split; [reflexivity|]. now exists [].
  - run_client.
    destruct (Ext.skills_chain E) as [e | chain];
      [|destruct (chain _) as [e | r]]; eexists _, _;
      (split; [reflexivity|]).
    + split; [reflexivity|]. now exists [].
    + split; [reflexivity|]. now exists [].
    + split; [apply candidate_skills_conforms|].
      now exists (CandidateSkills.skill_sets r).
Qed.

Lemma get_required_skills_total jd (w : world E) :
  exists d w',
    get_required_skills E jd w = (inr d, w')
    /\ conforms d RequiredSkillsResponse.schema = true.
Proof.
  unfold get_required_skills. run_client.
  destruct (Ext.required_skills_chain E) as [e | chain];
    [|destruct (chain _) as [e | r]]; eexists _, _;
    (split; [reflexivity|]); try reflexivity.
  apply required_skills_conforms.
Qed.

Lemma get_content_score_total text jt (w : world E) :
  exists d w',
    get_content_score E text jt w = (inr d, w')
    /\ conforms d ContentScoreResponse.schema = true
    /\ exists z, get d "score" (PInt 0) = PInt z.
Proof.
  unfold get_content_score. run_client.
  destruct (Ext.content_score_chain E) as [e | chain];
    [|destruct (chain _) as [e | r]]; eexists _, _;
    (split; [reflexivity|]).
  - split; [reflexivity|]. now exists 0.
  - split; [reflexivity|]. now exists 0.
  - split; [apply content_score_conforms|].
    now exists (ContentScoreResponse.score r).
Qed.

Lemma get_structure_score_total text (w : world E) :
  exists d w',
    get_structure_score E text w = (inr d, w')
    /\ conforms d StructureScoreResponse.schema = true
    /\ exists z, get d "score" (PInt 0) = PInt z.
Proof.
  unfold get_structure_score. run_client.
  destruct (Ext.structure_score_chain E) as [e | chain];
    [|destruct (chain _) as [e | r]]; eexists _, _;
    (split; [reflexivity|]).
  - split; [reflexivity|]. now exists 0.
  - split; [reflexivity|]. now exists 0.
  - split; [apply structure_score_conforms|].
    now exists (StructureScoreResponse.score r).
Qed.

Lemma get_professional_summary_suggestions_total sc rt jt (w : world E) :
  exists d w',
    get_professional_summary_suggestions E sc rt jt w = (inr d, w').
Proof.
  unfold get_professional_summary_suggestions. run_client.
  destruct (Ext.summary_chain E) as [e | chain];
    [|destruct (chain _) as [e | r]]; eexists _, _; reflexivity.
Qed.

(** When the summary chain raises, what comes back has no [key_points]. *)
Lemma summary_fallback_shape sc rt jt (w : world E) d w' :
  get_professional_summary_suggestions E sc rt jt w = (inr d, w') ->
  (exists r, d = ProfessionalSummaryResponse.model_dump r)
  \/ (exists e, d = [("options", PList []);
                     ("error", PStr ("Error generating summary: " ++ str e))]
                /\ conforms d ProfessionalSummaryResponse.schema = false).
Proof.
  unfold get_professional_summary_suggestions. run_client.
  destruct (Ext.summary_chain E) as [e | chain];
    [|destruct (chain _) as [e | r]]; intros H; inversion H; subst.
  - right. now exists e.
  - right. now exists e.
  - left. now exists r.
Qed.

End Clients.

(** ** app.py: the aggregation *)

Section App.

Variable E : Ext.t.

Lemma skills_with_category_dump tag (sets : list SkillCategory.t) :
  skills_with_category tag (map SkillCategory.model_dump sets)
  = inr (map (fun e => strs (SkillCategory.skills e))
             (filter (fun e => String.eqb (SkillCategory.category e) tag) sets)).
Proof.
  induction sets as [|e rest IH]; [reflexivity|].
  cbn [map skills_with_category SkillCategory.model_dump filter].
  change (get [("category", PStr (SkillCategory.category e));
               ("skills", strs (SkillCategory.skills e))] "category" PNone)
    with (PStr (SkillCategory.category e)).
  change (get [("category", PStr (SkillCategory.category e));
               ("skills", strs (SkillCategory.skills e))] "skills" (PList []))
    with (strs (SkillCategory.skills e)).
  cbn [str_eq]. rewrite IH.
  now destruct (String.eqb (SkillCategory.category e) tag).
Qed.

Lemma first_or_empty_filter tag (sets : list SkillCategory.t) :
  first_or_empty
    (map (fun e => strs (SkillCategory.skills e))
         (filter (fun e => String.eqb (SkillCategory.category e) tag) sets))
  = strs (spec_phrase_list tag sets).
Proof.
  induction sets as [|e rest IH]; [reflexivity|].
  cbn [filter spec_phrase_list].
  destruct (String.eqb (SkillCategory.category e) tag); [|exact IH].
  cbn [map first_or_empty]. now destruct (SkillCategory.skills e).
Qed.

(** Lines 106-110 on a dictionary whose [skill_sets] are dumped entries. *)
Lemma candidate_phrases_dump tag (d : pydict) sets (w : world E) :
  get d "skill_sets" (PList []) = PList (map SkillCategory.model_dump sets) ->
  candidate_phrases E tag d w = (inr (strs (spec_phrase_list tag sets)), w).
Proof.
  intros Hd. unfold candidate_phrases, bind, lift, ret. rewrite Hd.
  cbn [iterate]. rewrite skills_with_category_dump.
  now rewrite first_or_empty_filter.
Qed.

Lemma spec_phrase_list_first tag pre e post :
  (forall x, In x pre -> SkillCategory.category x <> tag) ->
  SkillCategory.category e = tag ->
  spec_phrase_list tag (pre ++ e :: post) = SkillCategory.skills e.
Proof.
  intros Hpre He. induction pre as [|p pre IH]; cbn [app spec_phrase_list].
  - now rewrite He, String.eqb_refl.
  - destruct (String.eqb_spec (SkillCategory.category p) tag) as [Hp | _].
    + exfalso. apply (Hpre p); [now left | exact Hp].
    + apply IH. intros x Hx. apply Hpre. now right.
Qed.

Lemma spec_phrase_list_absent tag sets :
  (forall x, In x sets -> SkillCategory.category x <> tag) ->
  spec_phrase_list tag sets = [].
Proof.
  intros H. induction sets as [|p rest IH]; [reflexivity|].
  cbn [spec_phrase_list].
  destruct (String.eqb_spec (SkillCategory.category p) tag) as [Hp | _].
  - exfalso. apply (H p); [now left | exact Hp].
  - apply IH. intros x Hx. apply H. now right.
Qed.

(** The weighted sum with the weights written first, as the specification
    writes it: float multiplication is commutative. *)
Lemma overall_weights_first (a k c s : Q) :
  overall a k c s
  = py_round (B64.round 0.5 * a + B64.round 0.3 * k
              + B64.round 0.1 * c + B64.round 0.1 * s)%b64.
Proof.
  unfold overall.
  now rewrite (mul_comm_eq a), (mul_comm_eq k), (mul_comm_eq c),
              (mul_comm_eq s).
Qed.

(** Once the singleton is there, every call of the handler returns and
    the two quality scores are integers.  When one of them has no double
    ([float] raises [OverflowError]) the handler answers with status 500;
    otherwise the response is built from the values of [runs]. *)
Lemma analyze_resume_runs jd jt rt (w w0 : world E) :
  get_instance E w = (inr tt, w0) ->
  exists l w7 cz sz,
    runs E jd jt rt w0 l w7
    /\ content_score l = PInt cz
    /\ structure_score l = PInt sz
    /\ if B64.int_overflows cz || B64.int_overflows sz
       then
         analyze_resume E jd jt rt w
         = (inl (HTTPException 500
                   "Internal server error during analysis: int too large to convert to float"),
            snd (print E
                   "Error in analyze_resume: int too large to convert to float"
                   w7))
       else
         exists improvements w8,
           get_professional_summary_suggestions E
             (PInt (py_round
                      (inject_Z
                         (overall (B64.round (ats_match_score l))
                                  (skill_match (B64.round (tech_score l))
                                               (B64.round (soft_score l)))
                                  (B64.round (inject_Z cz))
                                  (B64.round (inject_Z sz))))))
             rt jt w7 = (inr improvements, w8)
           /\ analyze_resume E jd jt rt w
              = (inr {| status_code := 200;
                        content :=
                          [("success", PBool true);
                           ("overall_score",
                            PInt (overall (B64.round (ats_match_score l))
                                          (skill_match
                                             (B64.round (tech_score l))
                                             (B64.round (soft_score l)))
                                          (B64.round (inject_Z cz))
                                          (B64.round (inject_Z sz))));
                           ("scores",
                            PDict
                              [("ats_compatibility_score",
                                PInt (py_round
                                        (B64.round (ats_match_score l))));
                               ("skill_match_score",
                                PInt (py_round
                                        (skill_match
                                           (B64.round (tech_score l))
                                           (B64.round (soft_score l)))));
                               ("content_quality_score", content_score l);
                               ("structure_score", structure_score l)]);
                           ("improvements_suggestion", PDict improvements)] |},
                 w8).
Proof.
  intros Hg.
  destruct (extract_all_skills_total E rt w0)
    as (res_skill & w1 & H1 & _ & sets & Hsets).
  destruct (get_required_skills_total E jd w1) as (req_skill & w2 & H2 & _).
  pose proof (candidate_phrases_dump "TECHNICAL" res_skill sets w2 Hsets) as Ht.
  pose proof (candidate_phrases_dump "SOFT" res_skill sets w2 Hsets) as Hs.
  destruct (score_total E (get req_skill "technical_skills" (PList []))
              (strs (spec_phrase_list "TECHNICAL" sets)) w2)
    as (tech & w3 & H3 & _).
  destruct (score_total E (get req_skill "soft_skills" (PList []))
              (strs (spec_phrase_list "SOFT" sets)) w3)
    as (soft & w4 & H4 & _).
  destruct (score_total E (PStr jd) (PStr rt) w4) as (ats & w5 & H5 & _).
  destruct (get_content_score_total E rt jt w5)
    as (ca & w6 & H6 & _ & cz & Hcz).
  destruct (get_structure_score_total E rt w6)
    as (sa & w7 & H7 & _ & sz & Hsz).
  eexists _, w7, cz, sz.
  split; [exact (runs_intro E jd jt rt w0 _ _ _ _ _ _ _ _ _ _ _ _ _ _ _ _
                            H1 H2 Ht Hs H3 H4 H5 H6 H7)|].
  cbn [content_score structure_score tech_score soft_score ats_match_score].
  split; [exact Hcz|]. split; [exact Hsz|].
  assert (Hbody :
             analyze_resume_body E jd jt rt w
             = bind E (lift E (as_float (PInt cz)))
                      (fun content_value =>
                         bind E (lift E (as_float (PInt sz)))
                              (fun structure_value =>
                                 bind E
                                   (get_professional_summary_suggestions E
                                      (PInt (py_round
                                               (inject_Z
                                                  (overall (B64.round ats)
                                                     (skill_match
                                                        (B64.round tech)
                                                        (B64.round soft))
                                                     content_value
                                                     structure_value))))
                                      rt jt)
                                   (fun improvements =>
                                      ret E
                                        {| status_code := 200;
                                           content :=
                                             [("success", PBool true);
                                              ("overall_score",
                                               PInt (overall (B64.round ats)
                                                       (skill_match
                                                          (B64.round tech)
                                                          (B64.round soft))
                                                       content_value
                                                       structure_value));
                                              ("scores",
                                               PDict
                                                 [("ats_compatibility_score",
                                                   PInt (py_round
                                                           (B64.round ats)));
                                                  ("skill_match_score",
                                                   PInt (py_round
                                                           (skill_match
                                                              (B64.round tech)
                                                              (B64.round soft))));
                                                  ("content_quality_score",
                                                   PInt cz);
                                                  ("structure_score", PInt sz)]);
                                              ("improvements_suggestion",
                                               PDict improvements)] |})))
               w7).
  { unfold analyze_resume_body.
    rewrite (bind_run E _ _ _ _ _ Hg).
    rewrite (bind_run E _ _ _ _ _ H1).
    rewrite (bind_run E _ _ _ _ _ H2).
    rewrite (bind_run E _ _ _ _ _ Ht).
    rewrite (bind_run E _ _ _ _ _ Hs).
    rewrite (bind_run E _ _ _ _ _ H3).
    rewrite (bind_run E _ _ _ _ _ H4).
    rewrite (bind_run E _ _ _ _ _ H5).
    rewrite (bind_run E _ _ _ _ _ H6).
    rewrite (bind_run E _ _ _ _ _ H7).
    rewrite Hcz, Hsz. reflexivity. }
  unfold analyze_resume. cbn [as_float] in Hbody.
  destruct (B64.int_overflows cz) eqn:Oc.
  - cbn [orb]. rewrite (try_except_inl E _ _ _ _ _ Hbody). reflexivity.
  - destruct (B64.int_overflows sz) eqn:Os; cbn [orb].
    + rewrite (try_except_inl E _ _ _ _ _ Hbody). reflexivity.
    + destruct (get_professional_summary_suggestions_total E
                  (PInt (py_round
                           (inject_Z
                              (overall (B64.round ats)
                                 (skill_match (B64.round tech)
                                              (B64.round soft))
                                 (B64.round (inject_Z cz))
                                 (B64.round (inject_Z sz))))))
                  rt jt w7) as (imp & w8 & H8).
      exists imp, w8. split; [exact H8|].
      apply try_except_inr. rewrite Hbody.
      unfold bind at 1, lift at 1. unfold bind at 1, lift at 1.
      rewrite (bind_run E _ _ _ _ _ H8), Hcz, Hsz. reflexivity.
Qed.

(** An empty candidate soft-skill list makes [soft_score] 0.0. *)
Lemma runs_soft_empty jd jt rt (w0 : world E) l w7 :
  runs E jd jt rt w0 l w7 -> soft_input l = PList [] -> soft_score l = 0%Q.
Proof.
  intros R. destruct R as [? ? req ? ? s_in ? w3 soft w4 ? ? ? ? ? ?
                             _ _ _ _ _ Hs _ _ _].
  cbn [soft_input soft_score]. intros ->.
  destruct (score_empty_r E (get req "soft_skills" (PList [])) w3)
    as (w' & Hz & _).
  rewrite Hz in Hs. now inversion Hs.
Qed.

(** The three scores of a run are whole numbers of hundredths. *)
Lemma runs_hundredths jd jt rt (w0 : world E) l w7 :
  runs E jd jt rt w0 l w7 ->
  (exists z, 0 <= z <= 10000 /\ (tech_score l == inject_Z z / 100)%Q)
  /\ (exists z, 0 <= z <= 10000 /\ (soft_score l == inject_Z z / 100)%Q)
  /\ (exists z, 0 <= z <= 10000 /\ (ats_match_score l == inject_Z z / 100)%Q).
Proof.
  intros R. destruct R as [? ? ? ? ? ? ? ? ? ? ? ? ? ? ? ?
                             _ _ _ _ H3 H4 H5 _ _].
  cbn [tech_score soft_score ats_match_score].
  split; [|split]; eapply score_hundredths; eassumption.
Qed.

(** The response shows [round(ats_match_score)] of the float; it is the
    rounding of the two-decimal score itself. *)
Lemma runs_display jd jt rt (w0 : world E) l w7 :
  runs E jd jt rt w0 l w7 ->
  py_round (B64.round (ats_match_score l)) = py_round (ats_match_score l).
Proof.
  intros R. destruct (runs_hundredths _ _ _ _ _ _ R) as (_ & _ & z & Hz & Hq).
  exact (display_stable _ z Hz Hq).
Qed.

(** C1: when the handler runs (the singleton is available), the response
    carries [overall_score = round(0.5*ats + 0.3*skill + 0.1*content +
    0.1*structure)], evaluated as Python evaluates it, in double precision
    from left to right; the four values are the ones the calls returned,
    unrounded, and the component scores shown next to it are rounded on
    their own, only for the response.  There is a response with status 200
    unless one of the two integer scores of the generative model is too
    large for a float, when the handler raises status 500. *)
Theorem overall_score_formula jd jt rt (w w0 : world E) :
  get_instance E w = (inr tt, w0) ->
  exists l w7 cz sz,
    runs E jd jt rt w0 l w7
    /\ content_score l = PInt cz
    /\ structure_score l = PInt sz
    /\ if B64.int_overflows cz || B64.int_overflows sz
       then exists detail w8,
           analyze_resume E jd jt rt w = (inl (HTTPException 500 detail), w8)
       else exists resp w8,
           analyze_resume E jd jt rt w = (inr resp, w8)
           /\ status_code resp = 200
           /\ lookup (content resp) "overall_score"
              = Some (PInt (py_round
                              (B64.round 0.5 * B64.round (ats_match_score l)
                               + B64.round 0.3
                                 * skill_match (B64.round (tech_score l))
                                               (B64.round (soft_score l))
                               + B64.round 0.1 * B64.round (inject_Z cz)
                               + B64.round 0.1 * B64.round (inject_Z sz))%b64))
           /\ lookup (content resp) "scores"
              = Some (PDict
                        [("ats_compatibility_score",
                          PInt (py_round (ats_match_score l)));
                         ("skill_match_score",
                          PInt (py_round
                                  (skill_match (B64.round (tech_score l))
                                               (B64.round (soft_score l)))));
                         ("content_quality_score", PInt cz);
                         ("structure_score", PInt sz)]).
Proof.
  intros Hg.
  destruct (analyze_resume_runs jd jt rt w w0 Hg)
    as (l & w7 & cz & sz & R & Hc & Hs & Hrun).
  exists l, w7, cz, sz.
  split; [exact R|]. split; [exact Hc|]. split; [exact Hs|].
  destruct (B64.int_overflows cz || B64.int_overflows sz).
  - eexists _, _. exact Hrun.
  - destruct Hrun as (imp & w8 & _ & Hrun).
    eexists _, w8. split; [exact Hrun|]. split; [reflexivity|].
    cbn [content lookup String.eqb Ascii.eqb Bool.eqb].
    rewrite overall_weights_first, Hc, Hs, (runs_display _ _ _ _ _ _ R).
    split; reflexivity.
Qed.

(** C2: in the handler, [skill_match_score] is
    [0.75 * tech_score + 0.25 * soft_score], evaluated in double precision,
    of the two scores the calls returned; with an empty candidate
    soft-skill list [soft_score] is 0.0 and [skill_match_score] equals
    [0.75 * tech_score]. *)
Theorem skill_match_score_formula jd jt rt (w w0 : world E) :
  get_instance E w = (inr tt, w0) ->
  (forall tech soft : Q,
      skill_match tech soft
      = (B64.round 0.75 * tech + B64.round 0.25 * soft)%b64)
  /\ (forall tech : Q,
         (skill_match tech 0 == (B64.round 0.75 * tech)%b64)%Q)
  /\ exists l w7 cz sz,
       runs E jd jt rt w0 l w7
       /\ content_score l = PInt cz
       /\ structure_score l = PInt sz
       /\ (if B64.int_overflows cz || B64.int_overflows sz
           then exists detail w8,
               analyze_resume E jd jt rt w
               = (inl (HTTPException 500 detail), w8)
           else exists resp w8 rest,
               analyze_resume E jd jt rt w = (inr resp, w8)
               /\ lookup (content resp) "scores"
                  = Some (PDict
                            (("ats_compatibility_score",
                              PInt (py_round (ats_match_score l)))
                             :: ("skill_match_score",
                                 PInt (py_round
                                         (B64.round 0.75
                                          * B64.round (tech_score l)
                                          + B64.round 0.25
                                            * B64.round (soft_score l))%b64))
                             :: rest)))
       /\ (soft_input l = PList [] ->
           soft_score l = 0%Q
           /\ (skill_match (B64.round (tech_score l))
                           (B64.round (soft_score l))
               == (B64.round 0.75 * B64.round (tech_score l))%b64)%Q).
Proof.
  intros Hg. split; [reflexivity|]. split; [exact skill_match_soft_zero|].
  destruct (analyze_resume_runs jd jt rt w w0 Hg)
    as (l & w7 & cz & sz & R & Hc & Hs & Hrun).
  exists l, w7, cz, sz.
  split; [exact R|]. split; [exact Hc|]. split; [exact Hs|]. split.
  - destruct (B64.int_overflows cz || B64.int_overflows sz).
    + eexists _, _. exact Hrun.
    + destruct Hrun as (imp & w8 & _ & Hrun).
      eexists _, w8, _. split; [exact Hrun|].
      cbn [content lookup String.eqb Ascii.eqb Bool.eqb].
      rewrite (runs_display _ _ _ _ _ _ R). reflexivity.
  - intros Hempty. pose proof (runs_soft_empty _ _ _ _ _ _ R Hempty) as H0.
    split; [exact H0|]. rewrite H0. apply skill_match_soft_zero.
Qed.

(** C5: for a category tag (matched exactly, so case-sensitively) the
    phrase list handed to [score] is the skills list of the first entry
    of [skill_sets] bearing the tag, and the empty list when there is
    none; later entries with the tag are ignored; and without a
    "TECHNICAL" entry [tech_score] is exactly 0.0, the encoder not being
    called. *)
Theorem candidate_phrases_first_match (tag : string) (cs : CandidateSkills.t)
        (w : world E) :
  candidate_phrases E tag (CandidateSkills.model_dump cs) w
  = (inr (strs (spec_phrase_list tag (CandidateSkills.skill_sets cs))), w)
  /\ (forall pre e post,
         CandidateSkills.skill_sets cs = (pre ++ e :: post)%list ->
         (forall x, In x pre -> SkillCategory.category x <> tag) ->
         SkillCategory.category e = tag ->
         candidate_phrases E tag (CandidateSkills.model_dump cs) w
         = (inr (strs (SkillCategory.skills e)), w))
  /\ ((forall x, In x (CandidateSkills.skill_sets cs) ->
                 SkillCategory.category x <> tag) ->
      candidate_phrases E tag (CandidateSkills.model_dump cs) w
      = (inr (PList []), w))
  /\ ((forall x, In x (CandidateSkills.skill_sets cs) ->
                 SkillCategory.category x <> "TECHNICAL") ->
      forall req_tech_skill,
      exists w',
        bind E (candidate_phrases E "TECHNICAL" (CandidateSkills.model_dump cs))
               (fun tech_input => score E req_tech_skill tech_input) w
        = (inr 0%Q, w')
        /\ encode_calls E w' = encode_calls E w).
Proof.
  assert (Hd : forall t,
             candidate_phrases E t (CandidateSkills.model_dump cs) w
             = (inr (strs (spec_phrase_list t (CandidateSkills.skill_sets cs))),
                w)).
  { intros t. now apply candidate_phrases_dump. }
  split; [apply Hd|]. split; [|split].
  - intros pre e post Hsets Hpre He. rewrite Hd, Hsets.
    now rewrite (spec_phrase_list_first tag pre e post Hpre He).
  - intros Hnone. rewrite Hd. now rewrite (spec_phrase_list_absent _ _ Hnone).
  - intros Hnone req. rewrite (bind_run E _ _ _ _ _ (Hd "TECHNICAL")).
    rewrite (spec_phrase_list_absent _ _ Hnone). apply score_empty_r.
Qed.

(** C9: a file whose name ends neither in ".pdf" nor in ".docx" is
    refused with status 400 by [process_uploaded_file]; the handler is
    not entered and the process state is untouched: no text extraction, no
    call to the generative model, no encoding. *)
Theorem unsupported_file_rejected jd jt (upload : UploadFile (Ext.blob E))
        (w : world E) :
  endswith (filename upload) ".pdf" = false ->
  endswith (filename upload) ".docx" = false ->
  process_uploaded_file E upload w
  = (inl (HTTPException 400
            "Unsupported File Format. Please upload .docx or .pdf"), w)
  /\ post_analyze_resume E jd jt upload w
     = (inl (HTTPException 400
               "Unsupported File Format. Please upload .docx or .pdf"), w).
Proof.
  intros Hpdf Hdocx.
  assert (Hp : process_uploaded_file E upload w
               = (inl (HTTPException 400
                         "Unsupported File Format. Please upload .docx or .pdf"),
                  w)).
  { unfold process_uploaded_file. now rewrite Hpdf, Hdocx. }
  split; [exact Hp|].
  unfold post_analyze_resume, bind. now rewrite Hp.
Qed.

(** C10: on a text of fewer than 50 characters (the empty text included)
    [extract_all_skills] returns an empty [skill_sets] with an error
    message and leaves the process state untouched, so the generative
    model is not invoked; both candidate phrase lists derived from the
    result are empty. *)
Theorem extract_all_skills_short_text (text : string) (w : world E) :
  (String.length text < 50)%nat ->
  exists d,
    extract_all_skills E text w = (inr d, w)
    /\ lookup d "skill_sets" = Some (PList [])
    /\ lookup d "error"
       = Some (PStr "Resume text is too short for skill extraction.")
    /\ candidate_phrases E "TECHNICAL" d w = (inr (PList []), w)
    /\ candidate_phrases E "SOFT" d w = (inr (PList []), w).
Proof.
  intros Hlen. eexists. unfold extract_all_skills.
  replace (Nat.ltb (String.length text) 50) with true
    by (symmetry; now apply Nat.ltb_lt).
  rewrite orb_true_r. repeat split; reflexivity.
Qed.

End App.

(** ** Worked instances *)

(** All four components at 80 give an overall score of 80. *)
Example overall_all_eighty : overall 80 80 80 80 = 80.
Proof. vm_compute. reflexivity. Qed.

(** Rounding the components before the weighted sum would change the
    result: 50.6 and 50.6 with 50 and 50 give 50, their roundings give 51. *)
Example rounding_components_first_differs :
  overall (B64.round 50.6) (B64.round 50.6) 50 50 = 50
  /\ overall (inject_Z (py_round 50.6)) (inject_Z (py_round 50.6)) 50 50 = 51.
Proof. split; vm_compute; reflexivity. Qed.

(** The sums are those of double precision, not of exact arithmetic: with
    the scores 81.19, 52.48 and 55.96 and the integers 86 and 63 the exact
    weighted sum is 71.5, which would round to 72, and the float sum lies
    just below it; with 1.4 and 1.8 the exact skill match is 1.5, and the
    float one lies just below. *)
Example overall_in_double_precision :
  overall (B64.round 81.19)
          (skill_match (B64.round 52.48) (B64.round 55.96)) 86 63 = 71
  /\ py_round (0.5 * 81.19 + 0.3 * (0.75 * 52.48 + 0.25 * 55.96)
               + 0.1 * 86 + 0.1 * 63)%Q = 72
  /\ py_round (skill_match (B64.round 1.4) (B64.round 1.8)) = 1
  /\ py_round (0.75 * 1.4 + 0.25 * 1.8)%Q = 2.
Proof. repeat split; vm_compute; reflexivity. Qed.

(** C6 (failing input): with the generative model unreachable,
    [get_professional_summary_suggestions] returns a dictionary with the
    keys [options] and [error]; the declared [ProfessionalSummaryResponse]
    requires [key_points], which is absent, so the fallback does not
    conform to the schema. *)
Theorem summary_fallback_outside_schema :
  exists d w',
    get_professional_summary_suggestions Sample.env_down (PInt 25)
      Sample.resume "Backend developer" Sample.started_down = (inr d, w')
    /\ d = [("options", PList []);
            ("error", PStr "Error generating summary: 503 Service Unavailable")]
    /\ lookup d "key_points" = None
    /\ conforms d ProfessionalSummaryResponse.schema = false.
Proof.
  eexists _, _. split; [reflexivity|]. split; [reflexivity|].
  split; reflexivity.
Qed.

(** The sibling client [check_content] keeps to its schema when the
    generative model is unreachable. *)
Example check_content_fallback_in_schema :
  exists d w',
    check_content Sample.env_down Sample.resume Sample.started_down = (inr d, w')
    /\ conforms d FeedbackResponse.schema = true.
Proof. eexists _, _. split; reflexivity. Qed.

Lemma overall_score_formula_witness :
  get_instance Sample.env Sample.started = (inr tt, Sample.started)
  /\ exists l w7 cz sz resp w8,
       runs Sample.env Sample.resume "Backend developer" Sample.resume
            Sample.started l w7
       /\ analyze_resume Sample.env Sample.resume "Backend developer"
            Sample.resume Sample.started = (inr resp, w8)
       /\ lookup (content resp) "overall_score"
          = Some (PInt (py_round
                          (B64.round 0.5 * B64.round (ats_match_score l)
                           + B64.round 0.3
                             * skill_match (B64.round (tech_score l))
                                           (B64.round (soft_score l))
                           + B64.round 0.1 * B64.round (inject_Z cz)
                           + B64.round 0.1 * B64.round (inject_Z sz))%b64)).
Proof.
  split; [reflexivity|].
  destruct (overall_score_formula Sample.env Sample.resume "Backend developer"
              Sample.resume Sample.started Sample.started eq_refl)
    as (l & w7 & cz & sz & R & _ & _ & H).
  destruct (B64.int_overflows cz || B64.int_overflows sz).
  - exfalso. destruct H as (detail & w8 & Hrun).
    vm_compute in Hrun. discriminate.
  - destruct H as (resp & w8 & Hrun & _ & Hov & _).
    exists l, w7, cz, sz, resp, w8.
    split; [exact R|]. split; [exact Hrun | exact Hov].
Defined.

Lemma skill_match_score_formula_witness :
  get_instance Sample.env Sample.started = (inr tt, Sample.started)
  /\ exists l w7,
       runs Sample.env Sample.resume "Backend developer" Sample.resume
            Sample.started l w7
       /\ (soft_input l = PList [] ->
           soft_score l = 0%Q
           /\ (skill_match (B64.round (tech_score l))
                           (B64.round (soft_score l))
               == (B64.round 0.75 * B64.round (tech_score l))%b64)%Q).
Proof.
  split; [reflexivity|].
  destruct (skill_match_score_formula Sample.env Sample.resume
              "Backend developer" Sample.resume Sample.started Sample.started
              eq_refl)
    as (_ & _ & l & w7 & cz & sz & R & _ & _ & _ & Hsoft).
  exists l, w7. split; [exact R | exact Hsoft].
Defined.

Lemma score_percentage_witness :
  exists w',
    score Sample.env (PStr "SQL") (PStr "Python") Sample.started
    = (inr (py_max 0 (py_min 100 (py_round2 ((1 # 2) * 100)))), w').
Proof.
  destruct (score_percentage Sample.env (PStr "SQL") (PStr "Python")
              Sample.started) as (_ & Htexts & _).
  exact (Htexts "SQL" "Python" Sample.model [3; 6]%nat 3%nat 6%nat (1 # 2)%Q
                eq_refl eq_refl eq_refl eq_refl eq_refl eq_refl eq_refl).
Defined.

Lemma score_absorbs_failures_witness :
  exists w2,
    score Sample.env (PStr "SQL") (PStr "Python") Sample.broken = (inr 0%Q, w2).
Proof.
  destruct (score_absorbs_failures Sample.env (PStr "SQL") (PStr "Python")
              Sample.broken) as (_ & _ & _ & Henc & _).
  exact (Henc Sample.broken_model "SQL" "Python"
              (OtherException "CUDA out of memory")
              eq_refl eq_refl eq_refl eq_refl).
Defined.



Lemma candidate_phrases_first_match_witness :
  candidate_phrases Sample.env "TECHNICAL"
    (CandidateSkills.model_dump
       {| CandidateSkills.skill_sets :=
            [ {| SkillCategory.category := "technical";
                 SkillCategory.skills := ["Excel"] |};
              {| SkillCategory.category := "TECHNICAL";
                 SkillCategory.skills := ["Python"] |};
              {| SkillCategory.category := "TECHNICAL";
                 SkillCategory.skills := ["Go"] |} ] |})
    Sample.started
  = (inr (strs ["Python"]), Sample.started).
Proof.
  destruct (candidate_phrases_first_match Sample.env "TECHNICAL"
              {| CandidateSkills.skill_sets :=
                   [ {| SkillCategory.category := "technical";
                        SkillCategory.skills := ["Excel"] |};
                     {| SkillCategory.category := "TECHNICAL";
                        SkillCategory.skills := ["Python"] |};
                     {| SkillCategory.category := "TECHNICAL";
                        SkillCategory.skills := ["Go"] |} ] |}
              Sample.started) as (_ & Hfirst & _).
  refine (Hfirst
            [ {| SkillCategory.category := "technical";
                 SkillCategory.skills := ["Excel"] |} ]
            {| SkillCategory.category := "TECHNICAL";
               SkillCategory.skills := ["Python"] |}
            [ {| SkillCategory.category := "TECHNICAL";
                 SkillCategory.skills := ["Go"] |} ]
            eq_refl _ eq_refl).
  intros x [<- | []]. simpl. discriminate.
Defined.

Lemma unsupported_file_rejected_witness :
  endswith "resume.txt" ".pdf" = false
  /\ endswith "resume.txt" ".docx" = false
  /\ post_analyze_resume Sample.env "Backend role" "Backend developer"
       {| filename := "resume.txt"; file := Sample.resume |} Sample.started
     = (inl (HTTPException 400
               "Unsupported File Format. Please upload .docx or .pdf"),
        Sample.started).
Proof.
  split; [reflexivity|]. split; [reflexivity|].
  apply (unsupported_file_rejected Sample.env "Backend role" "Backend developer"
           {| filename := "resume.txt"; file := Sample.resume |} Sample.started
           eq_refl eq_refl).
Defined.

Lemma extract_all_skills_short_text_witness :
  (String.length "Python, SQL" < 50)%nat
  /\ exists d,
       extract_all_skills Sample.env "Python, SQL" Sample.started
       = (inr d, Sample.started)
       /\ candidate_phrases Sample.env "TECHNICAL" d Sample.started
          = (inr (PList []), Sample.started)
       /\ candidate_phrases Sample.env "SOFT" d Sample.started
          = (inr (PList []), Sample.started).
Proof.
  assert (H : (String.length "Python, SQL" < 50)%nat) by (simpl; lia).
  split; [exact H|].
  destruct (extract_all_skills_short_text Sample.env "Python, SQL"
              Sample.started H) as (d & Hd & _ & _ & Ht & Hs).
  exists d. split; [exact Hd|]. split; [exact Ht | exact Hs].
Defined.

(* ===================================================================== *)
(** * Further properties *)

(** ** The arithmetic of lines 116 and 127 and of [score], continued *)

Section ArithmeticFacts.

(** X1: the overall score does not decrease when any component grows. *)
Theorem overall_monotone (a a' k k' c c' s s' : Q) :
  (a <= a')%Q -> (k <= k')%Q -> (c <= c')%Q -> (s <= s')%Q ->
  (overall a k c s <= overall a' k' c' s')%Z.
Proof. apply overall_le. Qed.

(** Line 127 on the same whole number, from 0 to 100, in all four places. *)
Lemma overall_whole_numbers :
  forallb (fun n => let q := inject_Z (Z.of_nat n) in
                    (overall q q q q =? Z.of_nat n)%Z)
          (seq 0 101) = true.
Proof. vm_compute. reflexivity. Qed.

(** X2: the weights add up to one on whole scores: an integer [z] from 0
    to 100 in all four places gives [z] back, the rounding errors of the
    four products and three sums staying below one half. *)
Theorem overall_of_equal_components (z : Z) :
  (0 <= z <= 100)%Z ->
  overall (inject_Z z) (inject_Z z) (inject_Z z) (inject_Z z) = z.
Proof.
  intros Hz. pose proof overall_whole_numbers as H.
  rewrite forallb_forall in H.
  specialize (H (Z.to_nat z)). cbv zeta beta in H.
  rewrite Z2Nat.id in H by lia.
  apply Z.eqb_eq, H. apply in_seq. lia.
Qed.

(** X3: components between 0 and 100 give an overall score between 0 and
    100, and a skill-match score between 0 and 100. *)
Theorem overall_in_range (ats tech soft c s : Q) :
  (0 <= ats <= 100)%Q -> (0 <= tech <= 100)%Q -> (0 <= soft <= 100)%Q ->
  (0 <= c <= 100)%Q -> (0 <= s <= 100)%Q ->
  (0 <= skill_match tech soft <= 100)%Q
  /\ (0 <= overall ats (skill_match tech soft) c s <= 100)%Z.
Proof.
  intros Ha Ht Hs Hc Hst.
  pose proof (skill_match_range tech soft Ht Hs) as Hk.
  split; [exact Hk | now apply overall_bounds].
Qed.

Lemma py_round2_mono (x y : Q) : (x <= y)%Q -> (py_round2 x <= py_round2 y)%Q.
Proof.
  intros H. unfold py_round2.
  assert (Hz : (py_round (x * 100) <= py_round (y * 100))%Z)
    by (apply py_round_mono; lra).
  rewrite Zle_Qle in Hz.
  unfold Qdiv; change (/ 100)%Q with (1 # 100)%Q. lra.
Qed.

(** X4: a higher cosine similarity never gives a lower score. *)
Theorem rescale_monotone (s s' : Q) :
  (s <= s')%Q -> (rescale s <= rescale s')%Q.
Proof.
  intros H. unfold rescale; cbv zeta.
  assert (Hr : (py_round2 (s * 100) <= py_round2 (s' * 100))%Q)
    by (apply py_round2_mono; lra).
  apply py_max_lub; [apply py_max_ge_l|].
  eapply Qle_trans; [|apply py_max_ge_r].
  apply py_min_glb; [apply py_min_le_l|].
  unfold py_min at 1.
  destruct (Qle_bool 100 (py_round2 (s * 100))) eqn:Hb; [|exact Hr].
  apply Qle_bool_iff in Hb. lra.
Qed.

End ArithmeticFacts.

Lemma overall_monotone_witness :
  (50 <= 60)%Q /\ (overall 50 70 80 90 <= overall 60 70 80 90)%Z.
Proof.
  assert (H : (50 <= 60)%Q) by (unfold Qle; simpl; lia).
  split; [exact H|].
  apply (overall_monotone 50 60 70 70 80 80 90 90 H);
    unfold Qle; simpl; lia.
Defined.

Lemma overall_of_equal_components_witness :
  (0 <= 80 <= 100)%Z /\ overall 80 80 80 80 = 80.
Proof.
  assert (H : (0 <= 80 <= 100)%Z) by lia.
  split; [exact H | exact (overall_of_equal_components 80 H)].
Defined.

(** Between whole numbers the float sum need not round as the common
    value does: four components 6.5 give 7, [round(6.5)] being 6. *)
Example overall_of_equal_halves :
  overall (B64.round 6.5) (B64.round 6.5) (B64.round 6.5) (B64.round 6.5) = 7
  /\ py_round 6.5 = 6.
Proof. split; vm_compute; reflexivity. Qed.

Lemma overall_in_range_witness :
  (0 <= overall 100 (skill_match 100 100) 100 100 <= 100)%Z.
Proof.
  apply (overall_in_range 100 100 100 100 100); unfold Qle; simpl; lia.
Defined.

Lemma rescale_monotone_witness :
  ((1 # 3) <= (1 # 2))%Q /\ (rescale (1 # 3) <= rescale (1 # 2))%Q.
Proof.
  assert (H : ((1 # 3) <= (1 # 2))%Q) by (unfold Qle; simpl; lia).
  split; [exact H | exact (rescale_monotone _ _ H)].
Defined.

(** ** What the calls change *)

Section Frames.

Variable E : Ext.t.

Lemma within_refl (w : world E) : within 0 0 w w.
Proof.
  unfold within. repeat split; try lia. exists []. now rewrite app_nil_r.
Qed.

Lemma within_trans de dq de' dq' (w w1 w2 : world E) :
  within de dq w w1 -> within de' dq' w1 w2 ->
  within (de + de') (dq + dq') w w2.
Proof.
  intros (Hn & Hi & Hm & He & Ho & l1 & Hl1)
         (Hn' & Hi' & Hm' & He' & Ho' & l2 & Hl2).
  unfold within. repeat split; try congruence; try lia.
  exists (l1 ++ l2)%list. rewrite Hl2, Hl1. now rewrite app_assoc.
Qed.

Lemma within_weaken de dq de' dq' (w w' : world E) :
  (de <= de')%nat -> (dq <= dq')%nat ->
  within de dq w w' -> within de' dq' w w'.
Proof.
  intros Hde Hdq (Hn & Hi & Hm & He & Ho & Hl).
  unfold within. repeat split; try assumption; lia.
Qed.

Lemma within_print line (w : world E) :
  within 0 0 w (snd (print E line w)).
Proof.
  unfold within, print; cbn. repeat split; try lia. now exists [line].
Qed.

Lemma within_tick_encode (w : world E) :
  within 1 0 w (snd (tick_encode E w)).
Proof.
  unfold within, tick_encode; cbn. repeat split; try lia.
  exists []. now rewrite app_nil_r.
Qed.

Lemma within_tick_oracle (w : world E) :
  within 0 1 w (snd (tick_oracle E w)).
Proof.
  unfold within, tick_oracle; cbn. repeat split; try lia.
  exists []. now rewrite app_nil_r.
Qed.

(** The handlers of [score] only print. *)
Lemma score_recovers_within a b (w : world E) e w1 :
  score_body E a b w = (inl e, w1) ->
  exists w2, score E a b w = (inr 0%Q, w2) /\ within 0 0 w1 w2.
Proof.
  intros Hb. destruct (score_recovers E _ _ _ _ _ Hb) as [line Hs].
  eexists. split; [exact Hs|]. apply (within_print line w1).
Qed.

(** Where the [try] block of [score] leaves the process. *)
Lemma score_body_within a b (w : world E) r w1 :
  score_body E a b w = (r, w1) -> within 2 0 w w1.
Proof.
  unfold score_body.
  destruct (SemanticModel_model E w) as [model|].
  2:{ unfold raise. intros H; inversion H; subst.
      apply (within_weaken 0 0); [lia | lia | apply within_refl]. }
  assert (Hz : forall x : exn + Q, (x, w) = (r, w1) -> within 2 0 w w1).
  { intros x H; inversion H; subst.
    apply (within_weaken 0 0); [lia | lia | apply within_refl]. }
  assert (H1 : within 2 0 w (snd (tick_encode E w))).
  { apply (within_weaken 1 0); [lia | lia | apply within_tick_encode]. }
  assert (H2 : within 2 0 w (snd (tick_encode E (snd (tick_encode E w))))).
  { apply (within_trans 1 0 1 0 w _ _ (within_tick_encode w)).
    apply within_tick_encode. }
  destruct a, b; try (unfold ret; apply Hz).
  - unfold bind, call_encode, bind, lift, row, score_of, bind, lift, ret, raise.
    cbn [tick_encode fst snd] in *.
    destruct (encode model _) as [e | rows];
      [intros H; inversion H; subst; exact H1|].
    destruct (nth_error rows 0) as [e1|];
      [|intros H; inversion H; subst; exact H1].
    destruct (nth_error rows 1) as [e2|];
      [|intros H; inversion H; subst; exact H1].
    destruct (Ext.cos_sim E e1 e2); intros H; inversion H; subst; exact H1.
  - destruct (negb (truthy (PList l)) || negb (truthy (PList l0)));
      [unfold ret; apply Hz|].
    unfold bind, call_encode, bind, lift, score_of, bind, lift, ret.
    cbn [tick_encode fst snd] in *.
    destruct (encode model l) as [e | r1];
      [intros H; inversion H; subst; exact H1|].
    destruct (encode model l0) as [e | r2];
      [intros H; inversion H; subst; exact H2|].
    destruct (Ext.cos_sim E _ _); intros H; inversion H; subst; exact H2.
Qed.

Lemma score_within a b (w : world E) q w' :
  score E a b w = (inr q, w') -> within 2 0 w w'.
Proof.
  intros Hs.
  destruct (score_body E a b w) as [[e | q1] w1] eqn:Hb.
  - destruct (score_recovers_within _ _ _ _ _ Hb) as (w2 & Hs2 & Hw).
    rewrite Hs2 in Hs. inversion Hs; subst.
    apply (within_trans 2 0 0 0 w w1 w'); [|exact Hw].
    eapply score_body_within; eauto.
  - rewrite (score_returns E _ _ _ _ _ Hb) in Hs. inversion Hs; subst.
    eapply score_body_within; eauto.
Qed.

End Frames.

(** ** models/matcher.py, further *)

Section MatcherFurther.

Variable E : Ext.t.

(** X5: whatever its arguments and the state of the process, [score]
    returns a whole number of hundredths between 0 and 100, leaves the
    environment, the singleton and the count of generative-model calls as
    they were, calls the encoder at most twice and only appends to
    standard output. *)
Theorem score_footprint (a b : pyval) (w : world E) :
  exists q w',
    score E a b w = (inr q, w')
    /\ within 2 0 w w'
    /\ exists z : Z, (0 <= z <= 10000)%Z /\ (q == inject_Z z / 100)%Q.
Proof.
  destruct (score_total E a b w) as (q & w' & Hs & _).
  exists q, w'. split; [exact Hs|]. split; [eapply score_within; eauto|].
  destruct (score_body E a b w) as [[e | q1] w1] eqn:Hb.
  - destruct (score_recovers E _ _ _ _ _ Hb) as [line Hs2].
    rewrite Hs2 in Hs. inversion Hs; subst.
    exists 0%Z. split; [lia | reflexivity].
  - rewrite (score_returns E _ _ _ _ _ Hb) in Hs. inversion Hs; subst.
    destruct (score_body_value E _ _ _ _ _ Hb) as [-> | [sim ->]].
    + exists 0%Z. split; [lia | reflexivity].
    + apply rescale_hundredths.
Qed.

(** X6: when the two arguments are neither both strings nor both lists
    (a text against a phrase list, a [None], a number), [score] returns 0.0
    without calling the encoder. *)
Theorem score_mismatched_shapes (a b : pyval) (w : world E) :
  (is_str a && is_str b) || (is_list a && is_list b) = false ->
  exists w', score E a b w = (inr 0%Q, w')
             /\ encode_calls E w' = encode_calls E w.
Proof.
  intros Hshape.
  destruct (SemanticModel_model E w) as [model|] eqn:Hm.
  - exists w. split; [|reflexivity]. apply score_returns.
    unfold score_body. rewrite Hm.
    destruct a, b; try reflexivity; discriminate.
  - assert (Hb : score_body E a b w
                 = (inl (RuntimeError "Semantic Model is not loaded."), w)).
    { unfold score_body. now rewrite Hm. }
    destruct (score_recovers E _ _ _ _ _ Hb) as [line Hs].
    eexists. split; [exact Hs | reflexivity].
Qed.

(** X7: with the model loaded, two texts cost exactly one encoder call
    (one batch); two non-empty lists cost two calls, and only one when the
    first raises. *)
Theorem score_encoder_calls (w : world E) model :
  SemanticModel_model E w = Some model ->
  (forall s t, exists q w',
      score E (PStr s) (PStr t) w = (inr q, w')
      /\ encode_calls E w' = S (encode_calls E w))
  /\ (forall j jl r rl, exists q w',
         score E (PList (j :: jl)) (PList (r :: rl)) w = (inr q, w')
         /\ encode_calls E w'
            = match encode model (j :: jl) with
              | inl _ => S (encode_calls E w)
              | inr _ => S (S (encode_calls E w))
              end).
Proof.
  intros Hm. split.
  - intros s t. unfold score, try_except, score_body. rewrite Hm.
    unfold bind, call_encode, bind, lift, row, score_of, bind, lift, ret,
           raise, tick_encode, print.
    destruct (encode model _) as [e | rows];
      [destruct e; eexists _, _; split; reflexivity|].
    destruct (nth_error rows 0) as [e1|];
      [|eexists _, _; split; reflexivity].
    destruct (nth_error rows 1) as [e2|];
      [|eexists _, _; split; reflexivity].
    destruct (Ext.cos_sim E e1 e2) as [e | sim];
      [destruct e|]; eexists _, _; split; reflexivity.
  - intros j jl r rl. unfold score, try_except, score_body. rewrite Hm.
    cbn [truthy negb orb].
    unfold bind, call_encode, bind, lift, score_of, bind, lift, ret,
           raise, tick_encode, print.
    destruct (encode model (j :: jl)) as [e | r1];
      [destruct e; eexists _, _; split; reflexivity|].
    destruct (encode model (r :: rl)) as [e | r2];
      [destruct e; eexists _, _; split; reflexivity|].
    destruct (Ext.cos_sim E _ _) as [e | sim];
      [destruct e|]; eexists _, _; split; reflexivity.
Qed.

(** X8: a successful [get_instance] leaves the singleton set, and calling
    it again changes nothing; when it had to create the singleton, the
    model is loaded and the singleton carries the non-empty [MODEL_NAME]. *)
Theorem get_instance_settles (w w0 : world E) :
  get_instance E w = (inr tt, w0) ->
  SemanticModel_instance E w0 <> None
  /\ get_instance E w0 = (inr tt, w0)
  /\ (SemanticModel_instance E w <> None -> w0 = w)
  /\ (SemanticModel_instance E w = None ->
      SemanticModel_model E w0 <> None
      /\ exists name,
           MODEL_NAME E w = Some name /\ name <> EmptyString
           /\ SemanticModel_instance E w0 = Some name).
Proof.
  unfold get_instance at 1. unfold bind at 1. unfold read at 1.
  destruct (SemanticModel_instance E w) as [i|] eqn:Hi.
  - unfold ret. intros H; inversion H; subst.
    split; [congruence|]. split.
    + unfold get_instance, bind, read. now rewrite Hi.
    + split; [reflexivity | congruence].
  - unfold bind at 1. unfold read at 1.
    destruct (MODEL_NAME E w) as [name|] eqn:Hn; [|discriminate].
    cbn [truthy].
    destruct (String.eqb_spec name EmptyString) as [-> | Hne];
      cbn [negb]; [discriminate|].
    unfold SemanticModel_init, bind, read, try_except, lift, set_model,
           set_instance, print, raise. cbn. rewrite Hi.
    destruct (Ext.cuda_is_available E) as [e | cuda]; [discriminate|].
    destruct (Ext.load_SentenceTransformer E name _) as [e | m];
      [discriminate|].
    intros H; inversion H; subst; cbn.
    split; [discriminate|]. split.
    + unfold get_instance, bind, read. reflexivity.
    + split; [congruence|]. intros _. split; [discriminate|].
      now exists name.
Qed.

(** X9: a failed [get_instance] found no singleton and leaves none: it
    raises [EnvironmentError] with the process untouched when [MODEL_NAME]
    is missing or empty, and otherwise the fixed [RuntimeError] of a
    failed load, the model handle being as before. *)
Theorem get_instance_failure (w w' : world E) e :
  get_instance E w = (inl e, w') ->
  SemanticModel_instance E w = None
  /\ SemanticModel_instance E w' = None
  /\ SemanticModel_model E w' = SemanticModel_model E w
  /\ encode_calls E w' = encode_calls E w
  /\ oracle_calls E w' = oracle_calls E w
  /\ ((e = EnvironmentError
             "MODEL_NAME environment variable is not set. Cannot initialize the scoring model."
       /\ w' = w
       /\ (MODEL_NAME E w = None \/ MODEL_NAME E w = Some EmptyString))
      \/ (e = RuntimeError
                "Could not load Sentence Transformer model. Check model name and internet connection."
          /\ exists name, MODEL_NAME E w = Some name /\ name <> EmptyString)).
Proof.
  unfold get_instance, bind at 1, read at 1.
  destruct (SemanticModel_instance E w) as [i|] eqn:Hi; [discriminate|].
  unfold bind at 1, read at 1.
  destruct (MODEL_NAME E w) as [name|] eqn:Hn.
  2:{ unfold raise. intros H; inversion H; subst.
      do 5 (split; [solve [auto]|]). left. repeat split; auto. }
  cbn [truthy].
  destruct (String.eqb_spec name EmptyString) as [-> | Hne]; cbn [negb].
  { unfold raise. intros H; inversion H; subst.
    do 5 (split; [solve [auto]|]). left. repeat split; auto. }
  unfold SemanticModel_init, bind, read, try_except, lift, set_model,
         set_instance, print, raise. cbn. rewrite Hi.
  destruct (Ext.cuda_is_available E) as [e0 | cuda].
  { intros H; inversion H; subst; cbn. do 5 (split; [solve [auto]|]).
    right. split; [reflexivity|]. now exists name. }
  destruct (Ext.load_SentenceTransformer E name _) as [e0 | m];
    [|discriminate].
  intros H; inversion H; subst; cbn. do 5 (split; [solve [auto]|]).
  right. split; [reflexivity|]. now exists name.
Qed.

End MatcherFurther.

(** ** models/extractor.py and the upload step *)

Section Stripping.

Lemma lstrip_fixed c r : is_space c = false -> lstrip (String c r) = String c r.
Proof. intros H. cbn [lstrip]. now rewrite H. Qed.

Lemma lstrip_head s c r : lstrip s = String c r -> is_space c = false.
Proof.
  induction s as [|d s IH]; cbn [lstrip]; [discriminate|].
  destruct (is_space d) eqn:Hd; [exact IH|].
  intros H; inversion H; subst. exact Hd.
Qed.

Lemma rstrip_cons c t d u :
  rstrip t = String d u -> rstrip (String c t) = String c (String d u).
Proof. intros H. cbn [rstrip]. now rewrite H. Qed.

Lemma rstrip_idem s : rstrip (rstrip s) = rstrip s.
Proof.
  induction s as [|c s IH]; [reflexivity|].
  cbn [rstrip]. destruct (rstrip s) as [|d u] eqn:Hu.
  - destruct (is_space c) eqn:Hc; [reflexivity|].
    cbn [rstrip]. now rewrite Hc.
  - now apply rstrip_cons.
Qed.

Lemma rstrip_keeps_head c r :
  is_space c = false -> exists r', rstrip (String c r) = String c r'.
Proof.
  intros Hc. cbn [rstrip]. destruct (rstrip r) as [|d u].
  - rewrite Hc. now exists EmptyString.
  - now exists (String d u).
Qed.

(** [strip] returns a string that [strip] leaves alone. *)
Lemma strip_idem s : strip (strip s) = strip s.
Proof.
  unfold strip. destruct (lstrip s) as [|c r] eqn:Hl; [reflexivity|].
  pose proof (lstrip_head _ _ _ Hl) as Hc.
  destruct (rstrip_keeps_head c r Hc) as [r' Hr]. rewrite Hr.
  rewrite (lstrip_fixed c r' Hc). rewrite <- Hr. apply rstrip_idem.
Qed.

Lemma strip_parts s : lstrip (strip s) = strip s /\ rstrip (strip s) = strip s.
Proof.
  unfold strip. split; [|apply rstrip_idem].
  destruct (lstrip s) as [|c r] eqn:Hl; [reflexivity|].
  pose proof (lstrip_head _ _ _ Hl) as Hc.
  destruct (rstrip_keeps_head c r Hc) as [r' Hr]. rewrite Hr.
  now apply lstrip_fixed.
Qed.

Lemma lstrip_app a b :
  a <> EmptyString -> lstrip a = a -> lstrip (a ++ b) = (a ++ b)%string.
Proof.
  destruct a as [|c r]; [congruence|]. intros _ H.
  assert (Hc : is_space c = false) by (eapply lstrip_head; eauto).
  cbn [append]. now apply lstrip_fixed.
Qed.

Lemma append_nonempty_r a b : b <> EmptyString -> (a ++ b)%string <> EmptyString.
Proof. destruct a; cbn [append]; [auto | discriminate]. Qed.

Lemma rstrip_app a b :
  b <> EmptyString -> rstrip b = b -> rstrip (a ++ b) = (a ++ b)%string.
Proof.
  intros Hb Hr. induction a as [|c a IH]; [exact Hr|].
  cbn [append rstrip]. rewrite IH.
  destruct (a ++ b)%string eqn:Hab; [|reflexivity].
  exfalso. now apply (append_nonempty_r a b Hb).
Qed.

(** Joining non-empty stripped pieces gives a stripped string. *)
Lemma concat_stripped sep (pieces : list string) :
  Forall (fun p => p <> EmptyString /\ lstrip p = p /\ rstrip p = p) pieces ->
  let joined := String.concat sep pieces in
  lstrip joined = joined /\ rstrip joined = joined
  /\ (pieces <> [] -> joined <> EmptyString).
Proof.
  cbv zeta. induction 1 as [|p rest (Hne & Hl & Hr) Hrest IH].
  - repeat split; congruence.
  - destruct rest as [|q rest'].
    + cbn [String.concat]. repeat split; auto.
    + destruct IH as (IHl & IHr & IHne).
      assert (Hq : String.concat sep (q :: rest') <> EmptyString)
        by (apply IHne; discriminate).
      change (String.concat sep (p :: q :: rest'))
        with (p ++ sep ++ String.concat sep (q :: rest'))%string.
      split; [now apply lstrip_app|]. split.
      * apply rstrip_app;
          [apply append_nonempty_r; exact Hq | now apply rstrip_app].
      * intros _. destruct p; [congruence | discriminate].
Qed.

End Stripping.

Section ExtractorFurther.

Variable E : Ext.t.

(** X10: [extract_text_from_pdf] never raises.  Its result carries no white
    space at either end; it is empty, with one line printed, when the
    reader raises, and empty when no page has text.  The process is
    otherwise untouched. *)
Theorem extract_text_from_pdf_outcomes (f : Ext.blob E) (w : world E) :
  exists text w',
    extract_text_from_pdf E f w = (inr text, w')
    /\ strip text = text
    /\ within 0 0 w w'
    /\ (forall e, Ext.pdf_pages E f = inl e ->
                  text = EmptyString
                  /\ stdout E w'
                     = (stdout E w
                        ++ [("Error extracting text from PDF: " ++ str e)%string])%list)
    /\ (forall pages, Ext.pdf_pages E f = inr pages ->
                      w' = w
                      /\ (Forall (fun p => p = None \/ p = Some EmptyString)
                                 pages -> text = EmptyString)).
Proof.
  unfold extract_text_from_pdf, try_except, bind, lift, ret.
  destruct (Ext.pdf_pages E f) as [e | pages].
  - eexists _, _. split; [reflexivity|]. split; [reflexivity|].
    split; [apply (within_print E _ w)|]. split.
    + intros e0 H; inversion H; subst. split; reflexivity.
    + discriminate.
  - eexists _, _. split; [reflexivity|]. split; [apply strip_idem|].
    split; [apply within_refl|]. split; [discriminate|].
    intros pages0 H; inversion H; subst. clear H. split; [reflexivity|].
    intros Hblank.
    assert (Hfold : forall acc,
               fold_left
                 (fun text page_text =>
                    match page_text with
                    | Some p => if truthy (PStr p)
                                then (text ++ p ++ newline)%string else text
                    | None => text
                    end) pages0 acc = acc).
    { induction Hblank as [|p rest [-> | ->] _ IH]; intros acc;
        cbn [fold_left]; [reflexivity | apply IH | apply IH]. }
    now rewrite Hfold.
Qed.

(** X11: [extract_text_from_docx] never raises.  Its result carries no
    white space at either end; it is empty, with one line printed, when the
    reader raises, and empty when every paragraph is blank. *)
Theorem extract_text_from_docx_outcomes (f : Ext.blob E) (w : world E) :
  exists text w',
    extract_text_from_docx E f w = (inr text, w')
    /\ strip text = text
    /\ within 0 0 w w'
    /\ (forall e, Ext.docx_paragraphs E f = inl e ->
                  text = EmptyString
                  /\ stdout E w'
                     = (stdout E w
                        ++ [("Error extracting text from DOCX: " ++ str e)%string])%list)
    /\ (forall paras, Ext.docx_paragraphs E f = inr paras ->
                      w' = w
                      /\ (Forall (fun p => strip p = EmptyString) paras ->
                          text = EmptyString)).
Proof.
  unfold extract_text_from_docx, try_except, bind, lift, ret.
  destruct (Ext.docx_paragraphs E f) as [e | paras].
  - eexists _, _. split; [reflexivity|]. split; [reflexivity|].
    split; [apply (within_print E _ w)|]. split.
    + intros e0 H; inversion H; subst. split; reflexivity.
    + discriminate.
  - eexists _, _. split; [reflexivity|]. split.
    + assert (Hp : Forall (fun p => p <> EmptyString /\ lstrip p = p
                                    /\ rstrip p = p)
                     (map strip
                        (filter (fun p => truthy (PStr (strip p))) paras))).
      { apply Forall_forall. intros p Hin. apply in_map_iff in Hin.
        destruct Hin as (x & <- & Hx). apply filter_In in Hx.
        destruct Hx as [_ Hx]. cbn [truthy] in Hx.
        split; [|apply strip_parts].
        intros Heq. rewrite Heq in Hx. discriminate. }
      pose proof (concat_stripped newline _ Hp) as Hc. cbv zeta in Hc.
      destruct Hc as (Hl & Hr & _).
      unfold strip at 1. rewrite Hl. exact Hr.
    + split; [apply within_refl|]. split; [discriminate|].
      intros paras0 H; inversion H; subst. clear H. split; [reflexivity|].
      intros Hblank.
      assert (Hf : filter (fun p => truthy (PStr (strip p))) paras0 = []).
      { induction Hblank as [|p rest Hp _ IH]; [reflexivity|].
        cbn [filter truthy]. now rewrite Hp. }
      now rewrite Hf.
Qed.

Lemma extract_text_from_pdf_run (f : Ext.blob E) (w : world E) :
  exists text w',
    extract_text_from_pdf E f w = (inr text, w')
    /\ strip text = text /\ within 0 0 w w'.
Proof.
  unfold extract_text_from_pdf, try_except, bind, lift, ret.
  destruct (Ext.pdf_pages E f) as [e | pages]; eexists _, _;
    (split; [reflexivity|]).
  - split; [reflexivity | apply (within_print E _ w)].
  - split; [apply strip_idem | apply within_refl].
Qed.

Lemma extract_text_from_docx_run (f : Ext.blob E) (w : world E) :
  exists text w',
    extract_text_from_docx E f w = (inr text, w')
    /\ strip text = text /\ within 0 0 w w'.
Proof.
  unfold extract_text_from_docx, try_except, bind, lift, ret.
  destruct (Ext.docx_paragraphs E f) as [e | paras]; eexists _, _;
    (split; [reflexivity|]).
  - split; [reflexivity | apply (within_print E _ w)].
  - split; [|apply within_refl].
    assert (Hp : Forall (fun p => p <> EmptyString /\ lstrip p = p
                                  /\ rstrip p = p)
                   (map strip
                      (filter (fun p => truthy (PStr (strip p))) paras))).
    { apply Forall_forall. intros p Hin. apply in_map_iff in Hin.
      destruct Hin as (x & <- & Hx). apply filter_In in Hx.
      destruct Hx as [_ Hx]. cbn [truthy] in Hx.
      split; [|apply strip_parts].
      intros Heq. rewrite Heq in Hx. discriminate. }
    pose proof (concat_stripped newline _ Hp) as Hc. cbv zeta in Hc.
    destruct Hc as (Hl & Hr & _).
    unfold strip at 1. rewrite Hl. exact Hr.
Qed.

(** X12: [process_uploaded_file] either returns a non-empty text without
    white space at its ends, read from a file whose name ends in ".pdf" or
    ".docx", or raises [HTTPException] with status 400; no status 500
    leaves it, no call goes to the encoder or the generative model, and
    the singleton is untouched. *)
Theorem process_uploaded_file_outcomes (upload : UploadFile (Ext.blob E))
        (w : world E) :
  exists w',
    within 0 0 w w'
    /\ ((exists text,
            process_uploaded_file E upload w = (inr text, w')
            /\ text <> EmptyString
            /\ strip text = text
            /\ (endswith (filename upload) ".pdf" = true
                \/ endswith (filename upload) ".docx" = true))
        \/ (exists detail,
               process_uploaded_file E upload w
               = (inl (HTTPException 400 detail), w'))).
Proof.
  unfold process_uploaded_file.
  destruct (endswith (filename upload) ".pdf") eqn:Hpdf.
  - cbn [orb negb].
    destruct (extract_text_from_pdf_run (file upload) w)
      as (text & w' & Hx & Hs & Hw).
    exists w'. split; [exact Hw|].
    unfold try_except, bind. rewrite Hx. rewrite Hs. cbn [truthy].
    destruct (String.eqb_spec text EmptyString) as [-> | Hne]; cbn [negb orb].
    + right. eexists. reflexivity.
    + destruct text as [|c r]; [congruence|]. cbn [String.length Nat.eqb].
      left. eexists. split; [reflexivity|]. split; [discriminate|].
      split; [exact Hs | now left].
  - destruct (endswith (filename upload) ".docx") eqn:Hdocx; cbn [orb negb].
    + destruct (extract_text_from_docx_run (file upload) w)
        as (text & w' & Hx & Hs & Hw).
      exists w'. split; [exact Hw|].
      unfold try_except, bind. rewrite Hx. rewrite Hs. cbn [truthy].
      destruct (String.eqb_spec text EmptyString) as [-> | Hne];
        cbn [negb orb].
      * right. eexists. reflexivity.
      * destruct text as [|c r]; [congruence|]. cbn [String.length Nat.eqb].
        left. eexists. split; [reflexivity|]. split; [discriminate|].
        split; [exact Hs | now right].
    + exists w. split; [apply within_refl|]. right. eexists. reflexivity.
Qed.

End ExtractorFurther.

(** ** The generative-model clients, further *)

Section ClientShape.

Variable E : Ext.t.
Context {T : Type} (c : exn + Runnable T) (input : pydict)
        (dump : T -> pydict) (fallback : exn -> pydict).

(** The shape shared by the clients of [models/rewriter.py]. *)
Lemma client_outcome (w : world E) :
  exists d w',
    try_except E
      (bind E (lift E c) (fun chain =>
       bind E (invoke E chain input) (fun result => ret E (dump result))))
      (fun e => ret E (fallback e)) w = (inr d, w')
    /\ within 0 1 w w'
    /\ match chain_raises c input with
       | Some e => d = fallback e
       | None => (exists r, d = dump r)
                 /\ oracle_calls E w' = S (oracle_calls E w)
       end.
Proof.
  unfold try_except, bind, lift, invoke, bind, lift, ret, chain_raises.
  destruct c as [e | chain].
  - exists (fallback e), w. split; [reflexivity|].
    split; [|reflexivity].
    apply (within_weaken E 0 0); [lia | lia | apply within_refl].
  - cbn [tick_oracle]. destruct (chain input) as [e | r].
    + eexists _, _. split; [reflexivity|].
      split; [apply (within_tick_oracle E w) | reflexivity].
    + eexists _, _. split; [reflexivity|].
      split; [apply (within_tick_oracle E w)|].
      split; [now exists r | reflexivity].
Qed.

End ClientShape.

Section ClientsFurther.

Variable E : Ext.t.

(** X14: [get_required_skills] never raises and returns a dictionary of its
    declared schema, after at most one call to the generative model; when
    building or invoking the chain raises, both skill lists are empty and
    the message is kept under [error]. *)
Theorem get_required_skills_outcomes (jd : string) (w : world E) :
  exists d w',
    get_required_skills E jd w = (inr d, w')
    /\ within 0 1 w w'
    /\ conforms d RequiredSkillsResponse.schema = true
    /\ forall e,
         chain_raises (Ext.required_skills_chain E)
                      [("job_description", PStr jd)] = Some e ->
         d = [("technical_skills", PList []); ("soft_skills", PList []);
              ("error", PStr ("Error generating skills: " ++ str e))].
Proof.
  destruct (client_outcome E (Ext.required_skills_chain E)
              [("job_description", PStr jd)]
              RequiredSkillsResponse.model_dump
              (fun e => [("technical_skills", PList []);
                         ("soft_skills", PList []);
                         ("error", PStr ("Error generating skills: " ++ str e))])
              w) as (d & w' & Hrun & Hw & Hcase).
  exists d, w'. split; [exact Hrun|]. split; [exact Hw|].
  destruct (chain_raises _ _) as [e|].
  - subst d. split; [reflexivity|]. intros e0 H; now inversion H.
  - destruct Hcase as [[r ->] _].
    split; [apply required_skills_conforms | discriminate].
Qed.

(** X15: [get_content_score] and [get_structure_score] never raise and
    return dictionaries of their declared schemas, each after at most one
    call to the generative model; when the chain raises, the score is 0
    and the reasoning carries the message. *)
Theorem quality_scores_outcomes (text jt : string) (w : world E) :
  (exists d w',
      get_content_score E text jt w = (inr d, w')
      /\ within 0 1 w w'
      /\ conforms d ContentScoreResponse.schema = true
      /\ forall e,
           chain_raises (Ext.content_score_chain E)
                        [("job_title", PStr jt); ("text", PStr text)] = Some e ->
           d = [("score", PInt 0);
                ("reasoning", PStr ("Failed to analyze resume: " ++ str e));
                ("missing_keywords", PList []); ("improvement_tips", PList [])])
  /\ (exists d w',
         get_structure_score E text w = (inr d, w')
         /\ within 0 1 w w'
         /\ conforms d StructureScoreResponse.schema = true
         /\ forall e,
              chain_raises (Ext.structure_score_chain E)
                           [("text", PStr text)] = Some e ->
              d = [("score", PInt 0);
                   ("reasoning",
                    PStr ("Error during structure scoring: " ++ str e))]).
Proof.
  split.
  - destruct (client_outcome E (Ext.content_score_chain E)
                [("job_title", PStr jt); ("text", PStr text)]
                ContentScoreResponse.model_dump
                (fun e => [("score", PInt 0);
                           ("reasoning",
                            PStr ("Failed to analyze resume: " ++ str e));
                           ("missing_keywords", PList []);
                           ("improvement_tips", PList [])])
                w) as (d & w' & Hrun & Hw & Hcase).
    exists d, w'. split; [exact Hrun|]. split; [exact Hw|].
    destruct (chain_raises _ _) as [e|].
    + subst d. split; [reflexivity|]. intros e0 H; now inversion H.
    + destruct Hcase as [[r ->] _].
      split; [apply content_score_conforms | discriminate].
  - destruct (client_outcome E (Ext.structure_score_chain E)
                [("text", PStr text)]
                StructureScoreResponse.model_dump
                (fun e => [("score", PInt 0);
                           ("reasoning",
                            PStr ("Error during structure scoring: " ++ str e))])
                w) as (d & w' & Hrun & Hw & Hcase).
    exists d, w'. split; [exact Hrun|]. split; [exact Hw|].
    destruct (chain_raises _ _) as [e|].
    + subst d. split; [reflexivity|]. intros e0 H; now inversion H.
    + destruct Hcase as [[r ->] _].
      split; [apply structure_score_conforms | discriminate].
Qed.

Lemma feedback_conforms (r : FeedbackResponse.t) :
  conforms (FeedbackResponse.model_dump r) FeedbackResponse.schema = true.
Proof.
  destruct r as [kp hi]. unfold conforms. cbn.
  pose proof (strs_has_type kp) as H. cbn in H. now rewrite H.
Qed.

Lemma feedback_client_outcome c input (prefix : string) (w : world E) :
  exists d w',
    try_except E
      (bind E (lift E c) (fun chain =>
       bind E (invoke E chain input) (fun result =>
       ret E (FeedbackResponse.model_dump result))))
      (fun e => ret E [("key_points", PList [PStr (prefix ++ str e)]);
                       ("has_issues", PBool true)]) w = (inr d, w')
    /\ within 0 1 w w'
    /\ conforms d FeedbackResponse.schema = true
    /\ forall e,
         chain_raises c input = Some e ->
         d = [("key_points", PList [PStr (prefix ++ str e)]);
              ("has_issues", PBool true)].
Proof.
  destruct (client_outcome E c input FeedbackResponse.model_dump
              (fun e => [("key_points", PList [PStr (prefix ++ str e)]);
                         ("has_issues", PBool true)])
              w) as (d & w' & Hrun & Hw & Hcase).
  exists d, w'. split; [exact Hrun|]. split; [exact Hw|].
  destruct (chain_raises _ _) as [e|].
  - subst d. split; [reflexivity|]. intros e0 H; now inversion H.
  - destruct Hcase as [[r ->] _].
    split; [apply feedback_conforms | discriminate].
Qed.

End ClientsFurther.

Section FeedbackClients.

Variable F : FeedbackExt.t.

Local Abbreviation E := (FeedbackExt.base F).

(** X16: [optimize_structure], [check_content] and [check_tone_and_style]
    never raise and return dictionaries of the [FeedbackResponse] schema,
    each after at most one call to the generative model; when the chain
    raises, [has_issues] is [True] and the single key point is the error
    message. *)
Theorem feedback_clients_outcomes (text : string) (w : world E) :
  (exists d w',
      optimize_structure F text w = (inr d, w')
      /\ within 0 1 w w'
      /\ conforms d FeedbackResponse.schema = true
      /\ forall e,
           chain_raises (FeedbackExt.optimize_structure_chain F)
                        [("resume_text", PStr text)] = Some e ->
           d = [("key_points",
                 PList [PStr ("Error optimizing structure: " ++ str e)]);
                ("has_issues", PBool true)])
  /\ (exists d w',
         check_content E text w = (inr d, w')
         /\ within 0 1 w w'
         /\ conforms d FeedbackResponse.schema = true
         /\ forall e,
              chain_raises (Ext.check_content_chain E)
                           [("text", PStr text)] = Some e ->
              d = [("key_points",
                    PList [PStr ("Error checking content: " ++ str e)]);
                   ("has_issues", PBool true)])
  /\ (exists d w',
         check_tone_and_style F text w = (inr d, w')
         /\ within 0 1 w w'
         /\ conforms d FeedbackResponse.schema = true
         /\ forall e,
              chain_raises (FeedbackExt.tone_and_style_chain F)
                           [("text", PStr text)] = Some e ->
              d = [("key_points",
                    PList [PStr ("Error checking tone/style: " ++ str e)]);
                   ("has_issues", PBool true)]).
Proof.
  split; [|split].
  - exact (feedback_client_outcome E (FeedbackExt.optimize_structure_chain F)
             [("resume_text", PStr text)] "Error optimizing structure: " w).
  - exact (feedback_client_outcome E (Ext.check_content_chain E)
             [("text", PStr text)] "Error checking content: " w).
  - exact (feedback_client_outcome E (FeedbackExt.tone_and_style_chain F)
             [("text", PStr text)] "Error checking tone/style: " w).
Qed.

Lemma skill_optimization_conforms (r : SkillOptimizationResponse.t) :
  conforms (SkillOptimizationResponse.model_dump r)
           SkillOptimizationResponse.schema = true.
Proof.
  destruct r as [l]. unfold conforms. cbn.
  pose proof (strs_has_type l) as H. cbn in H. now rewrite H.
Qed.

(** X17: [optimize_skills_section] never raises and returns a dictionary of
    the [SkillOptimizationResponse] schema after at most one call to the
    generative model; when the chain raises, [skills_to_add] is empty and
    the message is kept under [error]. *)
Theorem optimize_skills_section_outcomes
        (current_skills job_requirements : pydict) (jt : string) (w : world E) :
  exists d w',
    optimize_skills_section F current_skills job_requirements jt w
    = (inr d, w')
    /\ within 0 1 w w'
    /\ conforms d SkillOptimizationResponse.schema = true
    /\ forall e,
         chain_raises (FeedbackExt.skill_optimization_chain F)
                      [("current_skills", PDict current_skills);
                       ("job_requirements", PDict job_requirements);
                       ("job_title", PStr jt)] = Some e ->
         d = [("skills_to_add", PList []);
              ("error", PStr ("Error optimizing skills: " ++ str e))].
Proof.
  destruct (client_outcome E (FeedbackExt.skill_optimization_chain F)
              [("current_skills", PDict current_skills);
               ("job_requirements", PDict job_requirements);
               ("job_title", PStr jt)]
              SkillOptimizationResponse.model_dump
              (fun e => [("skills_to_add", PList []);
                         ("error", PStr ("Error optimizing skills: " ++ str e))])
              w) as (d & w' & Hrun & Hw & Hcase).
  exists d, w'. split; [exact Hrun|]. split; [exact Hw|].
  destruct (chain_raises _ _) as [e|].
  - subst d. split; [reflexivity|]. intros e0 H; now inversion H.
  - destruct Hcase as [[r ->] _].
    split; [apply skill_optimization_conforms | discriminate].
Qed.

End FeedbackClients.

(** ** app.py, further *)

Section CallCases.

Variable E : Ext.t.

(** Every way a client call can go, read off its result. *)
Lemma client_cases {T} (c : exn + Runnable T) (input : pydict)
      (dump : T -> pydict) (fallback : exn -> pydict)
      (w : world E) res w' :
  try_except E
    (bind E (lift E c) (fun chain =>
     bind E (invoke E chain input) (fun result => ret E (dump result))))
    (fun e => ret E (fallback e)) w = (res, w') ->
  within 0 1 w w'
  /\ ((exists e, chain_raises c input = Some e /\ res = inr (fallback e))
      \/ (exists chain r,
             c = inr chain /\ chain input = inr r /\ res = inr (dump r))).
Proof.
  unfold try_except, bind, lift, invoke, bind, lift, ret, chain_raises.
  destruct c as [e | chain].
  - intros H; inversion H; subst. split.
    + apply (within_weaken E 0 0); [lia | lia | apply within_refl].
    + left. now exists e.
  - cbn [tick_oracle]. destruct (chain input) as [e | r] eqn:Hc;
      intros H; inversion H; subst;
      (split; [apply (within_tick_oracle E w)|]).
    + left. now exists e.
    + right. now exists chain, r.
Qed.

Lemma extract_all_skills_within text (w : world E) res w' :
  extract_all_skills E text w = (res, w') -> within 0 1 w w'.
Proof.
  unfold extract_all_skills.
  destruct (negb (truthy (PStr text)) || Nat.ltb (String.length text) 50).
  - unfold ret. intros H; inversion H; subst.
    apply (within_weaken E 0 0); [lia | lia | apply within_refl].
  - unfold try_except, bind, lift, invoke, bind, lift, ret.
    destruct (Ext.skills_chain E) as [e | chain].
    + unfold print. intros H; inversion H; subst.
      apply (within_weaken E 0 0); [lia | lia|].
      apply (within_print E ("Error during AI skill extraction: " ++ str e) w).
    + cbn [tick_oracle]. destruct (chain _) as [e | r];
        unfold print; intros H; inversion H; subst.
      * apply (within_trans E 0 1 0 0 w _ _ (within_tick_oracle E w)).
        apply (within_print E ("Error during AI skill extraction: " ++ str e)
                 (snd (tick_oracle E w))).
      * apply (within_tick_oracle E w).
Qed.

(** Two texts cost one encoder call at most. *)
Lemma score_texts_within s t (w : world E) q w' :
  score E (PStr s) (PStr t) w = (inr q, w') -> within 1 0 w w'.
Proof.
  assert (Hw0 : within 1 0 w w)
    by (apply (within_weaken E 0 0); [lia | lia | apply within_refl]).
  assert (Hp : forall line, within 1 0 w (snd (print E line w)))
    by (intros line; apply (within_weaken E 0 0);
        [lia | lia | apply within_print]).
  assert (H1 : within 1 0 w (snd (tick_encode E w)))
    by apply within_tick_encode.
  assert (H1p : forall line,
             within 1 0 w (snd (print E line (snd (tick_encode E w))))).
  { intros line.
    apply (within_trans E 1 0 0 0 w _ _ (within_tick_encode E w)).
    apply within_print. }
  unfold score, try_except, score_body.
  destruct (SemanticModel_model E w) as [model|].
  2:{ unfold raise, bind, ret. intros H; inversion H; subst. apply Hp. }
  unfold bind, call_encode, bind, lift, row, score_of, bind, lift, ret, raise.
  cbn [tick_encode fst snd] in *.
  destruct (encode model _) as [e | rows].
  { destruct e; intros H; inversion H; subst; apply H1p. }
  destruct (nth_error rows 0) as [e1|];
    [|intros H; inversion H; subst; apply H1p].
  destruct (nth_error rows 1) as [e2|];
    [|intros H; inversion H; subst; apply H1p].
  destruct (Ext.cos_sim E e1 e2) as [e | sim].
  - destruct e; intros H; inversion H; subst; apply H1p.
  - intros H; inversion H; subst. exact H1.
Qed.

(** What [get_instance] does to the process, on both outcomes. *)
Lemma get_instance_cases (w : world E) res w' :
  get_instance E w = (res, w') ->
  encode_calls E w' = encode_calls E w
  /\ oracle_calls E w' = oracle_calls E w
  /\ match res with
     | inr _ => SemanticModel_instance E w' <> None
     | inl _ => SemanticModel_instance E w' = None
                /\ SemanticModel_model E w' = SemanticModel_model E w
     end.
Proof.
  unfold get_instance, bind at 1, read at 1.
  destruct (SemanticModel_instance E w) as [i|] eqn:Hi.
  { unfold ret. intros H; inversion H; subst. repeat split; congruence. }
  unfold bind at 1, read at 1.
  destruct (MODEL_NAME E w) as [name|] eqn:Hn.
  2:{ unfold raise. intros H; inversion H; subst. repeat split; auto. }
  cbn [truthy].
  destruct (String.eqb name EmptyString); cbn [negb].
  { unfold raise. intros H; inversion H; subst. repeat split; auto. }
  unfold SemanticModel_init, bind, read, try_except, lift, set_model,
         set_instance, print, raise. cbn. rewrite Hi.
  destruct (Ext.cuda_is_available E) as [e0 | cuda].
  { intros H; inversion H; subst; cbn. repeat split; auto. }
  destruct (Ext.load_SentenceTransformer E name _) as [e0 | m];
    intros H; inversion H; subst; cbn; repeat split; auto; discriminate.
Qed.

Lemma get_instance_again (w : world E) :
  SemanticModel_instance E w <> None -> get_instance E w = (inr tt, w).
Proof.
  intros H. unfold get_instance, bind, read.
  destruct (SemanticModel_instance E w); [reflexivity | congruence].
Qed.

End CallCases.

Section AppFurther.

Variable E : Ext.t.

Lemma runs_footprint jd jt rt (w0 : world E) l w7 :
  runs E jd jt rt w0 l w7 -> within 5 4 w0 w7.
Proof.
  intros R.
  destruct R as [res_skill w1 req_skill w2 t_in s_in tech w3 soft w4 ats w5
                 ca w6 sa w7 H1 H2 _ _ H3 H4 H5 H6 H7].
  apply extract_all_skills_within in H1.
  unfold get_required_skills in H2. apply client_cases in H2.
  apply score_within in H3. apply score_within in H4.
  apply score_texts_within in H5.
  unfold get_content_score in H6. apply client_cases in H6.
  unfold get_structure_score in H7. apply client_cases in H7.
  destruct H2 as [H2 _], H6 as [H6 _], H7 as [H7 _].
  pose proof (within_trans E _ _ _ _ _ _ _ H1 H2) as A.
  pose proof (within_trans E _ _ _ _ _ _ _ A H3) as B.
  pose proof (within_trans E _ _ _ _ _ _ _ B H4) as C.
  pose proof (within_trans E _ _ _ _ _ _ _ C H5) as D.
  pose proof (within_trans E _ _ _ _ _ _ _ D H6) as F.
  pose proof (within_trans E _ _ _ _ _ _ _ F H7) as G.
  exact G.
Qed.

(** Both ways in which the handler ends once the singleton is there. *)
Lemma analyze_resume_cases jd jt rt (w w0 : world E) :
  get_instance E w = (inr tt, w0) ->
  exists l w7 cz sz res w8,
    runs E jd jt rt w0 l w7
    /\ content_score l = PInt cz
    /\ structure_score l = PInt sz
    /\ analyze_resume E jd jt rt w = (res, w8)
    /\ within 5 5 w0 w8
    /\ match res with
       | inr resp =>
           status_code resp = 200
           /\ B64.int_overflows cz || B64.int_overflows sz = false
       | inl e =>
           e = HTTPException 500
                 "Internal server error during analysis: int too large to convert to float"
           /\ B64.int_overflows cz || B64.int_overflows sz = true
       end.
Proof.
  intros Hg.
  destruct (analyze_resume_runs E jd jt rt w w0 Hg)
    as (l & w7 & cz & sz & R & Hc & Hs & Hrun).
  pose proof (runs_footprint _ _ _ _ _ _ R) as Hw7.
  destruct (B64.int_overflows cz || B64.int_overflows sz) eqn:Ho.
  - eexists l, w7, cz, sz, _, _.
    split; [exact R|]. split; [exact Hc|]. split; [exact Hs|].
    split; [exact Hrun|]. split; [|now split].
    apply (within_weaken E 5 4); [lia | lia |].
    exact (within_trans E _ _ _ _ _ _ _ Hw7 (within_print E _ w7)).
  - destruct Hrun as (imp & w8 & H8 & Hrun).
    eexists l, w7, cz, sz, _, w8.
    split; [exact R|]. split; [exact Hc|]. split; [exact Hs|].
    split; [exact Hrun|]. split; [|now split].
    unfold get_professional_summary_suggestions in H8.
    apply client_cases in H8. destruct H8 as [H8 _].
    exact (within_trans E _ _ _ _ _ _ _ Hw7 H8).
Qed.

(** A score that [float] refuses is at least [2^1024 - 2^970] in
    magnitude. *)
Lemma overflow_cases (cz sz : Z) :
  B64.int_overflows cz || B64.int_overflows sz = true ->
  2 ^ 1024 - 2 ^ 970 <= Z.abs cz \/ 2 ^ 1024 - 2 ^ 970 <= Z.abs sz.
Proof.
  intros H. apply orb_true_iff in H.
  destruct H as [H | H]; apply int_overflows_iff in H; [now left | now right].
Qed.

(** X18: once the singleton is there, [analyze_resume] answers with status
    200, or raises status 500 when the content or the structure score that
    the generative model returned is at least [2^1024 - 2^970] in
    magnitude, too large for a float.  Either way this takes at most five
    encoder calls and five calls to the generative model and leaves the
    environment and the singleton as they were, and the next
    [get_instance] finds the singleton without doing anything. *)
Theorem analyze_resume_footprint jd jt rt (w w0 : world E) :
  get_instance E w = (inr tt, w0) ->
  exists res w8,
    analyze_resume E jd jt rt w = (res, w8)
    /\ match res with
       | inr resp => status_code resp = 200
       | inl e =>
           e = HTTPException 500
                 "Internal server error during analysis: int too large to convert to float"
           /\ exists l w7 z,
                runs E jd jt rt w0 l w7
                /\ (content_score l = PInt z \/ structure_score l = PInt z)
                /\ 2 ^ 1024 - 2 ^ 970 <= Z.abs z
       end
    /\ within 5 5 w0 w8
    /\ get_instance E w8 = (inr tt, w8).
Proof.
  intros Hg.
  destruct (analyze_resume_cases jd jt rt w w0 Hg)
    as (l & w7 & cz & sz & res & w8 & R & Hc & Hs & Hrun & Hw & Hres).
  exists res, w8. split; [exact Hrun|]. split.
  - destruct res as [e | resp]; [|apply Hres].
    destruct Hres as [-> Ho]. split; [reflexivity|].
    destruct (overflow_cases _ _ Ho) as [Hz | Hz].
    + exists l, w7, cz. split; [exact R|]. split; [now left | exact Hz].
    + exists l, w7, sz. split; [exact R|]. split; [now right | exact Hz].
  - split; [exact Hw|]. apply get_instance_again.
    destruct Hw as (_ & Hi & _). rewrite Hi.
    now destruct (get_instance_cases E _ _ _ Hg) as (_ & _ & Hsi).
Qed.

(** X19: when [get_instance] raises, [analyze_resume] raises
    [HTTPException] 500 whose detail ends with the message of that
    exception, prints one line, and calls neither the encoder nor the
    generative model. *)
Theorem analyze_resume_failure jd jt rt (w w0 : world E) e :
  get_instance E w = (inl e, w0) ->
  exists w1,
    analyze_resume E jd jt rt w
    = (inl (HTTPException 500
              ("Internal server error during analysis: " ++ str e)), w1)
    /\ stdout E w1
       = (stdout E w0 ++ [("Error in analyze_resume: " ++ str e)%string])%list
    /\ encode_calls E w1 = encode_calls E w
    /\ oracle_calls E w1 = oracle_calls E w.
Proof.
  intros Hg. destruct (get_instance_cases E _ _ _ Hg) as (He & Ho & _).
  unfold analyze_resume, try_except, analyze_resume_body.
  unfold bind at 1. rewrite Hg.
  unfold bind, print, raise. eexists. split; [reflexivity|].
  cbn. repeat split; assumption.
Qed.

Lemma lifespan_startup_run (w : world E) :
  let w2 := snd (print E "📦 Loading semantic model..."
                   (snd (print E "🚀 App is starting up..." w))) in
  lifespan_startup E w
  = match get_instance E w2 with
    | (inr _, w3) =>
        (inr tt, snd (print E "✅ Semantic Model loaded successfully!" w3))
    | (inl e, w3) =>
        (inl (RuntimeError
                "Critical startup error: Semantic model failed to load."),
         snd (print E ("❌ Failed to load semantic model: " ++ str e) w3))
    end.
Proof.
  cbv zeta. unfold lifespan_startup, try_except, bind, raise.
  cbn [print snd].
  match goal with
  | |- context [get_instance E ?w2] =>
      destruct (get_instance E w2) as [[e0 | []] w3]
  end; reflexivity.
Qed.

(** X20: a start-up that returns has set the singleton, after which every
    [analyze_resume] finds it and keeps it set, answering with status 200
    or, when a score of the generative model is too large for a float,
    raising status 500; a start-up that raises raises the fixed "Critical
    startup error" and leaves no singleton. *)
Theorem lifespan_startup_outcomes (w : world E) :
  (forall w0,
      lifespan_startup E w = (inr tt, w0) ->
      SemanticModel_instance E w0 <> None
      /\ forall jd jt rt,
           exists res w',
             analyze_resume E jd jt rt w0 = (res, w')
             /\ match res with
                | inr resp => status_code resp = 200
                | inl e =>
                    e = HTTPException 500
                          "Internal server error during analysis: int too large to convert to float"
                end
             /\ SemanticModel_instance E w' <> None)
  /\ (forall e w0,
         lifespan_startup E w = (inl e, w0) ->
         e = RuntimeError
               "Critical startup error: Semantic model failed to load."
         /\ SemanticModel_instance E w0 = None).
Proof.
  rewrite lifespan_startup_run. cbv zeta.
  set (w2 := snd (print E "📦 Loading semantic model..."
                    (snd (print E "🚀 App is starting up..." w)))).
  destruct (get_instance E w2) as [[e0 | []] w3] eqn:Hg;
    pose proof (get_instance_cases E _ _ _ Hg) as (_ & _ & Hs).
  - split; [discriminate|]. intros e w0 H; inversion H; subst.
    split; [reflexivity|]. destruct Hs as [Hs _]. exact Hs.
  - split; [|discriminate]. intros w0 H; inversion H; subst. clear H.
    set (w0 := snd (print E "✅ Semantic Model loaded successfully!" w3)).
    assert (Hs0 : SemanticModel_instance E w0 <> None) by exact Hs.
    split; [exact Hs0|]. intros jd jt rt.
    assert (Hg0 : get_instance E w0 = (inr tt, w0))
      by (apply get_instance_again; exact Hs0).
    destruct (analyze_resume_cases jd jt rt w0 w0 Hg0)
      as (l & w7 & cz & sz & res & w8 & _ & _ & _ & Hrun & Hw & Hres).
    exists res, w8. split; [exact Hrun|]. split.
    + destruct res as [e | resp]; apply Hres.
    + destruct Hw as (_ & Hi & _). rewrite Hi. exact Hs0.
Qed.

(** X21: [health_check] never raises and always reports "healthy";
    [model_ready] is [True] exactly when [get_instance] returned, and then
    the singleton is set; neither the encoder nor the generative model is
    called. *)
Theorem health_check_outcomes (w : world E) :
  exists ready w',
    health_check E w
    = (inr [("status", PStr "healthy"); ("model_ready", PBool ready);
            ("message", PStr "Service is running")], w')
    /\ (ready = true <-> exists w0, get_instance E w = (inr tt, w0))
    /\ (ready = true -> SemanticModel_instance E w' <> None)
    /\ encode_calls E w' = encode_calls E w
    /\ oracle_calls E w' = oracle_calls E w.
Proof.
  unfold health_check, bind at 1, try_except, bind at 1.
  destruct (get_instance E w) as [[e | []] w0] eqn:Hg;
    destruct (get_instance_cases E _ _ _ Hg) as (He & Ho & Hs);
    unfold ret; eexists _, _; (split; [reflexivity|]).
  - split; [|split; [discriminate | now split]].
    split; [discriminate | intros [w1 H]; discriminate].
  - split; [|split; [intros _; exact Hs | now split]].
    split; [intros _; now exists w0 | reflexivity].
Qed.

End AppFurther.

Section Routes.

Variable E : Ext.t.

(** What leaves the upload step: a non-empty text, or status 400. *)
Lemma process_uploaded_file_cases (upload : UploadFile (Ext.blob E))
      (w : world E) res w' :
  process_uploaded_file E upload w = (res, w') ->
  within 0 0 w w'
  /\ match res with
     | inr text => text <> EmptyString
     | inl e => exists detail, e = HTTPException 400 detail
     end.
Proof.
  unfold process_uploaded_file.
  destruct (endswith (filename upload) ".pdf") eqn:Hpdf.
  - cbn [orb negb].
    destruct (extract_text_from_pdf_run E (file upload) w)
      as (text & w1 & Hx & Hs & Hw).
    unfold try_except, bind. rewrite Hx. rewrite Hs. cbn [truthy].
    destruct (String.eqb_spec text EmptyString) as [-> | Hne]; cbn [negb orb].
    + unfold raise. intros H; inversion H; subst.
      split; [exact Hw | now eexists].
    + destruct text as [|c r]; [congruence|]. cbn [String.length Nat.eqb].
      unfold ret. intros H; inversion H; subst.
      split; [exact Hw | discriminate].
  - destruct (endswith (filename upload) ".docx") eqn:Hdocx; cbn [orb negb].
    + destruct (extract_text_from_docx_run E (file upload) w)
        as (text & w1 & Hx & Hs & Hw).
      unfold try_except, bind. rewrite Hx. rewrite Hs. cbn [truthy].
      destruct (String.eqb_spec text EmptyString) as [-> | Hne];
        cbn [negb orb].
      * unfold raise. intros H; inversion H; subst.
        split; [exact Hw | now eexists].
      * destruct text as [|c r]; [congruence|]. cbn [String.length Nat.eqb].
        unfold ret. intros H; inversion H; subst.
        split; [exact Hw | discriminate].
    + unfold raise. intros H; inversion H; subst.
      split; [apply within_refl | now eexists].
Qed.

Lemma analyze_resume_raises jd jt rt (w w0 : world E) e :
  get_instance E w = (inl e, w0) ->
  analyze_resume E jd jt rt w
  = (inl (HTTPException 500
            ("Internal server error during analysis: " ++ str e)),
     snd (print E ("Error in analyze_resume: " ++ str e) w0)).
Proof.
  intros Hg. unfold analyze_resume, try_except, analyze_resume_body.
  unfold bind at 1. rewrite Hg. reflexivity.
Qed.

(** X22: a request to [POST /analyze_resume] ends in one of three ways:
    status 200, status 400 from the upload step, or status 500, the last
    only when no singleton was there for [get_instance] to return, and
    then without a call to the encoder or to the generative model, or when
    a score of the generative model is too large for a float. *)
Theorem post_analyze_resume_outcomes jd jt (upload : UploadFile (Ext.blob E))
        (w : world E) :
  exists w',
    (exists resp,
        post_analyze_resume E jd jt upload w = (inr resp, w')
        /\ status_code resp = 200)
    \/ (exists detail,
           post_analyze_resume E jd jt upload w
           = (inl (HTTPException 400 detail), w')
           /\ within 0 0 w w')
    \/ (exists detail,
           post_analyze_resume E jd jt upload w
           = (inl (HTTPException 500 detail), w')
           /\ ((SemanticModel_instance E w = None
                /\ encode_calls E w' = encode_calls E w
                /\ oracle_calls E w' = oracle_calls E w)
               \/ detail
                  = "Internal server error during analysis: int too large to convert to float")).
Proof.
  unfold post_analyze_resume, bind.
  destruct (process_uploaded_file E upload w) as [[e | text] w1] eqn:Hp;
    destruct (process_uploaded_file_cases _ _ _ _ Hp) as [Hw Hres].
  - destruct Hres as [detail ->]. exists w1. right. left.
    exists detail. now split.
  - destruct (get_instance E w1) as [[e | []] w2] eqn:Hg.
    + destruct (get_instance_cases E _ _ _ Hg) as (He & Ho & _).
      assert (Hnone : SemanticModel_instance E w1 = None).
      { unfold get_instance, bind, read in Hg.
        destruct (SemanticModel_instance E w1); [discriminate | reflexivity]. }
      rewrite (analyze_resume_raises jd jt text w1 w2 e Hg).
      eexists. right. right. eexists. split; [reflexivity|]. left.
      destruct Hw as (_ & Hi & _ & Hew & How & _). cbn.
      split; [congruence|]. split; lia.
    + destruct (analyze_resume_cases E jd jt text w1 w2 Hg)
        as (l & w7 & cz & sz & res & w8 & _ & _ & _ & Hrun & _ & Hr).
      exists w8. destruct res as [e | resp].
      * destruct Hr as [-> _]. right. right. eexists.
        split; [exact Hrun | now right].
      * left. exists resp. split; [exact Hrun | apply Hr].
Qed.

End Routes.

Section FeedbackRoutes.

Variable F : FeedbackExt.t.

Local Abbreviation E := (FeedbackExt.base F).

(** A handler that wraps one feedback client under the key [key]. *)
Lemma feedback_handler_run c input (prefix key log : string) (w : world E) :
  exists feedback w',
    try_except E
      (bind E
         (try_except E
            (bind E (lift E c) (fun chain =>
             bind E (invoke E chain input) (fun result =>
             ret E (FeedbackResponse.model_dump result))))
            (fun e => ret E [("key_points", PList [PStr (prefix ++ str e)]);
                             ("has_issues", PBool true)]))
         (fun feedback =>
            ret E {| status_code := 200;
                     content := [("success", PBool true);
                                 (key, PDict feedback)] |}))
      (fun e =>
         bind E (print E (log ++ str e)) (fun _ =>
         raise E (HTTPException 500 ("Internal server error: " ++ str e)))) w
    = (inr {| status_code := 200;
              content := [("success", PBool true); (key, PDict feedback)] |},
       w')
    /\ conforms feedback FeedbackResponse.schema = true
    /\ within 0 1 w w'.
Proof.
  destruct (feedback_client_outcome E c input prefix w)
    as (d & w' & Hrun & Hw & Hc & _).
  exists d, w'. split; [|now split].
  unfold try_except at 1. unfold bind at 1. now rewrite Hrun.
Qed.

(** X23: the handlers of [/optimize_structure_feedback],
    [/optimize_content_feedback] and [/optimize_tone_style_feedback]
    answer every resume text with status 200 and [success = True], the
    feedback being a dictionary of the [FeedbackResponse] schema, after at
    most one call to the generative model; their status 500 is never
    raised. *)
Theorem feedback_endpoints_answer (rt : string) (w : world E) :
  (exists feedback w',
      get_structure_feedback_endpoint F rt w
      = (inr {| status_code := 200;
                content := [("success", PBool true);
                            ("structure_feedback", PDict feedback)] |}, w')
      /\ conforms feedback FeedbackResponse.schema = true
      /\ within 0 1 w w')
  /\ (exists feedback w',
         get_content_feedback_endpoint E rt w
         = (inr {| status_code := 200;
                   content := [("success", PBool true);
                               ("content_feedback", PDict feedback)] |}, w')
         /\ conforms feedback FeedbackResponse.schema = true
         /\ within 0 1 w w')
  /\ (exists feedback w',
         get_tone_style_feedback_endpoint F rt w
         = (inr {| status_code := 200;
                   content := [("success", PBool true);
                               ("tone_style_feedback", PDict feedback)] |}, w')
         /\ conforms feedback FeedbackResponse.schema = true
         /\ within 0 1 w w').
Proof.
  split; [|split].
  - exact (feedback_handler_run (FeedbackExt.optimize_structure_chain F)
             [("resume_text", PStr rt)] "Error optimizing structure: "
             "structure_feedback" "Error in optimize_structure_feedback: " w).
  - exact (feedback_handler_run (Ext.check_content_chain E)
             [("text", PStr rt)] "Error checking content: "
             "content_feedback" "Error in optimize_content_feedback: " w).
  - exact (feedback_handler_run (FeedbackExt.tone_and_style_chain F)
             [("text", PStr rt)] "Error checking tone/style: "
             "tone_style_feedback" "Error in optimize_tone_style_feedback: " w).
Qed.

Lemma optimize_skills_endpoint_run jd jt rt (w : world E) :
  exists details w',
    optimize_skills_endpoint F jd jt rt w
    = (inr {| status_code := 200;
              content := [("success", PBool true);
                          ("skills_optimization", PDict details)] |}, w')
    /\ conforms details SkillOptimizationResponse.schema = true
    /\ within 0 3 w w'.
Proof.
  destruct (extract_all_skills_total E rt w) as (raw & w1 & H1 & _).
  destruct (get_required_skills_total E jd w1) as (req & w2 & H2 & _).
  destruct (client_outcome E (FeedbackExt.skill_optimization_chain F)
              [("current_skills", PDict raw);
               ("job_requirements", PDict req);
               ("job_title", PStr jt)]
              SkillOptimizationResponse.model_dump
              (fun e => [("skills_to_add", PList []);
                         ("error", PStr ("Error optimizing skills: " ++ str e))])
              w2) as (d & w3 & H3 & Hw3 & Hcase).
  assert (H3' : optimize_skills_section F raw req jt w2 = (inr d, w3))
    by exact H3.
  exists d, w3. split; [|split].
  - unfold optimize_skills_endpoint. apply try_except_inr.
    rewrite (bind_run E _ _ _ _ _ H1).
    rewrite (bind_run E _ _ _ _ _ H2).
    rewrite (bind_run E _ _ _ _ _ H3'). reflexivity.
  - destruct (chain_raises _ _) as [e|].
    + now subst d.
    + destruct Hcase as [[r ->] _]. apply skill_optimization_conforms.
  - pose proof (extract_all_skills_within E _ _ _ _ H1) as A.
    unfold get_required_skills in H2. apply client_cases in H2.
    destruct H2 as [H2 _].
    pose proof (within_trans E _ _ _ _ _ _ _ A H2) as B.
    exact (within_trans E _ _ _ _ _ _ _ B Hw3).
Qed.

(** X24: the handler of [/optimize-skills] answers every request with
    status 200 and [success = True], the details being a dictionary of
    the [SkillOptimizationResponse] schema, after at most three calls to
    the generative model and none to the encoder. *)
Theorem optimize_skills_endpoint_answers jd jt rt (w : world E) :
  exists details w',
    optimize_skills_endpoint F jd jt rt w
    = (inr {| status_code := 200;
              content := [("success", PBool true);
                          ("skills_optimization", PDict details)] |}, w')
    /\ conforms details SkillOptimizationResponse.schema = true
    /\ within 0 3 w w'.
Proof. apply optimize_skills_endpoint_run. Qed.

(** A route whose handler always answers ends with 200 or with the 400 of
    the upload step. *)
Lemma route_cases (handler : string -> M E JSONResponse)
      (upload : UploadFile (Ext.blob E)) (w : world E) :
  (forall rt w1, exists resp w',
      handler rt w1 = (inr resp, w') /\ status_code resp = 200) ->
  exists w',
    (exists resp,
        bind E (process_uploaded_file E upload) handler w = (inr resp, w')
        /\ status_code resp = 200)
    \/ (exists detail,
           bind E (process_uploaded_file E upload) handler w
           = (inl (HTTPException 400 detail), w')
           /\ within 0 0 w w').
Proof.
  intros Hh. unfold bind.
  destruct (process_uploaded_file E upload w) as [[e | text] w1] eqn:Hp;
    destruct (process_uploaded_file_cases E _ _ _ _ Hp) as [Hw Hres].
  - destruct Hres as [detail ->]. exists w1. right. exists detail. now split.
  - destruct (Hh text w1) as (resp & w' & Hrun & Hs).
    exists w'. left. exists resp. now split.
Qed.

(** X25: the four feedback routes end with status 200 or with the status
    400 of the upload step; none of them ever ends with status 500. *)
Theorem feedback_routes_outcomes jd jt (upload : UploadFile (Ext.blob E))
        (w : world E) :
  (exists w',
      (exists resp, post_optimize_skills F jd jt upload w = (inr resp, w')
                    /\ status_code resp = 200)
      \/ (exists detail,
             post_optimize_skills F jd jt upload w
             = (inl (HTTPException 400 detail), w') /\ within 0 0 w w'))
  /\ (exists w',
         (exists resp,
             post_optimize_structure_feedback F upload w = (inr resp, w')
             /\ status_code resp = 200)
         \/ (exists detail,
                post_optimize_structure_feedback F upload w
                = (inl (HTTPException 400 detail), w') /\ within 0 0 w w'))
  /\ (exists w',
         (exists resp,
             post_optimize_content_feedback E upload w = (inr resp, w')
             /\ status_code resp = 200)
         \/ (exists detail,
                post_optimize_content_feedback E upload w
                = (inl (HTTPException 400 detail), w') /\ within 0 0 w w'))
  /\ (exists w',
         (exists resp,
             post_optimize_tone_style_feedback F upload w = (inr resp, w')
             /\ status_code resp = 200)
         \/ (exists detail,
                post_optimize_tone_style_feedback F upload w
                = (inl (HTTPException 400 detail), w') /\ within 0 0 w w')).
Proof.
  split; [|split; [|split]].
  - apply (route_cases (optimize_skills_endpoint F jd jt)).
    intros rt w1.
    destruct (optimize_skills_endpoint_run jd jt rt w1) as (d & w' & H & _).
    eexists _, w'. split; [exact H | reflexivity].
  - apply (route_cases (get_structure_feedback_endpoint F)).
    intros rt w1.
    destruct (feedback_handler_run (FeedbackExt.optimize_structure_chain F)
                [("resume_text", PStr rt)] "Error optimizing structure: "
                "structure_feedback" "Error in optimize_structure_feedback: "
                w1) as (d & w' & H & _).
    eexists _, w'. split; [exact H | reflexivity].
  - apply (route_cases (get_content_feedback_endpoint E)).
    intros rt w1.
    destruct (feedback_handler_run (Ext.check_content_chain E)
                [("text", PStr rt)] "Error checking content: "
                "content_feedback" "Error in optimize_content_feedback: "
                w1) as (d & w' & H & _).
    eexists _, w'. split; [exact H | reflexivity].
  - apply (route_cases (get_tone_style_feedback_endpoint F)).
    intros rt w1.
    destruct (feedback_handler_run (FeedbackExt.tone_and_style_chain F)
                [("text", PStr rt)] "Error checking tone/style: "
                "tone_style_feedback" "Error in optimize_tone_style_feedback: "
                w1) as (d & w' & H & _).
    eexists _, w'. split; [exact H | reflexivity].
Qed.

End FeedbackRoutes.

Section Degraded.

Variable E : Ext.t.

Lemma score_value_range a b (w : world E) q w' :
  score E a b w = (inr q, w') -> (0 <= q <= 100)%Q.
Proof.
  intros H. destruct (score_total E a b w) as (q0 & w0 & H0 & Hr).
  rewrite H0 in H. now inversion H; subst.
Qed.

Lemma score_empty_l_value x (w : world E) q w' :
  score E (PList []) x w = (inr q, w') -> q = 0%Q.
Proof.
  intros H. destruct (score_empty_l E x w) as (w0 & H0 & _).
  rewrite H0 in H. now inversion H.
Qed.

Lemma score_empty_r_value x (w : world E) q w' :
  score E x (PList []) w = (inr q, w') -> q = 0%Q.
Proof.
  intros H. destruct (score_empty_r E x w) as (w0 & H0 & _).
  rewrite H0 in H. now inversion H.
Qed.

(** X26: when the required-skills, content-score and structure-score chains
    all raise, a request still gets status 200: the skill-match, content
    and structure scores are 0 and the overall score is half the whole
    document similarity, rounded. *)
Theorem analyze_resume_degraded jd jt rt (w w0 : world E) e1 e2 e3 :
  get_instance E w = (inr tt, w0) ->
  chain_raises (Ext.required_skills_chain E)
               [("job_description", PStr jd)] = Some e1 ->
  chain_raises (Ext.content_score_chain E)
               [("job_title", PStr jt); ("text", PStr rt)] = Some e2 ->
  chain_raises (Ext.structure_score_chain E) [("text", PStr rt)] = Some e3 ->
  exists l w7 resp w8,
    runs E jd jt rt w0 l w7
    /\ analyze_resume E jd jt rt w = (inr resp, w8)
    /\ status_code resp = 200
    /\ tech_score l = 0%Q /\ soft_score l = 0%Q
    /\ lookup (content resp) "overall_score"
       = Some (PInt (py_round (0.5 * ats_match_score l)%Q))
    /\ lookup (content resp) "scores"
       = Some (PDict
                 [("ats_compatibility_score",
                   PInt (py_round (ats_match_score l)));
                  ("skill_match_score", PInt 0);
                  ("content_quality_score", PInt 0);
                  ("structure_score", PInt 0)]).
Proof.
  intros Hg Hr Hc Hs.
  destruct (analyze_resume_runs E jd jt rt w w0 Hg)
    as (l & w7 & cz & sz & R & Hcz & Hsz & Hrun).
  destruct (runs_hundredths E _ _ _ _ _ _ R) as (_ & _ & z & Hz & Hq).
  pose proof R as R'.
  destruct R as [res_skill w1 req_skill w2 t_in s_in tech w3 soft w4 ats w5
                 ca w6 sa w7 H1 H2 _ _ H3 H4 H5 H6 H7].
  cbn [tech_score soft_score ats_match_score content_score structure_score]
    in *.
  unfold get_required_skills in H2. apply client_cases in H2.
  destruct H2 as [_ [(e & He & Hreq) | (chain & r & Hch & Hin & _)]].
  2:{ unfold chain_raises in Hr. rewrite Hch, Hin in Hr. discriminate. }
  inversion Hreq; subst req_skill. clear Hreq.
  apply score_empty_l_value in H3. apply score_empty_l_value in H4.
  subst tech soft.
  unfold get_content_score in H6. apply client_cases in H6.
  destruct H6 as [_ [(e' & He' & Hca) | (chain & r & Hch & Hin & _)]].
  2:{ unfold chain_raises in Hc. rewrite Hch, Hin in Hc. discriminate. }
  inversion Hca; subst ca. clear Hca.
  unfold get_structure_score in H7. apply client_cases in H7.
  destruct H7 as [_ [(e'' & He'' & Hsa) | (chain & r & Hch & Hin & _)]].
  2:{ unfold chain_raises in Hs. rewrite Hch, Hin in Hs. discriminate. }
  inversion Hsa; subst sa. clear Hsa.
  cbn in Hcz, Hsz. inversion Hcz; inversion Hsz; subst cz sz.
  rewrite (int_overflows_percent 0) in Hrun by lia. cbn [orb] in Hrun.
  destruct Hrun as (imp & w8 & _ & Hrun).
  eexists _, w7, _, w8. split; [exact R'|]. split; [exact Hrun|].
  split; [reflexivity|].
  cbn [tech_score soft_score ats_match_score content_score structure_score].
  split; [reflexivity|]. split; [reflexivity|].
  cbn [content lookup String.eqb Ascii.eqb Bool.eqb]. split.
  - do 2 f_equal.
    change (skill_match (B64.round 0) (B64.round 0)) with 0%Q.
    change (B64.round (inject_Z 0)) with 0%Q.
    exact (overall_degraded ats z Hz Hq).
  - rewrite (display_stable ats z Hz Hq).
    change (skill_match (B64.round 0) (B64.round 0)) with 0%Q.
    reflexivity.
Qed.

(** X27: for a resume of fewer than 50 characters both candidate phrase
    lists are empty, so [tech_score] and [soft_score] are 0 whatever the
    job description asks for, and the skill-match score of the response is
    0; as always there is a response unless a score of the generative
    model is too large for a float. *)
Theorem analyze_resume_short_resume jd jt rt (w w0 : world E) :
  get_instance E w = (inr tt, w0) ->
  (String.length rt < 50)%nat ->
  exists l w7 cz sz,
    runs E jd jt rt w0 l w7
    /\ content_score l = PInt cz
    /\ structure_score l = PInt sz
    /\ tech_input l = PList [] /\ soft_input l = PList []
    /\ tech_score l = 0%Q /\ soft_score l = 0%Q
    /\ if B64.int_overflows cz || B64.int_overflows sz
       then exists detail w8,
           analyze_resume E jd jt rt w = (inl (HTTPException 500 detail), w8)
       else exists resp w8 rest,
           analyze_resume E jd jt rt w = (inr resp, w8)
           /\ lookup (content resp) "scores"
              = Some (PDict
                        (("ats_compatibility_score",
                          PInt (py_round (ats_match_score l)))
                         :: ("skill_match_score", PInt 0) :: rest)).
Proof.
  intros Hg Hlen.
  destruct (analyze_resume_runs E jd jt rt w w0 Hg)
    as (l & w7 & cz & sz & R & Hcz & Hsz & Hrun).
  pose proof (runs_display E _ _ _ _ _ _ R) as Hd.
  assert (Hl : tech_input l = PList [] /\ soft_input l = PList []
               /\ tech_score l = 0%Q /\ soft_score l = 0%Q).
  { destruct R as [res_skill w1 req_skill w2 t_in s_in tech w3 soft w4 ats w5
                   ca w6 sa w7 H1 H2 Ht Hs H3 H4 H5 H6 H7].
    cbn [tech_input soft_input tech_score soft_score].
    unfold extract_all_skills in H1.
    replace (Nat.ltb (String.length rt) 50) with true in H1
      by (symmetry; now apply Nat.ltb_lt).
    rewrite orb_true_r in H1. unfold ret in H1.
    inversion H1; subst res_skill w1. clear H1.
    cbn in Ht, Hs. inversion Ht; inversion Hs; subst t_in s_in.
    apply score_empty_r_value in H3. apply score_empty_r_value in H4.
    now subst tech soft. }
  destruct Hl as (Hti & Hsi & Hts & Hss).
  exists l, w7, cz, sz.
  split; [exact R|]. split; [exact Hcz|]. split; [exact Hsz|].
  split; [exact Hti|]. split; [exact Hsi|].
  split; [exact Hts|]. split; [exact Hss|].
  destruct (B64.int_overflows cz || B64.int_overflows sz).
  - eexists _, _. exact Hrun.
  - destruct Hrun as (imp & w8 & _ & Hrun).
    eexists _, w8, _. split; [exact Hrun|].
    cbn [content lookup String.eqb Ascii.eqb Bool.eqb].
    rewrite Hd, Hts, Hss.
    change (skill_match (B64.round 0) (B64.round 0)) with 0%Q.
    reflexivity.
Qed.

(** X28: when the content and structure chains, if they answer, answer with
    scores between 0 and 100, the overall score and every displayed
    component score of the response lie between 0 and 100. *)
Theorem analyze_resume_scores_in_range jd jt rt (w w0 : world E) :
  (forall chain input r,
      Ext.content_score_chain E = inr chain -> chain input = inr r ->
      0 <= ContentScoreResponse.score r <= 100) ->
  (forall chain input r,
      Ext.structure_score_chain E = inr chain -> chain input = inr r ->
      0 <= StructureScoreResponse.score r <= 100) ->
  get_instance E w = (inr tt, w0) ->
  exists resp w8 ov a k c s,
    analyze_resume E jd jt rt w = (inr resp, w8)
    /\ lookup (content resp) "overall_score" = Some (PInt ov)
    /\ lookup (content resp) "scores"
       = Some (PDict [("ats_compatibility_score", PInt a);
                      ("skill_match_score", PInt k);
                      ("content_quality_score", PInt c);
                      ("structure_score", PInt s)])
    /\ 0 <= ov <= 100 /\ 0 <= a <= 100 /\ 0 <= k <= 100
    /\ 0 <= c <= 100 /\ 0 <= s <= 100.
Proof.
  intros Hcr Hsr Hg.
  destruct (analyze_resume_runs E jd jt rt w w0 Hg)
    as (l & w7 & cz & sz & R & Hcz & Hsz & Hrun).
  destruct R as [res_skill w1 req_skill w2 t_in s_in tech w3 soft w4 ats w5
                 ca w6 sa w7 H1 H2 _ _ H3 H4 H5 H6 H7].
  cbn [tech_score soft_score ats_match_score content_score structure_score]
    in *.
  apply score_value_range in H3. apply score_value_range in H4.
  apply score_value_range in H5.
  assert (Hc : 0 <= cz <= 100).
  { unfold get_content_score in H6. apply client_cases in H6.
    destruct H6 as [_ [(e & _ & Hca) | (chain & r & Hch & Hin & Hca)]];
      inversion Hca; subst ca; cbn in Hcz; inversion Hcz; subst cz.
    - lia.
    - eapply Hcr; eauto. }
  assert (Hs : 0 <= sz <= 100).
  { unfold get_structure_score in H7. apply client_cases in H7.
    destruct H7 as [_ [(e & _ & Hsa) | (chain & r & Hch & Hin & Hsa)]];
      inversion Hsa; subst sa; cbn in Hsz; inversion Hsz; subst sz.
    - lia.
    - eapply Hsr; eauto. }
  rewrite (int_overflows_percent cz Hc), (int_overflows_percent sz Hs) in Hrun.
  cbn [orb] in Hrun. destruct Hrun as (imp & w8 & _ & Hrun).
  eexists _, w8, _, _, _, cz, sz. split; [exact Hrun|].
  cbn [content lookup String.eqb Ascii.eqb Bool.eqb].
  rewrite Hcz, Hsz. split; [reflexivity|]. split; [reflexivity|].
  pose proof (round_range tech H3) as Rt.
  pose proof (round_range soft H4) as Rs.
  pose proof (round_range ats H5) as Ra.
  pose proof (skill_match_range _ _ Rt Rs) as Hk.
  assert (HcQ : (0 <= inject_Z cz <= 100)%Q).
  { change 0%Q with (inject_Z 0). change 100%Q with (inject_Z 100).
    rewrite <- !Zle_Qle. exact Hc. }
  assert (HsQ : (0 <= inject_Z sz <= 100)%Q).
  { change 0%Q with (inject_Z 0). change 100%Q with (inject_Z 100).
    rewrite <- !Zle_Qle. exact Hs. }
  split.
  { apply overall_bounds; try assumption; now apply round_range. }
  split.
  { split; [apply py_round_lower | apply py_round_upper];
      [change (inject_Z 0) with 0%Q | change (inject_Z 100) with 100%Q];
      apply Ra. }
  split.
  { split; [apply py_round_lower | apply py_round_upper];
      [change (inject_Z 0) with 0%Q | change (inject_Z 100) with 100%Q];
      apply Hk. }
  split; assumption.
Qed.

End Degraded.

Section ExtractSkillsFurther.

Variable E : Ext.t.

(** X13: [extract_all_skills] never raises and returns a dictionary of the
    [CandidateSkills] schema after at most one call to the generative
    model.  On a text of 50 characters or more: when the chain raises,
    [skill_sets] is empty, the message is kept under [error] and one line
    is printed; when it answers, the model was called exactly once and the
    answer is returned as it is. *)
Theorem extract_all_skills_outcomes (text : string) (w : world E) :
  exists d w',
    extract_all_skills E text w = (inr d, w')
    /\ within 0 1 w w'
    /\ conforms d CandidateSkills.schema = true
    /\ ((50 <= String.length text)%nat ->
        match chain_raises (Ext.skills_chain E) [("text", PStr text)] with
        | Some e =>
            d = [("skill_sets", PList []);
                 ("error", PStr ("AI extraction failed: " ++ str e))]
            /\ stdout E w'
               = (stdout E w
                  ++ [("Error during AI skill extraction: " ++ str e)%string])%list
        | None =>
            (exists r, d = CandidateSkills.model_dump r)
            /\ oracle_calls E w' = S (oracle_calls E w)
            /\ stdout E w' = stdout E w
        end).
Proof.
  destruct (extract_all_skills_total E text w) as (d & w' & Hrun & Hc & _).
  exists d, w'. split; [exact Hrun|].
  split; [eapply extract_all_skills_within; eauto|]. split; [exact Hc|].
  intros Hlen. unfold extract_all_skills in Hrun.
  assert (Hne : truthy (PStr text) = true).
  { destruct text; [cbn in Hlen; lia | reflexivity]. }
  rewrite Hne in Hrun.
  replace (Nat.ltb (String.length text) 50) with false in Hrun
    by (symmetry; apply Nat.ltb_ge; exact Hlen).
  cbn [negb orb] in Hrun.
  unfold try_except, bind, lift, invoke, bind, lift, ret, print, chain_raises
    in *.
  destruct (Ext.skills_chain E) as [e | chain].
  - inversion Hrun; subst. split; reflexivity.
  - cbn [tick_oracle] in Hrun. destruct (chain _) as [e | r];
      inversion Hrun; subst.
    + split; reflexivity.
    + split; [now exists r | split; reflexivity].
Qed.

End ExtractSkillsFurther.

(** ** Instances of the further properties *)

Lemma score_mismatched_shapes_witness :
  exists w',
    score Sample.env (PStr "Python developer") (strs ["Python"]) Sample.started
    = (inr 0%Q, w')
    /\ encode_calls Sample.env w' = encode_calls Sample.env Sample.started.
Proof.
  exact (score_mismatched_shapes Sample.env (PStr "Python developer")
           (strs ["Python"]) Sample.started eq_refl).
Defined.

Lemma score_encoder_calls_witness :
  exists q w',
    score Sample.env (PStr "SQL") (PStr "Python") Sample.started = (inr q, w')
    /\ encode_calls Sample.env w' = 1%nat.
Proof.
  destruct (score_encoder_calls Sample.env Sample.started Sample.model eq_refl)
    as [Htexts _].
  exact (Htexts "SQL" "Python").
Defined.

Lemma get_instance_settles_witness :
  exists w0,
    get_instance Sample.env Sample.unloaded = (inr tt, w0)
    /\ SemanticModel_instance Sample.env w0 <> None
    /\ get_instance Sample.env w0 = (inr tt, w0).
Proof.
  eexists. split; [reflexivity|].
  destruct (get_instance_settles Sample.env Sample.unloaded _ eq_refl)
    as (Hs & Hagain & _).
  split; [exact Hs | exact Hagain].
Defined.

Lemma get_instance_failure_witness :
  SemanticModel_instance Sample.env
    (@mkWorld Sample.env None None None O O [])
  = None.
Proof.
  destruct (get_instance_failure Sample.env
              (@mkWorld Sample.env None None None O O [])
              (@mkWorld Sample.env None None None O O [])
              (EnvironmentError
                 "MODEL_NAME environment variable is not set. Cannot initialize the scoring model.")
              eq_refl) as (_ & H & _).
  exact H.
Defined.

Lemma analyze_resume_footprint_witness :
  exists res w8,
    analyze_resume Sample.env Sample.resume "Backend developer" Sample.resume
      Sample.started = (res, w8)
    /\ within 5 5 Sample.started w8
    /\ get_instance Sample.env w8 = (inr tt, w8).
Proof.
  destruct (analyze_resume_footprint Sample.env Sample.resume
              "Backend developer" Sample.resume Sample.started Sample.started
              eq_refl) as (res & w8 & Hrun & _ & Hw & Hagain).
  exists res, w8. split; [exact Hrun|]. split; [exact Hw | exact Hagain].
Defined.

Lemma analyze_resume_failure_witness :
  exists w1,
    analyze_resume Sample.env Sample.resume "Backend developer" Sample.resume
      (@mkWorld Sample.env None None None O O [])
    = (inl (HTTPException 500
              ("Internal server error during analysis: "
               ++ "MODEL_NAME environment variable is not set. Cannot initialize the scoring model.")),
       w1)
    /\ encode_calls Sample.env w1 = O.
Proof.
  destruct (analyze_resume_failure Sample.env Sample.resume
              "Backend developer" Sample.resume
              (@mkWorld Sample.env None None None O O [])
              (@mkWorld Sample.env None None None O O [])
              (EnvironmentError
                 "MODEL_NAME environment variable is not set. Cannot initialize the scoring model.")
              eq_refl) as (w1 & Hrun & _ & He & _).
  exists w1. split; [exact Hrun | exact He].
Defined.

Lemma analyze_resume_degraded_witness :
  exists l w7 resp w8,
    runs Sample.env_down Sample.resume "Backend developer" Sample.resume
         Sample.started_down l w7
    /\ analyze_resume Sample.env_down Sample.resume "Backend developer"
         Sample.resume Sample.started_down = (inr resp, w8)
    /\ lookup (content resp) "overall_score"
       = Some (PInt (py_round (0.5 * ats_match_score l)%Q)).
Proof.
  destruct (analyze_resume_degraded Sample.env_down Sample.resume
              "Backend developer" Sample.resume
              Sample.started_down Sample.started_down
              (OtherException "503 Service Unavailable")
              (OtherException "503 Service Unavailable")
              (OtherException "503 Service Unavailable")
              eq_refl eq_refl eq_refl eq_refl)
    as (l & w7 & resp & w8 & R & Hrun & _ & _ & _ & Hov & _).
  exists l, w7, resp, w8. split; [exact R|]. split; [exact Hrun | exact Hov].
Defined.

Lemma analyze_resume_short_resume_witness :
  (String.length "Jane Doe, analyst" < 50)%nat
  /\ exists l w7,
       runs Sample.env "Backend role" "Backend developer" "Jane Doe, analyst"
            Sample.started l w7
       /\ tech_score l = 0%Q /\ soft_score l = 0%Q.
Proof.
  assert (H : (String.length "Jane Doe, analyst" < 50)%nat) by (simpl; lia).
  split; [exact H|].
  destruct (analyze_resume_short_resume Sample.env "Backend role"
              "Backend developer" "Jane Doe, analyst"
              Sample.started Sample.started eq_refl H)
    as (l & w7 & cz & sz & R & _ & _ & _ & _ & Ht & Hs & _).
  exists l, w7. split; [exact R|]. split; [exact Ht | exact Hs].
Defined.

Lemma analyze_resume_scores_in_range_witness :
  exists resp w8 ov,
    analyze_resume Sample.env Sample.resume "Backend developer" Sample.resume
      Sample.started = (inr resp, w8)
    /\ lookup (content resp) "overall_score" = Some (PInt ov)
    /\ 0 <= ov <= 100.
Proof.
  assert (Hc : forall chain input r,
             Ext.content_score_chain Sample.env = inr chain ->
             chain input = inr r ->
             0 <= ContentScoreResponse.score r <= 100).
  { intros chain input r Hch Hin. simpl in Hch. inversion Hch; subst chain.
    inversion Hin; subst r. simpl. lia. }
  assert (Hs : forall chain input r,
             Ext.structure_score_chain Sample.env = inr chain ->
             chain input = inr r ->
             0 <= StructureScoreResponse.score r <= 100).
  { intros chain input r Hch Hin. simpl in Hch. inversion Hch; subst chain.
    inversion Hin; subst r. simpl. lia. }
  destruct (analyze_resume_scores_in_range Sample.env Sample.resume
              "Backend developer" Sample.resume Sample.started Sample.started
              Hc Hs eq_refl)
    as (resp & w8 & ov & a & k & c & s & Hrun & Hov & _ & Hr & _).
  exists resp, w8, ov. split; [exact Hrun|]. split; [exact Hov | exact Hr].
Defined.
